(** * naoqi_driver: the scheduler and dump core of [Driver]

    A shallow embedding of [src/naoqi_driver.cpp]: the converter queue and its
    tick ([rosIteration]), the registration functions, the buffer dump
    ([minidump], [minidumpConverters]), the buffer duration accessors and
    [stop].

    The driver is one object; its member variables are the fields of the
    record [Driver] and every member function is a function on that record.
    Publishers, recorders, events and converters are type-erased concept
    classes whose implementations live in other translation units: they are
    modelled by small records that carry exactly the observations and
    settings [naoqi_driver.cpp] makes on them. *)

From Stdlib Require Import ZArith String List Lia SpecFloat.
From stdpp Require Import gmap strings list fin_maps sorting.

Local Open Scope string_scope.
Local Open Scope list_scope.
Local Open Scope Z_scope.

(** ** Scalars *)

(** [rclcpp::Time] and [rclcpp::Duration] count nanoseconds. *)
Abbreviation Time := Z (only parsing).
Abbreviation Duration := Z (only parsing).

(** A C++ [float]: IEEE binary32, as a [spec_float] with 24 bits of precision. *)
Abbreviation float := spec_float (only parsing).

Definition f32_prec : Z := 24.
Definition f32_emax : Z := 128.
Definition f64_prec : Z := 53.
Definition f64_emax : Z := 1024.

(** [x != 0] on a float: false for both zeros, true for everything else
    (a NaN included). *)
Definition float_neq_zero (x : float) : bool :=
  match x with
  | S754_zero _ => false
  | _ => true
  end.


(** ** Message actions *)

Module message_actions.

Inductive MessageAction : Set := PUBLISH | RECORD | LOG.

#[global] Instance MessageAction_eq_dec : EqDecision MessageAction.
Proof. solve_decision. Defined.

End message_actions.
Import message_actions.

(** ** Data types of memory values

    The enumeration [dataType::DataType]; the driver switches on its integer
    value (0 None, 1 Float, 2 Int, 3 String, 4 Bool) and has a default branch
    for anything else, so the model keeps the integer. *)

Module dataType.

Abbreviation DataType := Z (only parsing).
Definition None : DataType := 0.
Definition Float : DataType := 1.
Definition Int : DataType := 2.
Definition String : DataType := 3.
Definition Bool : DataType := 4.

End dataType.

(** ** Collaborators *)

Module converter.

(** Modelled from the spec: the class [converter::Converter] is declared in a
    header. "Task (a converter): name: String, frequency: f64 (Hz, 0 =
    one-shot), invoke(action_set)"; the driver reads [name()] and
    [frequency()], which it passes on as a C++ [float], and calls
    [callAll(actions)]. *)
Record Converter : Type := {
  name : string;
  frequency : float
}.

End converter.

Module publisher.

(** Modelled from the spec: the class [publisher::Publisher] is declared
    in a header. "EmitSink (a publisher): topic_name, is_consumed()";
    [reset(node)] binds it to the node. *)
Record Publisher : Type := {
  topic : string;
  isSubscribed : bool;
  is_initialized : bool
}.

Definition reset (p : Publisher) : Publisher :=
  {| topic := topic p; isSubscribed := isSubscribed p; is_initialized := true |}.

End publisher.

(** A sink that [writeDump] can flush: a recorder of [rec_map_] or an event of
    [event_map_], by its key. *)
Inductive SinkRef : Type :=
| RecSink (key : string)
| EventSink (key : string).

Module recorder.

(** Modelled from the spec: the class [recorder::GlobalRecorder] is defined
    in another source file. "Persist transport: container lifecycle open(prefix) ->
    id, close() -> id". A container remembers its prefix and which sink
    buffers were flushed into it, at which snapshot time. *)
Record Container : Type := {
  prefix : string;
  flushed : list (SinkRef * Time)
}.

Record GlobalRecorder : Type := {
  open_bag : option Container;
  closed_bags : list Container
}.

Definition make_GlobalRecorder : GlobalRecorder :=
  {| open_bag := None; closed_bags := [] |}.

(** The identity under which a finalized container is reported. *)
Definition container_id (c : Container) : string := prefix c.

Definition not_recording_msg : string := "no container is open".

(** [startRecord(prefix)]: opens a container unless one is open already. *)
Definition startRecord (pfx : string) (g : GlobalRecorder) : GlobalRecorder :=
  match open_bag g with
  | Some _ => g
  | None => {| open_bag := Some {| prefix := pfx; flushed := [] |};
               closed_bags := closed_bags g |}
  end.

(** [stopRecord(ip)]: finalizes the open container and returns its identity. *)
Definition stopRecord (ip : string) (g : GlobalRecorder) : string * GlobalRecorder :=
  match open_bag g with
  | Some c => (container_id c, {| open_bag := None; closed_bags := c :: closed_bags g |})
  | None => (not_recording_msg, g)
  end.

(** What a sink's [writeDump(time)] leaves in the recorder: its buffer goes
    into the open container, stamped with the snapshot time. *)
Definition flush_into (s : SinkRef) (time : Time) (g : GlobalRecorder) : GlobalRecorder :=
  match open_bag g with
  | Some c => {| open_bag := Some {| prefix := prefix c; flushed := flushed c ++ [(s, time)] |};
                 closed_bags := closed_bags g |}
  | None => g
  end.

(** Modelled from the spec: the class [recorder::Recorder] is declared in a
    header. "PersistSink (a recorder): is_subscribed_for_recording(),
    write(data), buffer(data), set_buffer_horizon(duration)". [reset] hands it
    the global recorder and the converter's frequency. *)
Record Recorder : Type := {
  isSubscribed : bool;
  buffer_duration : float;
  conv_frequency : float;
  is_initialized : bool
}.

Definition subscribe (state : bool) (r : Recorder) : Recorder :=
  {| isSubscribed := state; buffer_duration := buffer_duration r;
     conv_frequency := conv_frequency r; is_initialized := is_initialized r |}.

Definition setBufferDuration (duration : float) (r : Recorder) : Recorder :=
  {| isSubscribed := isSubscribed r; buffer_duration := duration;
     conv_frequency := conv_frequency r; is_initialized := is_initialized r |}.

Definition reset (freq : float) (r : Recorder) : Recorder :=
  {| isSubscribed := isSubscribed r; buffer_duration := buffer_duration r;
     conv_frequency := freq; is_initialized := true |}.

End recorder.

Module event.

(** Modelled from the spec: the class [event::Event] is declared in a
    header. "AsyncEventSource: start_processing(), stop_processing(),
    is_publishing, is_recording, is_dumping, buffer(data), write(data)" and
    the buffer horizon of a persist sink. The three flags are set through
    [isPublishing(bool)], [isRecording(bool)] and [isDumping(bool)]. *)
Record Event : Type := {
  publishing : bool;
  recording : bool;
  dumping : bool;
  buffer_duration : float;
  has_recorder : bool
}.

Definition isPublishing (state : bool) (e : Event) : Event :=
  {| publishing := state; recording := recording e; dumping := dumping e;
     buffer_duration := buffer_duration e; has_recorder := has_recorder e |}.

Definition isRecording (state : bool) (e : Event) : Event :=
  {| publishing := publishing e; recording := state; dumping := dumping e;
     buffer_duration := buffer_duration e; has_recorder := has_recorder e |}.

Definition isDumping (state : bool) (e : Event) : Event :=
  {| publishing := publishing e; recording := recording e; dumping := state;
     buffer_duration := buffer_duration e; has_recorder := has_recorder e |}.

Definition setBufferDuration (duration : float) (e : Event) : Event :=
  {| publishing := publishing e; recording := recording e; dumping := dumping e;
     buffer_duration := duration; has_recorder := has_recorder e |}.

Definition resetRecorder (e : Event) : Event :=
  {| publishing := publishing e; recording := recording e; dumping := dumping e;
     buffer_duration := buffer_duration e; has_recorder := true |}.

End event.

Module subscriber.

Record Subscriber : Type := { name : string }.

End subscriber.

(** ** The converter queue *)

Record ScheduledConverter : Type := {
  schedule_ : Time;
  conv_index_ : nat
}.

(** Modelled from the spec: [ScheduledConverter::operator<] is declared in the
    driver's header. "Ordering: min-heap by fire_time; ties broken
    arbitrarily". The [std::priority_queue] is kept as a list in ascending
    [schedule_] order; an entry pushed with a stamp already present goes
    behind the entries that carry it. *)
Module priority_queue.

Fixpoint push (x : ScheduledConverter) (q : list ScheduledConverter)
  : list ScheduledConverter :=
  match q with
  | [] => [x]
  | y :: q' =>
      if schedule_ x <? schedule_ y then x :: y :: q' else y :: push x q'
  end.

Definition top (q : list ScheduledConverter) : option ScheduledConverter := head q.

Definition pop (q : list ScheduledConverter) : list ScheduledConverter := tail q.

Definition empty (q : list ScheduledConverter) : bool :=
  match q with [] => true | _ => false end.

End priority_queue.

(** ** The driver object *)

Import converter publisher recorder event.

Record Driver : Type := {
  publish_enabled_ : bool;
  record_enabled_ : bool;
  log_enabled_ : bool;
  keep_looping : bool;
  recorder_ : GlobalRecorder;
  buffer_duration_ : float;
  converters_ : list Converter;
  conv_queue_ : list ScheduledConverter;
  pub_map_ : gmap string Publisher;
  rec_map_ : gmap string Recorder;
  event_map_ : gmap string Event;
  subscribers_ : list subscriber.Subscriber
}.

Definition set_publish_enabled_ (b : bool) (d : Driver) : Driver :=
  {| publish_enabled_ := b; record_enabled_ := record_enabled_ d;
     log_enabled_ := log_enabled_ d; keep_looping := keep_looping d;
     recorder_ := recorder_ d; buffer_duration_ := buffer_duration_ d;
     converters_ := converters_ d; conv_queue_ := conv_queue_ d;
     pub_map_ := pub_map_ d; rec_map_ := rec_map_ d;
     event_map_ := event_map_ d; subscribers_ := subscribers_ d |}.

Definition set_record_enabled_ (b : bool) (d : Driver) : Driver :=
  {| publish_enabled_ := publish_enabled_ d; record_enabled_ := b;
     log_enabled_ := log_enabled_ d; keep_looping := keep_looping d;
     recorder_ := recorder_ d; buffer_duration_ := buffer_duration_ d;
     converters_ := converters_ d; conv_queue_ := conv_queue_ d;
     pub_map_ := pub_map_ d; rec_map_ := rec_map_ d;
     event_map_ := event_map_ d; subscribers_ := subscribers_ d |}.

Definition set_log_enabled_ (b : bool) (d : Driver) : Driver :=
  {| publish_enabled_ := publish_enabled_ d; record_enabled_ := record_enabled_ d;
     log_enabled_ := b; keep_looping := keep_looping d;
     recorder_ := recorder_ d; buffer_duration_ := buffer_duration_ d;
     converters_ := converters_ d; conv_queue_ := conv_queue_ d;
     pub_map_ := pub_map_ d; rec_map_ := rec_map_ d;
     event_map_ := event_map_ d; subscribers_ := subscribers_ d |}.

Definition set_keep_looping (b : bool) (d : Driver) : Driver :=
  {| publish_enabled_ := publish_enabled_ d; record_enabled_ := record_enabled_ d;
     log_enabled_ := log_enabled_ d; keep_looping := b;
     recorder_ := recorder_ d; buffer_duration_ := buffer_duration_ d;
     converters_ := converters_ d; conv_queue_ := conv_queue_ d;
     pub_map_ := pub_map_ d; rec_map_ := rec_map_ d;
     event_map_ := event_map_ d; subscribers_ := subscribers_ d |}.

Definition set_recorder_ (g : GlobalRecorder) (d : Driver) : Driver :=
  {| publish_enabled_ := publish_enabled_ d; record_enabled_ := record_enabled_ d;
     log_enabled_ := log_enabled_ d; keep_looping := keep_looping d;
     recorder_ := g; buffer_duration_ := buffer_duration_ d;
     converters_ := converters_ d; conv_queue_ := conv_queue_ d;
     pub_map_ := pub_map_ d; rec_map_ := rec_map_ d;
     event_map_ := event_map_ d; subscribers_ := subscribers_ d |}.

Definition set_buffer_duration_ (x : float) (d : Driver) : Driver :=
  {| publish_enabled_ := publish_enabled_ d; record_enabled_ := record_enabled_ d;
     log_enabled_ := log_enabled_ d; keep_looping := keep_looping d;
     recorder_ := recorder_ d; buffer_duration_ := x;
     converters_ := converters_ d; conv_queue_ := conv_queue_ d;
     pub_map_ := pub_map_ d; rec_map_ := rec_map_ d;
     event_map_ := event_map_ d; subscribers_ := subscribers_ d |}.

Definition set_converters_ (l : list Converter) (d : Driver) : Driver :=
  {| publish_enabled_ := publish_enabled_ d; record_enabled_ := record_enabled_ d;
     log_enabled_ := log_enabled_ d; keep_looping := keep_looping d;
     recorder_ := recorder_ d; buffer_duration_ := buffer_duration_ d;
     converters_ := l; conv_queue_ := conv_queue_ d;
     pub_map_ := pub_map_ d; rec_map_ := rec_map_ d;
     event_map_ := event_map_ d; subscribers_ := subscribers_ d |}.

Definition set_conv_queue_ (q : list ScheduledConverter) (d : Driver) : Driver :=
  {| publish_enabled_ := publish_enabled_ d; record_enabled_ := record_enabled_ d;
     log_enabled_ := log_enabled_ d; keep_looping := keep_looping d;
     recorder_ := recorder_ d; buffer_duration_ := buffer_duration_ d;
     converters_ := converters_ d; conv_queue_ := q;
     pub_map_ := pub_map_ d; rec_map_ := rec_map_ d;
     event_map_ := event_map_ d; subscribers_ := subscribers_ d |}.

Definition set_pub_map_ (m : gmap string Publisher) (d : Driver) : Driver :=
  {| publish_enabled_ := publish_enabled_ d; record_enabled_ := record_enabled_ d;
     log_enabled_ := log_enabled_ d; keep_looping := keep_looping d;
     recorder_ := recorder_ d; buffer_duration_ := buffer_duration_ d;
     converters_ := converters_ d; conv_queue_ := conv_queue_ d;
     pub_map_ := m; rec_map_ := rec_map_ d;
     event_map_ := event_map_ d; subscribers_ := subscribers_ d |}.

Definition set_rec_map_ (m : gmap string Recorder) (d : Driver) : Driver :=
  {| publish_enabled_ := publish_enabled_ d; record_enabled_ := record_enabled_ d;
     log_enabled_ := log_enabled_ d; keep_looping := keep_looping d;
     recorder_ := recorder_ d; buffer_duration_ := buffer_duration_ d;
     converters_ := converters_ d; conv_queue_ := conv_queue_ d;
     pub_map_ := pub_map_ d; rec_map_ := m;
     event_map_ := event_map_ d; subscribers_ := subscribers_ d |}.

Definition set_event_map_ (m : gmap string Event) (d : Driver) : Driver :=
  {| publish_enabled_ := publish_enabled_ d; record_enabled_ := record_enabled_ d;
     log_enabled_ := log_enabled_ d; keep_looping := keep_looping d;
     recorder_ := recorder_ d; buffer_duration_ := buffer_duration_ d;
     converters_ := converters_ d; conv_queue_ := conv_queue_ d;
     pub_map_ := pub_map_ d; rec_map_ := rec_map_ d;
     event_map_ := m; subscribers_ := subscribers_ d |}.

Definition set_subscribers_ (l : list subscriber.Subscriber) (d : Driver) : Driver :=
  {| publish_enabled_ := publish_enabled_ d; record_enabled_ := record_enabled_ d;
     log_enabled_ := log_enabled_ d; keep_looping := keep_looping d;
     recorder_ := recorder_ d; buffer_duration_ := buffer_duration_ d;
     converters_ := converters_ d; conv_queue_ := conv_queue_ d;
     pub_map_ := pub_map_ d; rec_map_ := rec_map_ d;
     event_map_ := event_map_ d; subscribers_ := l |}.

(** ** What lies outside [naoqi_driver.cpp] *)

(** Values fixed when the driver is built, from headers and libraries that are
    not part of [naoqi_driver.cpp]:
    - [folderMaximumSize], of [helpers::filesystem];
    - [bufferDefaultDuration], of [helpers::recorder];
    - [period]: the [rclcpp::Duration] that
      [rclcpp::Duration(0, (1.0f / conv.frequency())*1e9)] builds from a
      converter's frequency, in nanoseconds. The floating-point arithmetic
      and the constructor of [rclcpp::Duration] decide its value; the
      scheduler only adds it to a stamp. *)
Record Platform : Type := {
  folderMaximumSize : Z;
  bufferDefaultDuration : float;
  period : float -> Duration
}.

(** A value read from ALMemory, by the kind [helpers::naoqi::getDataType]
    finds in it. *)
Inductive AnyValue : Type :=
| AnyFloat | AnyInt | AnyString | AnyBool | AnyOther.

(** Modelled from the spec: [helpers::naoqi::getDataType] is defined in
    another source file. It "may fail typed-conversion with a recoverable error when
    asked to infer a value's semantic type from an untyped value"; [None] is
    that failure (a C++ exception). *)
Definition getDataType (value : AnyValue) : option Z :=
  match value with
  | AnyFloat => Some dataType.Float
  | AnyInt => Some dataType.Int
  | AnyString => Some dataType.String
  | AnyBool => Some dataType.Bool
  | AnyOther => None
  end.

(** What one call of a member function reads from the world around the
    driver:
    - [now]: the value of [this->now()];
    - [files_size]: what [getFilesSize] finds in the current folder;
    - [ros_ip]: [ros_env::getROSIP("eth0")];
    - [try_lock_record]: whether [try_to_lock] obtains [mutex_record_];
    - [writeDump_throws]: whether the [writeDump] of a sink fails with an
      exception;
    - [getData]: the value ALMemory holds for a key, [None] when the call
      fails with an exception. *)
Record Env : Type := {
  now : Time;
  files_size : Z;
  ros_ip : string;
  try_lock_record : bool;
  writeDump_throws : SinkRef -> bool;
  getData : string -> option AnyValue
}.

(** Calls that leave the driver and whose effect is not part of its state. *)
Inductive Call : Type :=
| CallAll (conv_index : nat) (actions : list MessageAction)
| SleepFor (d : Duration)
| SpinSome
| StartProcess (key : string)
| StopProcess (key : string).

(** ** Member functions as state transformers

    A member function either returns a value, or is left by an exception, or
    has no defined behaviour. In the first two cases the driver is left in
    some state, and some calls went out. *)
Inductive Outcome (A : Type) : Type :=
| Returned (a : A) (calls : list Call) (d : Driver)
| Raised (calls : list Call) (d : Driver)
| Undefined.

Arguments Returned {A} a calls d.
Arguments Raised {A} calls d.
Arguments Undefined {A}.

Definition M (A : Type) : Type := Driver -> Outcome A.

Definition ret {A : Type} (a : A) : M A := fun d => Returned a [] d.

(** The calls that went out before a continuation ran come first. *)
Definition prepend {A : Type} (calls1 : list Call) (o : Outcome A) : Outcome A :=
  match o with
  | Returned a calls2 d => Returned a (calls1 ++ calls2) d
  | Raised calls2 d => Raised (calls1 ++ calls2) d
  | Undefined => Undefined
  end.

Definition bind {A B : Type} (m : M A) (k : A -> M B) : M B :=
  fun d =>
    match m d with
    | Returned a calls1 d1 => prepend calls1 (k a d1)
    | Raised calls1 d1 => Raised calls1 d1
    | Undefined => Undefined
    end.

Notation "'do' x <- m ; k" := (bind m (fun x => k))
  (at level 10, x name, m at level 100, k at level 200,
   format "'[v' 'do'  x  <-  m ; '/' k ']'").
Notation "m >> k" := (bind m (fun _ => k))
  (at level 100, k at level 200, right associativity).

Definition get : M Driver := fun d => Returned d [] d.
Definition modify (f : Driver -> Driver) : M unit := fun d => Returned tt [] (f d).
Definition call (c : Call) : M unit := fun d => Returned tt [c] d.
Definition throw {A : Type} : M A := fun d => Raised [] d.
Definition undefined {A : Type} : M A := fun _ => Undefined.
Definition when (b : bool) (m : M unit) : M unit := if b then m else ret tt.

Fixpoint for_each {A : Type} (l : list A) (body : A -> M unit) : M unit :=
  match l with
  | [] => ret tt
  | x :: l' => body x >> for_each l' body
  end.

(** ** [std::map] *)

(** [std::map::insert]: the pair goes in only when its key is not there yet. *)
Definition map_insert {V : Type} (k : string) (v : V) (m : gmap string V)
  : gmap string V :=
  match m !! k with
  | Some _ => m
  | None => <[k:=v]> m
  end.

(** The keys from [begin()] to [end()]: ascending. *)
Definition map_keys {V : Type} (m : gmap string V) : list string :=
  merge_sort (fun a b => String.leb a b) (map_to_list m).*1.

(** ** The driver's member functions *)

Definition err_log_not_enabled : string :=
  "Log is not enabled, please enable logging before calling minidump".

Definition err_no_space : string :=
  "No more space on robot. You need to upload the presents bags and remove them to make new ones.".

Definition err_no_topic : string :=
  "Could not find any topic in converters. To get the list of all available converter's name, please run: $ qicli call ROS-Driver.getAvailableConverters".

(** [Driver::Driver()] *)
Definition make_Driver (pf : Platform) : Driver :=
  {| publish_enabled_ := false; record_enabled_ := false; log_enabled_ := false;
     keep_looping := true; recorder_ := make_GlobalRecorder;
     buffer_duration_ := bufferDefaultDuration pf;
     converters_ := []; conv_queue_ := [];
     pub_map_ := ∅; rec_map_ := ∅; event_map_ := ∅; subscribers_ := [] |}.

(** The action vector that [rosIteration] builds for the converter on top of
    the queue. *)
Definition tick_actions (env : Env) (conv : Converter) (d : Driver)
  : list MessageAction :=
  let pub_it := pub_map_ d !! converter.name conv in
  let rec_it := rec_map_ d !! converter.name conv in
  (if publish_enabled_ d
      && match pub_it with Some pub => publisher.isSubscribed pub | None => false end
   then [PUBLISH] else [])
  ++ (if try_lock_record env && record_enabled_ d
         && match rec_it with Some rec => recorder.isSubscribed rec | None => false end
      then [RECORD] else [])
  ++ (if log_enabled_ d
         && match rec_it with Some _ => true | None => false end
         && float_neq_zero (frequency conv)
      then [LOG] else []).

Definition rosIteration (pf : Platform) (env : Env) : M unit :=
  (do d <- get;
   match priority_queue.top (conv_queue_ d) with
   | Some top =>
       let conv_index := conv_index_ top in
       match converters_ d !! conv_index with
       | None => undefined
       | Some conv =>
           let schedule := schedule_ top in
           let actions := tick_actions env conv d in
           when (0 <? Z.of_nat (length actions)) (call (CallAll conv_index actions)) >>
           let dur := schedule - now env in
           when (0 <? dur) (call (SleepFor dur)) >>
           modify (fun d => set_conv_queue_ (priority_queue.pop (conv_queue_ d)) d) >>
           when (float_neq_zero (frequency conv))
             (modify (fun d =>
                set_conv_queue_
                  (priority_queue.push
                     {| schedule_ := schedule + period pf (frequency conv);
                        conv_index_ := conv_index |}
                     (conv_queue_ d)) d))
       end
   | None => call (SleepFor 1000000000)
   end) >>
  do d <- get;
  when (publish_enabled_ d) (call SpinSome).

Definition stopRecording : M string :=
  modify (set_record_enabled_ false) >>
  modify (fun d =>
    set_rec_map_
      (fold_left
         (fun m (conv : Converter) => alter (subscribe false) (converter.name conv) m)
         (converters_ d) (rec_map_ d)) d) >>
  modify (fun d => set_event_map_ (isRecording false <$> event_map_ d) d) >>
  do d <- get;
  let '(id, g) := stopRecord "" (recorder_ d) in
  modify (set_recorder_ g) >>
  ret id.

(** [writeDump(time)] on one sink of either map. *)
Definition writeDump (env : Env) (s : SinkRef) (time : Time) : M unit :=
  if writeDump_throws env s then throw
  else modify (fun d => set_recorder_ (flush_into s time (recorder_ d)) d).

Definition minidump (pf : Platform) (pfx : string) (env : Env) : M string :=
  do d <- get;
  if negb (log_enabled_ d) then ret err_log_not_enabled
  else if folderMaximumSize pf <? files_size env then ret err_no_space
  else
    when (record_enabled_ d) (stopRecording >> ret tt) >>
    modify (set_log_enabled_ false) >>
    modify (fun d => set_event_map_ (isDumping true <$> event_map_ d) d) >>
    let time := now env in
    modify (fun d => set_recorder_ (startRecord pfx (recorder_ d)) d) >>
    (do d <- get;
     for_each (map_keys (event_map_ d)) (fun key => writeDump env (EventSink key) time)) >>
    (do d <- get;
     for_each (map_keys (rec_map_ d)) (fun key => writeDump env (RecSink key) time)) >>
    modify (set_log_enabled_ true) >>
    modify (fun d => set_event_map_ (isDumping false <$> event_map_ d) d) >>
    do d <- get;
    let '(id, g) := stopRecord (ros_ip env) (recorder_ d) in
    modify (set_recorder_ g) >>
    ret id.

(** The loop of [minidumpConverters] over [names]; [is_started] is its local
    variable, returned at the end. *)
Fixpoint dump_names (env : Env) (pfx : string) (time : Time)
  (names : list string) (is_started : bool) : M bool :=
  match names with
  | [] => ret is_started
  | name :: names' =>
      do d <- get;
      do is_started' <-
        match rec_map_ d !! name with
        | Some _ =>
            when (negb is_started)
              (modify (fun d => set_recorder_ (startRecord pfx (recorder_ d)) d)) >>
            writeDump env (RecSink name) time >>
            ret true
        | None =>
            match event_map_ d !! name with
            | Some _ =>
                when (negb is_started)
                  (modify (fun d => set_recorder_ (startRecord pfx (recorder_ d)) d)) >>
                writeDump env (EventSink name) time >>
                ret true
            | None => ret is_started
            end
        end;
      dump_names env pfx time names' is_started'
  end.

Definition minidumpConverters (pf : Platform) (pfx : string) (names : list string)
  (env : Env) : M string :=
  do d <- get;
  if negb (log_enabled_ d) then ret err_log_not_enabled
  else if folderMaximumSize pf <? files_size env then ret err_no_space
  else
    when (record_enabled_ d) (stopRecording >> ret tt) >>
    modify (set_log_enabled_ false) >>
    modify (fun d => set_event_map_ (isDumping true <$> event_map_ d) d) >>
    let time := now env in
    do is_started <- dump_names env pfx time names false;
    modify (set_log_enabled_ true) >>
    modify (fun d => set_event_map_ (isDumping false <$> event_map_ d) d) >>
    if is_started then
      do d <- get;
      let '(id, g) := stopRecord (ros_ip env) (recorder_ d) in
      modify (set_recorder_ g) >>
      ret id
    else ret err_no_topic.

Definition setBufferDuration (duration : float) : M unit :=
  modify (fun d => set_rec_map_ (recorder.setBufferDuration duration <$> rec_map_ d) d) >>
  modify (fun d => set_event_map_ (event.setBufferDuration duration <$> event_map_ d) d) >>
  modify (set_buffer_duration_ duration).

Definition getBufferDuration : M float :=
  do d <- get;
  ret (buffer_duration_ d).

(** [registerConverter(converter::Converter&)] *)
Definition registerConverter (conv : Converter) (env : Env) : M unit :=
  do d <- get;
  let conv_index := length (converters_ d) in
  modify (fun d => set_converters_ (converters_ d ++ [conv]) d) >>
  modify (fun d =>
    set_conv_queue_
      (priority_queue.push {| schedule_ := now env; conv_index_ := conv_index |}
         (conv_queue_ d)) d).

(** [registerPublisher(const std::string&, publisher::Publisher&)] *)
Definition registerPublisher (conv_name : string) (pub : Publisher) : M unit :=
  do d <- get;
  let pub := if publish_enabled_ d then publisher.reset pub else pub in
  modify (fun d => set_pub_map_ (map_insert conv_name pub (pub_map_ d)) d).

(** [registerRecorder(const std::string&, recorder::Recorder&, float)] *)
Definition registerRecorder (conv_name : string) (rec : Recorder) (freq : float)
  : M unit :=
  let rec := recorder.reset freq rec in
  modify (fun d => set_rec_map_ (map_insert conv_name rec (rec_map_ d)) d).

Definition insertEventConverter (key : string) (ev : Event) : M unit :=
  let ev := resetRecorder ev in
  modify (fun d => set_event_map_ (map_insert key ev (event_map_ d)) d).

(** [registerConverter(converter::Converter, publisher::Publisher, recorder::Recorder)] *)
Definition registerConverter3 (conv : Converter) (pub : Publisher) (rec : Recorder)
  (env : Env) : M unit :=
  registerConverter conv env >>
  registerPublisher (converter.name conv) pub >>
  registerRecorder (converter.name conv) rec (frequency conv).

(** [registerPublisher(converter::Converter, publisher::Publisher)] *)
Definition registerPublisher2 (conv : Converter) (pub : Publisher) (env : Env)
  : M unit :=
  registerConverter conv env >>
  registerPublisher (converter.name conv) pub.

(** [registerRecorder(converter::Converter, recorder::Recorder)] *)
Definition registerRecorder2 (conv : Converter) (rec : Recorder) (env : Env)
  : M unit :=
  registerConverter conv env >>
  registerRecorder (converter.name conv) rec (frequency conv).

(** Modelled from the spec: the template [_registerMemoryConverter] is defined
    in the driver's header. It is what serves "register one ad-hoc
    single-value task from a name/frequency/kind triple": as
    [addMemoryConverters] does for its list converter, it makes a publisher, a
    recorder and a converter named after the key and hands the three to
    [registerConverter]. *)
Definition _registerMemoryConverter (key : string) (freq : float) (env : Env)
  : M unit :=
  let mfp := {| topic := key; publisher.isSubscribed := false;
                publisher.is_initialized := false |} in
  let mfr := {| recorder.isSubscribed := false;
                recorder.buffer_duration := S754_zero false;
                conv_frequency := S754_zero false;
                recorder.is_initialized := false |} in
  let mfc := {| converter.name := key; frequency := freq |} in
  registerConverter3 mfc mfp mfr env.

Definition registerMemoryConverter (key : string) (freq : float) (type : Z)
  (env : Env) : M bool :=
  match getData env key with
  | None => ret false
  | Some value =>
      match (if type =? dataType.None then getDataType value else Some type) with
      | None => ret false
      | Some data_type =>
          match data_type with
          | 0 => ret false
          | 1 | 2 | 3 | 4 => _registerMemoryConverter key freq env >> ret true
          | _ => ret false
          end
      end
  end.

Definition registerEventConverter (key : string) (type : Z) (env : Env) : M bool :=
  match getData env key with
  | None => ret false
  | Some value =>
      match (if type =? dataType.None then getDataType value else Some type) with
      | None => ret false
      | Some data_type =>
          match data_type with
          | 0 => ret false
          | 1 | 2 | 3 | 4 =>
              let event_register :=
                {| publishing := false; recording := false; dumping := false;
                   event.buffer_duration := S754_zero false;
                   has_recorder := false |} in
              insertEventConverter key event_register >>
              (do d <- get; when (keep_looping d) (call (StartProcess key))) >>
              (do d <- get;
               when (publish_enabled_ d)
                 (modify (fun d =>
                    set_event_map_ (alter (isPublishing true) key (event_map_ d)) d))) >>
              ret true
          | _ => ret false
          end
      end
  end.

Definition startPublishing : M unit :=
  modify (set_publish_enabled_ true) >>
  modify (fun d => set_event_map_ (isPublishing true <$> event_map_ d) d).

Definition stopPublishing : M unit :=
  modify (set_publish_enabled_ false) >>
  modify (fun d => set_event_map_ (isPublishing false <$> event_map_ d) d).

Definition startLogging : M unit := modify (set_log_enabled_ true).

Definition stopLogging : M unit := modify (set_log_enabled_ false).

Definition stop : M unit :=
  modify (set_keep_looping false) >>
  (do d <- get;
   for_each (map_keys (event_map_ d)) (fun key => call (StopProcess key))) >>
  modify (set_converters_ []) >>
  modify (set_subscribers_ []) >>
  modify (set_event_map_ ∅) >>
  call SpinSome.

(** ** Runs of the scheduler *)

(** The queue invariant: every entry points into [converters_], and no
    converter has two entries. *)
Definition queue_in_bounds (d : Driver) : Prop :=
  Forall (fun e => (conv_index_ e < length (converters_ d))%nat) (conv_queue_ d).

Definition queue_ok (d : Driver) : Prop :=
  queue_in_bounds d /\ NoDup (conv_index_ <$> conv_queue_ d).

(** What the caller does between two looks at the driver: one tick of the
    loop of [run], or the registration of one more converter. *)
Inductive Op : Type :=
| OpTick (env : Env)
| OpRegister (conv : Converter) (env : Env).

Definition step (pf : Platform) (o : Op) : M unit :=
  match o with
  | OpTick env => rosIteration pf env
  | OpRegister conv env => registerConverter conv env
  end.

Definition run (pf : Platform) (ops : list Op) : M unit :=
  for_each ops (step pf).

(** The queue entry that a tick takes from the top and dispatches. *)
Definition dispatched (o : Op) (d : Driver) : list ScheduledConverter :=
  match o with
  | OpTick _ => option_list (priority_queue.top (conv_queue_ d))
  | OpRegister _ _ => []
  end.

(** The entries dispatched along a run, oldest first; the run ends with the
    first step that does not return. *)
Fixpoint dispatches (pf : Platform) (ops : list Op) (d : Driver)
  : list ScheduledConverter :=
  match ops with
  | [] => []
  | o :: ops' =>
      match step pf o d with
      | Returned _ _ d' => dispatched o d ++ dispatches pf ops' d'
      | _ => []
      end
  end.

(** The entries of converter [i] in a list of entries, and the stamps at which
    converter [i] was dispatched. *)
Definition entries_of (i : nat) (l : list ScheduledConverter)
  : list ScheduledConverter :=
  filter (fun e => conv_index_ e = i) l.

Definition stamps_of (i : nat) (l : list ScheduledConverter) : list Time :=
  schedule_ <$> entries_of i l.

(** The state a member function leaves behind, however it ends. *)
Definition state_after {A : Type} (m : M A) (d : Driver) : Driver :=
  match m d with
  | Returned _ _ d' => d'
  | Raised _ d' => d'
  | Undefined => d
  end.

(** ** A concrete platform and concrete states *)

(** A platform to run the model on. Its period is [(1.0f / f) * 1e9] with the
    quotient in binary32 and the product in binary64, cut to whole
    nanoseconds. *)
Definition float_one : float := S754_finite false 8388608 (-23).
Definition float_ten : float := S754_finite false 10485760 (-20).
Definition float_zero : float := S754_zero false.
Definition double_1e9 : float := S754_finite false 8388608000000000 (-23).

Definition truncate (x : float) : Z :=
  match x with
  | S754_finite s m e =>
      let a := if 0 <=? e then Z.pos m * 2 ^ e else Z.pos m / 2 ^ (- e) in
      if s then - a else a
  | _ => 0
  end.

Definition period_ns (f : float) : Duration :=
  truncate (SFmul f64_prec f64_emax (SFdiv f32_prec f32_emax float_one f) double_1e9).

Definition sample_platform : Platform :=
  {| folderMaximumSize := 2000000000;
     bufferDefaultDuration := float_ten;
     period := period_ns |}.

Definition quiet_env (t : Time) : Env :=
  {| now := t; files_size := 0; ros_ip := "10.0.0.2"; try_lock_record := true;
     writeDump_throws := fun _ => false;
     getData := fun _ => Some AnyFloat |}.

(** The same surroundings, but the [writeDump] of recorder ["imu"] fails. *)
Definition failing_env (t : Time) : Env :=
  {| now := t; files_size := 0; ros_ip := "10.0.0.2"; try_lock_record := true;
     writeDump_throws := fun s =>
       match s with RecSink key => String.eqb key "imu" | EventSink _ => false end;
     getData := fun _ => Some AnyFloat |}.

Definition sample_publisher (t : string) (consumed : bool) : Publisher :=
  {| topic := t; publisher.isSubscribed := consumed;
     publisher.is_initialized := false |}.

Definition sample_recorder : Recorder :=
  {| recorder.isSubscribed := false; recorder.buffer_duration := float_ten;
     conv_frequency := float_zero; recorder.is_initialized := false |}.

Definition sample_event : Event :=
  {| publishing := false; recording := false; dumping := false;
     event.buffer_duration := float_ten; has_recorder := false |}.

Definition conv_camera : Converter := {| converter.name := "camera"; frequency := float_ten |}.
Definition conv_info : Converter := {| converter.name := "info"; frequency := float_zero |}.
Definition conv_imu : Converter := {| converter.name := "imu"; frequency := float_one |}.

(** A driver with three converters at 10 Hz, 0 Hz and 1 Hz, each with its
    publisher and recorder, one event, and buffering switched on. *)
Definition driver_three : Driver :=
  state_after
    (registerConverter3 conv_camera (sample_publisher "camera" true) sample_recorder (quiet_env 0) >>
     registerConverter3 conv_info (sample_publisher "info" false) sample_recorder (quiet_env 0) >>
     registerConverter3 conv_imu (sample_publisher "imu" true) sample_recorder (quiet_env 0) >>
     insertEventConverter "touch" sample_event >>
     startLogging)
    (make_Driver sample_platform).


(** The same driver once [startPublishing] has run. *)
Definition driver_publishing : Driver := state_after startPublishing driver_three.


Definition ten_ticks : list Op :=
  [OpTick (quiet_env 0); OpTick (quiet_env 5); OpTick (quiet_env 7);
   OpTick (quiet_env 100000900); OpTick (quiet_env 100000950);
   OpTick (quiet_env 300000000); OpTick (quiet_env 300000001);
   OpTick (quiet_env 300000002); OpTick (quiet_env 1000000000);
   OpTick (quiet_env 1000000001)].

(** What a tick that finds [top] on the queue, for converter [conv], sends out
    and leaves in the queue. *)
Definition tick_calls (env : Env) (d : Driver) (top : ScheduledConverter)
  (conv : Converter) : list Call :=
  (if 0 <? Z.of_nat (length (tick_actions env conv d))
   then [CallAll (conv_index_ top) (tick_actions env conv d)] else [])
  ++ (if 0 <? schedule_ top - now env then [SleepFor (schedule_ top - now env)] else [])
  ++ (if publish_enabled_ d then [SpinSome] else []).

Definition tick_queue (pf : Platform) (top : ScheduledConverter) (conv : Converter)
  (q : list ScheduledConverter) : list ScheduledConverter :=
  if float_neq_zero (frequency conv)
  then priority_queue.push
         {| schedule_ := schedule_ top + period pf (frequency conv);
            conv_index_ := conv_index_ top |}
         (priority_queue.pop q)
  else priority_queue.pop q.

(** The state in which a dump finds the driver once it has closed a recording
    in progress. *)
Definition before_dump (d : Driver) : Driver :=
  if record_enabled_ d then state_after stopRecording d else d.

(** Whether a name given to [minidumpConverters] is a key of [rec_map_] or of
    [event_map_]. *)
Definition has_sink (d : Driver) (name : string) : bool :=
  match rec_map_ d !! name with
  | Some _ => true
  | None => match event_map_ d !! name with Some _ => true | None => false end
  end.

(** [g] is [g0] after some sinks were flushed into its open container: the
    closed containers are the same, and an open container stays open and
    keeps its prefix. *)
Definition flushed_from (g0 g : GlobalRecorder) : Prop :=
  closed_bags g = closed_bags g0 /\
  forall c0, open_bag g0 = Some c0 ->
             exists c, open_bag g = Some c /\ prefix c = prefix c0.

(** The state of the driver while a dump flushes, and once it has restored
    buffering; [g] is what has become of [recorder_]. *)
Definition dumping_state (g : GlobalRecorder) (d : Driver) : Driver :=
  set_recorder_ g
    (set_event_map_ (isDumping true <$> event_map_ (before_dump d))
       (set_log_enabled_ false (before_dump d))).

Definition restored_state (g : GlobalRecorder) (d : Driver) : Driver :=
  set_recorder_ g
    (set_event_map_ (isDumping false <$> (isDumping true <$> event_map_ (before_dump d)))
       (set_log_enabled_ true (before_dump d))).

(** ** Further member functions *)

(** [startRecording()]. [default_prefix] is the default argument of
    [GlobalRecorder::startRecord], declared in its header. *)
Definition startRecording (default_prefix : string) : M unit :=
  modify (fun d => set_recorder_ (startRecord default_prefix (recorder_ d)) d) >>
  modify (fun d =>
    set_rec_map_
      (fold_left
         (fun m (conv : Converter) => alter (subscribe true) (converter.name conv) m)
         (converters_ d) (rec_map_ d)) d) >>
  modify (fun d => set_event_map_ (isRecording true <$> event_map_ d) d) >>
  modify (set_record_enabled_ true).

(** The loop of [startRecordingConverters] over [names]; [is_started] is its
    local variable, returned at the end. *)
Fixpoint record_names (default_prefix : string) (names : list string)
  (is_started : bool) : M bool :=
  match names with
  | [] => ret is_started
  | name :: names' =>
      do d <- get;
      do is_started' <-
        match rec_map_ d !! name with
        | Some _ =>
            when (negb is_started)
              (modify (fun d =>
                 set_recorder_ (startRecord default_prefix (recorder_ d)) d)) >>
            modify (fun d => set_rec_map_ (alter (subscribe true) name (rec_map_ d)) d) >>
            ret true
        | None =>
            match event_map_ d !! name with
            | Some _ =>
                when (negb is_started)
                  (modify (fun d =>
                     set_recorder_ (startRecord default_prefix (recorder_ d)) d)) >>
                modify (fun d =>
                  set_event_map_ (alter (isRecording true) name (event_map_ d)) d) >>
                ret true
            | None => ret is_started
            end
        end;
      record_names default_prefix names' is_started'
  end.

Definition startRecordingConverters (default_prefix : string) (names : list string)
  : M unit :=
  do is_started <- record_names default_prefix names false;
  when is_started (modify (set_record_enabled_ true)).

(** The pairs of a [std::map] from [begin()] to [end()]: ascending keys. *)
Definition map_items {V : Type} (m : gmap string V) : list (string * V) :=
  merge_sort (fun a b => String.leb a.1 b.1) (map_to_list m).

Definition getAvailableConverters : M (list string) :=
  do d <- get;
  ret ((converter.name <$> converters_ d) ++ map_keys (event_map_ d)).

Definition getSubscribedPublishers : M (list string) :=
  do d <- get;
  ret (topic <$> filter (fun pub => publisher.isSubscribed pub = true)
                   (map_items (pub_map_ d)).*2).

(** What [pt.get<float>("frequency")] does on the parsed file: it returns the
    value, or throws [ptree_bad_data] or [ptree_bad_path]. *)
Inductive PtreeGet (A : Type) : Type :=
| Got (a : A)
| BadData
| BadPath.

Arguments Got {A} a.
Arguments BadData {A}.
Arguments BadPath {A}.

(** The three entries that [addMemoryConverters] reads from the property tree
    of its JSON file. [memory_topic] and [memory_keys] are [None] when reading
    them throws a [ptree_error]. *)
Record MemoryFile : Type := {
  memory_frequency : PtreeGet float;
  memory_topic : option string;
  memory_keys : option (list string)
}.

(** [addMemoryConverters(filepath)]. [file] is what [parseJsonFile] makes of
    the file, [None] when [read_json] throws. The list converter is named
    after the topic, as are its publisher and recorder. *)
Definition addMemoryConverters (file : option MemoryFile) (env : Env) : M unit :=
  match file with
  | None => throw
  | Some pt =>
      let freq :=
        match memory_frequency pt with
        | Got f => f
        | BadData => float_ten
        | BadPath => float_ten
        end in
      match memory_topic pt with
      | None => ret tt
      | Some topic_name =>
          match memory_keys pt with
          | None => ret tt
          | Some list =>
              if bool_decide (list = []) then ret tt
              else
                let mlp := {| topic := topic_name; publisher.isSubscribed := false;
                              publisher.is_initialized := false |} in
                let mlr := {| recorder.isSubscribed := false;
                              recorder.buffer_duration := S754_zero false;
                              conv_frequency := S754_zero false;
                              recorder.is_initialized := false |} in
                let mlc := {| converter.name := topic_name; frequency := freq |} in
                registerConverter3 mlc mlp mlr env
          end
      end
  end.

(** [driver_three] after its first tick: the 0 Hz converter is on top. *)
Definition driver_info_on_top : Driver :=
  state_after (rosIteration sample_platform (quiet_env 1)) driver_three.

(** The maps that [startRecordingConverters] leaves: every named recorder is
    subscribed; a named event is set to recording unless a recorder has the
    same name. *)
Definition recorders_after (names : list string) (m : gmap string Recorder)
  : gmap string Recorder :=
  fold_left (fun m name => alter (subscribe true) name m) names m.

Definition events_after (rm : gmap string Recorder) (names : list string)
  (em : gmap string Event) : gmap string Event :=
  fold_left
    (fun em name =>
       match rm !! name with
       | Some _ => em
       | None => alter (isRecording true) name em
       end) names em.

(** The sink that [minidumpConverters] flushes for a name: the recorder under
    that key, otherwise the event under that key, otherwise none. *)
Definition sink_of (d : Driver) (name : string) : option SinkRef :=
  match rec_map_ d !! name with
  | Some _ => Some (RecSink name)
  | None =>
      match event_map_ d !! name with
      | Some _ => Some (EventSink name)
      | None => None
      end
  end.

(** A call that publishes nothing: neither [spin_some] nor a [callAll] with
    PUBLISH; and a call that buffers nothing. *)
Definition no_publish (c : Call) : Prop :=
  c <> SpinSome /\ forall i actions, c = CallAll i actions -> PUBLISH ∉ actions.

Definition no_log (c : Call) : Prop :=
  forall i actions, c = CallAll i actions -> LOG ∉ actions.

(** ** The default converters *)

(** What [setQiSession] stores and [registerDefaultConverter] looks at:
    whether [robot_ == robot::PEPPER], and [has_stereo]. *)
Record Session : Type := { robot_is_PEPPER : bool; has_stereo : bool }.

(** [boot_config_]: the value that the property tree holds under a path,
    [None] when the path is missing or when its value does not translate to
    the type asked for. [get(path, default)] returns the default then. *)
Record BootConfig : Type := {
  config_bool : string -> option bool;
  config_int : string -> option Z
}.

Definition get_bool (boot_config_ : BootConfig) (path : string) (default_value : bool)
  : bool :=
  default default_value (config_bool boot_config_ path).

(** [size_t x = boot_config_.get(path, default)] with an [int] default: the
    [int] is converted to a 64-bit [size_t]. *)
Definition get_size_t (boot_config_ : BootConfig) (path : string) (default_value : Z)
  : Z :=
  default default_value (config_int boot_config_ path) mod 2 ^ 64.

(** A [size_t] passed to a converter, which keeps its frequency as a [float]:
    the nearest binary32 number. *)
Definition float_of_size_t (n : Z) : float :=
  binary_normalize f32_prec f32_emax n 0 false.

(** A publisher, a recorder and an event as their constructors leave them. The
    publisher of ["info"] is the one that always counts as subscribed. *)
Definition BasicPublisher (t : string) : Publisher :=
  {| topic := t; publisher.isSubscribed := false; publisher.is_initialized := false |}.

Definition InfoPublisher (t : string) : Publisher :=
  {| topic := t; publisher.isSubscribed := true; publisher.is_initialized := false |}.

Definition BasicRecorder : Recorder :=
  {| recorder.isSubscribed := false; recorder.buffer_duration := S754_zero false;
     conv_frequency := S754_zero false; recorder.is_initialized := false |}.

Definition EventRegister : Event :=
  {| publishing := false; recording := false; dumping := false;
     event.buffer_duration := S754_zero false; has_recorder := false |}.

(** What [registerDefaultConverter] does with each of its four events: insert
    it, start it while the driver loops, and set it to publishing when
    publishing is on. For ["audio"] the start is inside a [try]: a failure is
    reported and the function goes on. *)
Definition registerDefaultEvent (key : string) : M unit :=
  insertEventConverter key EventRegister >>
  (do d <- get; when (keep_looping d) (call (StartProcess key))) >>
  (do d <- get;
   when (publish_enabled_ d)
     (modify (fun d => set_event_map_ (alter (isPublishing true) key (event_map_ d)) d))).

Section DefaultConverters.

(** [SonarPublisher::topic()], declared in a header, for a publisher made from
    a list of topics. *)
Variable SonarPublisher_topic : list string -> string.

(** [registerDefaultConverter()]. The resolutions, the recorders' frame
    rates and the laser ranges go to the converters and recorders and are not
    kept by the driver; ["converters.info.frequency"] and
    ["converters.audio.frequency"] are read and not used. *)
Definition registerDefaultConverter (session : Session) (boot_config_ : BootConfig)
  (env : Env) : M unit :=
  let info_enabled := get_bool boot_config_ "converters.info.enabled" true in
  let audio_enabled := get_bool boot_config_ "converters.audio.enabled" true in
  let logs_enabled := get_bool boot_config_ "converters.logs.enabled" true in
  let logs_frequency := get_size_t boot_config_ "converters.logs.frequency" 10 in
  let diag_enabled := get_bool boot_config_ "converters.diag.enabled" true in
  let diag_frequency := get_size_t boot_config_ "converters.diag.frequency" 10 in
  let imu_torso_enabled := get_bool boot_config_ "converters.imu_torso.enabled" true in
  let imu_torso_frequency := get_size_t boot_config_ "converters.imu_torso.frequency" 10 in
  let imu_base_enabled := get_bool boot_config_ "converters.imu_base.enabled" true in
  let imu_base_frequency := get_size_t boot_config_ "converters.imu_base.frequency" 10 in
  let camera_front_enabled := get_bool boot_config_ "converters.front_camera.enabled" true in
  let camera_front_fps := get_size_t boot_config_ "converters.front_camera.fps" 10 in
  let camera_bottom_enabled := get_bool boot_config_ "converters.bottom_camera.enabled" true in
  let camera_bottom_fps := get_size_t boot_config_ "converters.bottom_camera.fps" 10 in
  let camera_depth_enabled := get_bool boot_config_ "converters.depth_camera.enabled" true in
  let camera_depth_fps := get_size_t boot_config_ "converters.depth_camera.fps" 10 in
  let camera_stereo_enabled := get_bool boot_config_ "converters.stereo_camera.enabled" true in
  let camera_stereo_fps := get_size_t boot_config_ "converters.stereo_camera.fps" 10 in
  let camera_ir_enabled := get_bool boot_config_ "converters.ir_camera.enabled" true in
  let camera_ir_fps := get_size_t boot_config_ "converters.ir_camera.fps" 10 in
  let joint_states_enabled := get_bool boot_config_ "converters.joint_states.enabled" true in
  let joint_states_frequency :=
    get_size_t boot_config_ "converters.joint_states.frequency" 50 in
  let laser_enabled := get_bool boot_config_ "converters.laser.enabled" true in
  let laser_frequency := get_size_t boot_config_ "converters.laser.frequency" 10 in
  let sonar_enabled := get_bool boot_config_ "converters.sonar.enabled" true in
  let sonar_frequency := get_size_t boot_config_ "converters.sonar.frequency" 10 in
  let odom_enabled := get_bool boot_config_ "converters.odom.enabled" true in
  let odom_frequency := get_size_t boot_config_ "converters.odom.frequency" 10 in
  let bumper_enabled := get_bool boot_config_ "converters.bumper.enabled" true in
  let hand_enabled := get_bool boot_config_ "converters.touch_hand.enabled" true in
  let head_enabled := get_bool boot_config_ "converters.touch_head.enabled" true in
  let camera_ir_enabled := if has_stereo session then false else camera_ir_enabled in
  when info_enabled
    (let inp := InfoPublisher "info" in
     let inr := BasicRecorder in
     let inc := {| converter.name := "info"; frequency := S754_zero false |} in
     registerConverter3 inc inp inr env) >>
  when logs_enabled
    (let lc := {| converter.name := "log";
                  frequency := float_of_size_t logs_frequency |} in
     let lp := BasicPublisher "/rosout" in
     registerPublisher2 lc lp env) >>
  when diag_enabled
    (let dc := {| converter.name := "diag";
                  frequency := float_of_size_t diag_frequency |} in
     let dp := BasicPublisher "/diagnostics" in
     let dr := BasicRecorder in
     registerConverter3 dc dp dr env) >>
  when imu_torso_enabled
    (let imutp := BasicPublisher "imu/torso" in
     let imutr := BasicRecorder in
     let imutc := {| converter.name := "imu_torso";
                     frequency := float_of_size_t imu_torso_frequency |} in
     registerConverter3 imutc imutp imutr env) >>
  when (robot_is_PEPPER session)
    (when imu_base_enabled
       (let imubp := BasicPublisher "imu/base" in
        let imubr := BasicRecorder in
        let imubc := {| converter.name := "imu_base";
                        frequency := float_of_size_t imu_base_frequency |} in
        registerConverter3 imubc imubp imubr env)) >>
  when camera_front_enabled
    (let fcp := BasicPublisher "camera/front/image_raw" in
     let fcr := BasicRecorder in
     let fcc := {| converter.name := "front_camera";
                   frequency := float_of_size_t camera_front_fps |} in
     registerConverter3 fcc fcp fcr env) >>
  when camera_bottom_enabled
    (let bcp := BasicPublisher "camera/bottom/image_raw" in
     let bcr := BasicRecorder in
     let bcc := {| converter.name := "bottom_camera";
                   frequency := float_of_size_t camera_bottom_fps |} in
     registerConverter3 bcc bcp bcr env) >>
  when (robot_is_PEPPER session)
    (when camera_depth_enabled
       (let dcp := BasicPublisher "camera/depth/image_raw" in
        let dcr := BasicRecorder in
        let dcc := {| converter.name := "depth_camera";
                      frequency := float_of_size_t camera_depth_fps |} in
        registerConverter3 dcc dcp dcr env) >>
     when (has_stereo session && camera_stereo_enabled)
       (let scp := BasicPublisher "camera/stereo/image_raw" in
        let scr := BasicRecorder in
        let scc := {| converter.name := "stereo_camera";
                      frequency := float_of_size_t camera_stereo_fps |} in
        registerConverter3 scc scp scr env) >>
     when camera_ir_enabled
       (let icp := BasicPublisher "camera/ir/image_raw" in
        let icr := BasicRecorder in
        let icc := {| converter.name := "infrared_camera";
                      frequency := float_of_size_t camera_ir_fps |} in
        registerConverter3 icc icp icr env)) >>
  when joint_states_enabled
    (let jsp := BasicPublisher "/joint_states" in
     let jsr := BasicRecorder in
     let jsc := {| converter.name := "joint_states";
                   frequency := float_of_size_t joint_states_frequency |} in
     registerConverter3 jsc jsp jsr env) >>
  when (robot_is_PEPPER session)
    (when laser_enabled
       (let lp := BasicPublisher "laser" in
        let lr := BasicRecorder in
        let lc := {| converter.name := "laser";
                     frequency := float_of_size_t laser_frequency |} in
        registerConverter3 lc lp lr env)) >>
  when sonar_enabled
    (let sonar_topics :=
       if robot_is_PEPPER session then ["sonar/front"; "sonar/back"]
       else ["sonar/left"; "sonar/right"] in
     let usp := BasicPublisher (SonarPublisher_topic sonar_topics) in
     let usr := BasicRecorder in
     let usc := {| converter.name := "sonar";
                   frequency := float_of_size_t sonar_frequency |} in
     registerConverter3 usc usp usr env) >>
  when audio_enabled (registerDefaultEvent "audio") >>
  when bumper_enabled (registerDefaultEvent "bumper") >>
  when hand_enabled (registerDefaultEvent "hand_touch") >>
  when head_enabled (registerDefaultEvent "head_touch") >>
  when odom_enabled
    (let lp := BasicPublisher "odom" in
     let lr := BasicRecorder in
     let lc := {| converter.name := "odom";
                  frequency := float_of_size_t odom_frequency |} in
     registerConverter3 lc lp lr env).

End DefaultConverters.

(** The names that [registerDefaultConverter] can give to a converter and to
    an event, in the order of its blocks. *)
Definition default_converter_names : list string :=
  ["info"; "log"; "diag"; "imu_torso"; "imu_base"; "front_camera"; "bottom_camera";
   "depth_camera"; "stereo_camera"; "infrared_camera"; "joint_states"; "laser";
   "sonar"; "odom"].

Definition default_event_names : list string :=
  ["audio"; "bumper"; "hand_touch"; "head_touch"].

(** A converter to register with its publisher and, except for ["log"], its
    recorder; and the state that registering it leaves. *)
Inductive Registration : Type :=
| WithRecorder (conv : Converter) (pub : Publisher) (rec : Recorder)
| PublisherOnly (conv : Converter) (pub : Publisher).

Definition registered_converter (r : Registration) : Converter :=
  match r with
  | WithRecorder conv _ _ => conv
  | PublisherOnly conv _ => conv
  end.

Definition register (env : Env) (r : Registration) : M unit :=
  match r with
  | WithRecorder conv pub rec => registerConverter3 conv pub rec env
  | PublisherOnly conv pub => registerPublisher2 conv pub env
  end.

Definition registered (env : Env) (d : Driver) (r : Registration) : Driver :=
  state_after (register env r) d.

Definition event_registered (d : Driver) (key : string) : Driver :=
  state_after (registerDefaultEvent key) d.

(** The registrations and the events that [registerDefaultConverter] makes, in
    its order, as [registerDefaultConverter_eq] shows. [guarded b x] is the
    contribution of a block under [if (b)]. *)
Definition guarded {A : Type} (b : bool) (x : A) : list A :=
  if b then [x] else [].

Definition default_converter (boot_config_ : BootConfig) (name frequency_path : string)
  (default_frequency : Z) : Converter :=
  {| converter.name := name;
     frequency := float_of_size_t (get_size_t boot_config_ frequency_path default_frequency) |}.

Definition default_registrations (SonarPublisher_topic : list string -> string)
  (session : Session) (boot_config_ : BootConfig) : list Registration :=
  let enabled path := get_bool boot_config_ path true in
  let conv := default_converter boot_config_ in
  let PEPPER := robot_is_PEPPER session in
  guarded (enabled "converters.info.enabled")
    (WithRecorder {| converter.name := "info"; frequency := S754_zero false |}
       (InfoPublisher "info") BasicRecorder)
  ++ guarded (enabled "converters.logs.enabled")
       (PublisherOnly (conv "log" "converters.logs.frequency" 10)
          (BasicPublisher "/rosout"))
  ++ guarded (enabled "converters.diag.enabled")
       (WithRecorder (conv "diag" "converters.diag.frequency" 10)
          (BasicPublisher "/diagnostics") BasicRecorder)
  ++ guarded (enabled "converters.imu_torso.enabled")
       (WithRecorder (conv "imu_torso" "converters.imu_torso.frequency" 10)
          (BasicPublisher "imu/torso") BasicRecorder)
  ++ guarded (PEPPER && enabled "converters.imu_base.enabled")
       (WithRecorder (conv "imu_base" "converters.imu_base.frequency" 10)
          (BasicPublisher "imu/base") BasicRecorder)
  ++ guarded (enabled "converters.front_camera.enabled")
       (WithRecorder (conv "front_camera" "converters.front_camera.fps" 10)
          (BasicPublisher "camera/front/image_raw") BasicRecorder)
  ++ guarded (enabled "converters.bottom_camera.enabled")
       (WithRecorder (conv "bottom_camera" "converters.bottom_camera.fps" 10)
          (BasicPublisher "camera/bottom/image_raw") BasicRecorder)
  ++ guarded (PEPPER && enabled "converters.depth_camera.enabled")
       (WithRecorder (conv "depth_camera" "converters.depth_camera.fps" 10)
          (BasicPublisher "camera/depth/image_raw") BasicRecorder)
  ++ guarded (PEPPER && (has_stereo session && enabled "converters.stereo_camera.enabled"))
       (WithRecorder (conv "stereo_camera" "converters.stereo_camera.fps" 10)
          (BasicPublisher "camera/stereo/image_raw") BasicRecorder)
  ++ guarded (PEPPER && (if has_stereo session then false
                         else enabled "converters.ir_camera.enabled"))
       (WithRecorder (conv "infrared_camera" "converters.ir_camera.fps" 10)
          (BasicPublisher "camera/ir/image_raw") BasicRecorder)
  ++ guarded (enabled "converters.joint_states.enabled")
       (WithRecorder (conv "joint_states" "converters.joint_states.frequency" 50)
          (BasicPublisher "/joint_states") BasicRecorder)
  ++ guarded (PEPPER && enabled "converters.laser.enabled")
       (WithRecorder (conv "laser" "converters.laser.frequency" 10)
          (BasicPublisher "laser") BasicRecorder)
  ++ guarded (enabled "converters.sonar.enabled")
       (WithRecorder (conv "sonar" "converters.sonar.frequency" 10)
          (BasicPublisher
             (SonarPublisher_topic
                (if PEPPER then ["sonar/front"; "sonar/back"]
                 else ["sonar/left"; "sonar/right"])))
          BasicRecorder)
  ++ guarded (enabled "converters.odom.enabled")
       (WithRecorder (conv "odom" "converters.odom.frequency" 10)
          (BasicPublisher "odom") BasicRecorder).

Definition default_events (boot_config_ : BootConfig) : list string :=
  let enabled path := get_bool boot_config_ path true in
  guarded (enabled "converters.audio.enabled") "audio"
  ++ guarded (enabled "converters.bumper.enabled") "bumper"
  ++ guarded (enabled "converters.touch_hand.enabled") "hand_touch"
  ++ guarded (enabled "converters.touch_head.enabled") "head_touch".

(** A Pepper with an infrared depth camera, a boot configuration without any
    entry, so that every default applies, and the sonar publisher's topic. *)
Definition pepper_session : Session :=
  {| robot_is_PEPPER := true; has_stereo := false |}.

Definition empty_config : BootConfig :=
  {| config_bool := fun _ => None; config_int := fun _ => None |}.

Definition sonar_topic (topics : list string) : string := "sonar".

(** * Properties *)

(** ** Sequencing *)

Lemma prepend_nil {A : Type} (o : Outcome A) : prepend [] o = o.
Proof. by destruct o. Qed.

Lemma bind_Returned {A B : Type} (m : M A) (k : A -> M B) d a calls d1 :
  m d = Returned a calls d1 -> bind m k d = prepend calls (k a d1).
Proof. intros H. unfold bind. by rewrite H. Qed.

Lemma bind_Raised {A B : Type} (m : M A) (k : A -> M B) d calls d1 :
  m d = Raised calls d1 -> bind m k d = Raised calls d1.
Proof. intros H. unfold bind. by rewrite H. Qed.

Lemma bind_get {A : Type} (k : Driver -> M A) d : bind get k d = k d d.
Proof. unfold bind, get. apply prepend_nil. Qed.

Ltac run_step := erewrite bind_Returned by reflexivity; rewrite ?prepend_nil.


(** ** The tick *)

Lemma rosIteration_dispatch pf env d top conv :
  priority_queue.top (conv_queue_ d) = Some top ->
  converters_ d !! conv_index_ top = Some conv ->
  rosIteration pf env d =
  Returned tt (tick_calls env d top conv)
    (set_conv_queue_ (tick_queue pf top conv (conv_queue_ d)) d).
Proof.
  intros Htop Hconv.
  unfold rosIteration, tick_calls, tick_queue, bind, get, when.
  rewrite Htop, Hconv.
  destruct (0 <? Z.of_nat (length (tick_actions env conv d)));
    destruct (0 <? schedule_ top - now env);
    destruct (float_neq_zero (frequency conv));
    destruct d as [pe re le kl g bd cs q pm rm em ss]; destruct pe;
    reflexivity.
Qed.

Lemma rosIteration_idle pf env d :
  conv_queue_ d = [] ->
  rosIteration pf env d =
  Returned tt (SleepFor 1000000000 :: if publish_enabled_ d then [SpinSome] else []) d.
Proof.
  intros Hq. unfold rosIteration, bind, get, when. rewrite Hq. simpl.
  destruct (publish_enabled_ d); reflexivity.
Qed.

Lemma rosIteration_out_of_bounds pf env d top :
  priority_queue.top (conv_queue_ d) = Some top ->
  converters_ d !! conv_index_ top = None ->
  rosIteration pf env d = Undefined.
Proof.
  intros Htop Hconv. unfold rosIteration, bind, get. rewrite Htop, Hconv.
  reflexivity.
Qed.

Lemma PUBLISH_in_actions (b1 b2 b3 : bool) :
  PUBLISH ∈ ((if b1 then [PUBLISH] else []) ++ (if b2 then [RECORD] else [])
             ++ (if b3 then [LOG] else []))%list <-> b1 = true.
Proof.
  destruct b1, b2, b3; simpl; split; intros H; try reflexivity; try discriminate;
    try (apply elem_of_cons; by left);
    repeat (apply elem_of_cons in H as [H|H]; [discriminate|]);
    by apply elem_of_nil in H.
Qed.

Lemma PUBLISH_in_tick_actions env conv d :
  PUBLISH ∈ tick_actions env conv d <->
  publish_enabled_ d = true /\
  exists pub, pub_map_ d !! converter.name conv = Some pub
              /\ publisher.isSubscribed pub = true.
Proof.
  unfold tick_actions. rewrite PUBLISH_in_actions.
  destruct (publish_enabled_ d); simpl.
  - destruct (pub_map_ d !! converter.name conv) as [pub|].
    + split; [intros Hsub; eauto | intros [_ (pub' & Heq & Hsub)]; congruence].
    + split; [discriminate | intros [_ (pub' & Heq & _)]; discriminate].
  - split; [discriminate | intros [Hf _]; discriminate].
Qed.

Lemma CallAll_in_tick_calls env d top conv actions :
  CallAll (conv_index_ top) actions ∈ tick_calls env d top conv <->
  actions = tick_actions env conv d /\ actions <> [].
Proof.
  unfold tick_calls. rewrite !elem_of_app. split.
  - intros [H|[H|H]].
    + destruct (tick_actions env conv d) as [|a l] eqn:Hact; simpl in H.
      * by apply elem_of_nil in H.
      * apply list_elem_of_singleton in H. injection H as ->. by split.
    + destruct (0 <? schedule_ top - now env).
      * apply list_elem_of_singleton in H. discriminate.
      * by apply elem_of_nil in H.
    + destruct (publish_enabled_ d).
      * apply list_elem_of_singleton in H. discriminate.
      * by apply elem_of_nil in H.
  - intros [-> Hne]. left.
    destruct (tick_actions env conv d) as [|a l]; [done|].
    simpl. apply list_elem_of_singleton. reflexivity.
Qed.

(** C2. A tick that dispatches a converter passes PUBLISH to [callAll] if and
    only if [publish_enabled_] is set, the converter's name is a key of
    [pub_map_], and the publisher found there answers [isSubscribed()] with
    true. The statement ranges over every driver state, hence over all
    combinations of the three conditions. *)
Theorem publish_selected_iff pf env d top conv :
  priority_queue.top (conv_queue_ d) = Some top ->
  converters_ d !! conv_index_ top = Some conv ->
  exists calls d',
    rosIteration pf env d = Returned tt calls d' /\
    ((exists actions, CallAll (conv_index_ top) actions ∈ calls /\ PUBLISH ∈ actions)
     <->
     (publish_enabled_ d = true /\
      exists pub, pub_map_ d !! converter.name conv = Some pub
                  /\ publisher.isSubscribed pub = true)).
Proof.
  intros Htop Hconv.
  rewrite (rosIteration_dispatch pf env d top conv Htop Hconv).
  eexists _, _. split; [reflexivity|].
  rewrite <- PUBLISH_in_tick_actions. split.
  - intros (actions & Hcall & Hpub).
    apply CallAll_in_tick_calls in Hcall as [-> _]. exact Hpub.
  - intros Hpub. exists (tick_actions env conv d). split; [|exact Hpub].
    apply CallAll_in_tick_calls. split; [reflexivity|].
    intros Hnil. rewrite Hnil in Hpub. by apply elem_of_nil in Hpub.
Qed.

Lemma publish_selected_iff_witness :
  priority_queue.top (conv_queue_ driver_publishing)
    = Some {| schedule_ := 0; conv_index_ := 0 |} /\
  converters_ driver_publishing !! 0%nat = Some conv_camera /\
  exists calls d',
    rosIteration sample_platform (quiet_env 3) driver_publishing
      = Returned tt calls d' /\
    ((exists actions, CallAll 0 actions ∈ calls /\ PUBLISH ∈ actions)
     <->
     (publish_enabled_ driver_publishing = true /\
      exists pub, pub_map_ driver_publishing !! "camera" = Some pub
                  /\ publisher.isSubscribed pub = true)).
Proof.
  split; [vm_compute; reflexivity|].
  split; [vm_compute; reflexivity|].
  apply (publish_selected_iff sample_platform (quiet_env 3) driver_publishing
           {| schedule_ := 0; conv_index_ := 0 |} conv_camera);
    vm_compute; reflexivity.
Defined.

(** ** Dump while buffering is off *)

(** C5. A dump called while [log_enabled_] is false, through [minidump] or
    through [minidumpConverters], returns the "Log is not enabled" message,
    sends nothing out and leaves every member of the driver as it was. *)
Theorem dump_needs_buffering pf pfx names env d :
  log_enabled_ d = false ->
  minidump pf pfx env d = Returned err_log_not_enabled [] d /\
  minidumpConverters pf pfx names env d = Returned err_log_not_enabled [] d.
Proof.
  intros Hlog. unfold minidump, minidumpConverters, bind, get.
  rewrite Hlog. simpl. split; reflexivity.
Qed.

Lemma dump_needs_buffering_witness :
  log_enabled_ (make_Driver sample_platform) = false /\
  minidump sample_platform "dump" (quiet_env 1) (make_Driver sample_platform)
    = Returned err_log_not_enabled [] (make_Driver sample_platform) /\
  minidumpConverters sample_platform "dump" ["camera"] (quiet_env 1)
      (make_Driver sample_platform)
    = Returned err_log_not_enabled [] (make_Driver sample_platform).
Proof.
  split; [reflexivity|].
  apply (dump_needs_buffering sample_platform "dump" ["camera"] (quiet_env 1)
           (make_Driver sample_platform)).
  reflexivity.
Defined.

(** ** Buffer duration *)

(** C10. [setBufferDuration(d)] followed by [getBufferDuration()] returns [d];
    after the set, every recorder of [rec_map_] and every event of
    [event_map_] carries [d] as its buffer duration, under the same keys as
    before; [getBufferDuration] returns from any state without changing it. *)
Theorem buffer_duration_round_trip duration d :
  exists d',
    setBufferDuration duration d = Returned tt [] d' /\
    getBufferDuration d' = Returned duration [] d' /\
    rec_map_ d' = recorder.setBufferDuration duration <$> rec_map_ d /\
    event_map_ d' = event.setBufferDuration duration <$> event_map_ d /\
    (forall key rec, rec_map_ d' !! key = Some rec ->
                     recorder.buffer_duration rec = duration) /\
    (forall key ev, event_map_ d' !! key = Some ev ->
                    event.buffer_duration ev = duration) /\
    dom (rec_map_ d') = dom (rec_map_ d) /\
    dom (event_map_ d') = dom (event_map_ d) /\
    (forall d0, getBufferDuration d0 = Returned (buffer_duration_ d0) [] d0).
Proof.
  eexists. split; [reflexivity|]. simpl.
  split; [reflexivity|].
  split; [reflexivity|].
  split; [reflexivity|].
  split.
  { intros key rec. rewrite lookup_fmap.
    destruct (rec_map_ d !! key); simpl; [|discriminate].
    intros [= <-]. reflexivity. }
  split.
  { intros key ev. rewrite lookup_fmap.
    destruct (event_map_ d !! key); simpl; [|discriminate].
    intros [= <-]. reflexivity. }
  split; [apply dom_fmap_L|].
  split; [apply dom_fmap_L|].
  intros d0. reflexivity.
Qed.

(** ** The queue *)

Lemma push_Permutation x q : priority_queue.push x q ≡ₚ x :: q.
Proof.
  induction q as [|y q IH]; simpl; [reflexivity|].
  destruct (schedule_ x <? schedule_ y); [reflexivity|].
  rewrite IH. apply Permutation_swap.
Qed.

Lemma top_pop q e : priority_queue.top q = Some e -> q = e :: priority_queue.pop q.
Proof. destruct q as [|y q]; simpl; [discriminate|]. by intros [= ->]. Qed.


(** The queue a tick leaves, up to order. *)
Lemma tick_queue_Permutation pf top conv q :
  priority_queue.top q = Some top ->
  tick_queue pf top conv q ≡ₚ
  (if float_neq_zero (frequency conv)
   then [{| schedule_ := schedule_ top + period pf (frequency conv);
            conv_index_ := conv_index_ top |}]
   else []) ++ priority_queue.pop q.
Proof.
  intros Htop. unfold tick_queue.
  destruct (float_neq_zero (frequency conv)); simpl; [|reflexivity].
  apply push_Permutation.
Qed.

Lemma tick_queue_indices pf top conv q :
  priority_queue.top q = Some top ->
  conv_index_ <$> tick_queue pf top conv q ≡ₚ
  (if float_neq_zero (frequency conv) then conv_index_ <$> q
   else conv_index_ <$> priority_queue.pop q).
Proof.
  intros Htop. rewrite (tick_queue_Permutation pf top conv q Htop).
  destruct (float_neq_zero (frequency conv)); simpl; [|reflexivity].
  rewrite (top_pop q top Htop) at 2. reflexivity.
Qed.

Lemma in_bounds_lookup d top :
  queue_in_bounds d -> priority_queue.top (conv_queue_ d) = Some top ->
  exists conv, converters_ d !! conv_index_ top = Some conv.
Proof.
  intros Hb Htop. apply top_pop in Htop. unfold queue_in_bounds in Hb.
  rewrite Htop in Hb. apply Forall_cons in Hb as [Hlt _].
  apply lookup_lt_is_Some_2 in Hlt. exact Hlt.
Qed.

Lemma conv_queue_set_conv_queue q d : conv_queue_ (set_conv_queue_ q d) = q.
Proof. by destruct d. Qed.

Lemma converters_set_conv_queue q d : converters_ (set_conv_queue_ q d) = converters_ d.
Proof. by destruct d. Qed.

(** The state a dispatching tick leaves satisfies the queue invariant. *)
Lemma tick_state_queue_ok pf d top conv :
  queue_ok d ->
  priority_queue.top (conv_queue_ d) = Some top ->
  queue_ok (set_conv_queue_ (tick_queue pf top conv (conv_queue_ d)) d).
Proof.
  intros [Hb Hnd] Htop.
  assert (Hq : conv_queue_ d = top :: priority_queue.pop (conv_queue_ d))
    by by apply top_pop.
  unfold queue_in_bounds in Hb. rewrite Hq in Hb, Hnd.
  apply Forall_cons in Hb as [Hlt Hb]. simpl in Hnd.
  unfold queue_ok, queue_in_bounds.
  rewrite conv_queue_set_conv_queue, converters_set_conv_queue. split.
  - rewrite (tick_queue_Permutation pf top conv _ Htop).
    apply Forall_app. split; [|exact Hb].
    destruct (float_neq_zero (frequency conv)); [|constructor].
    apply Forall_singleton. exact Hlt.
  - rewrite (tick_queue_indices pf top conv _ Htop).
    destruct (float_neq_zero (frequency conv)).
    + rewrite Hq. exact Hnd.
    + by apply NoDup_cons in Hnd as [_ Hnd].
Qed.

(** A tick keeps the queue invariant, and returns. *)
Lemma rosIteration_queue_ok pf env d :
  queue_ok d ->
  exists calls d',
    rosIteration pf env d = Returned tt calls d' /\
    queue_ok d' /\ converters_ d' = converters_ d.
Proof.
  intros Hok.
  destruct (priority_queue.top (conv_queue_ d)) as [top|] eqn:Htop.
  - destruct (in_bounds_lookup d top (proj1 Hok) Htop) as [conv Hconv].
    rewrite (rosIteration_dispatch pf env d top conv Htop Hconv).
    eexists _, _. split; [reflexivity|].
    split; [by apply tick_state_queue_ok | apply converters_set_conv_queue].
  - destruct (conv_queue_ d) as [|y q] eqn:Hq; [|discriminate].
    rewrite (rosIteration_idle pf env d Hq).
    eexists _, _. split; [reflexivity|]. split; [exact Hok|reflexivity].
Qed.

Lemma elem_of_push e x q :
  e ∈ priority_queue.push x q <-> e = x \/ e ∈ q.
Proof. rewrite push_Permutation. apply elem_of_cons. Qed.


Lemma registerConverter_eq conv env d :
  registerConverter conv env d =
  Returned tt []
    (set_conv_queue_
       (priority_queue.push
          {| schedule_ := now env; conv_index_ := length (converters_ d) |}
          (conv_queue_ d))
       (set_converters_ (converters_ d ++ [conv]) d)).
Proof. destruct d. reflexivity. Qed.

(** Registering a converter keeps the queue invariant. *)
Lemma registerConverter_queue_ok conv env d :
  queue_ok d ->
  exists d',
    registerConverter conv env d = Returned tt [] d' /\
    queue_ok d' /\ converters_ d' = converters_ d ++ [conv] /\
    conv_queue_ d' ≡ₚ
      {| schedule_ := now env; conv_index_ := length (converters_ d) |} :: conv_queue_ d.
Proof.
  intros [Hb Hnd]. rewrite registerConverter_eq. eexists. split; [reflexivity|].
  destruct d as [pe re le kl g bd cs q pm rm em ss]; simpl in *.
  unfold queue_ok, queue_in_bounds; simpl.
  split; [|split; [reflexivity|apply push_Permutation]].
  rewrite push_Permutation. split.
  - apply Forall_cons. rewrite length_app. simpl. split; [lia|].
    unfold queue_in_bounds in Hb. simpl in Hb.
    eapply Forall_impl; [exact Hb|]. simpl. intros e He. lia.
  - simpl. apply NoDup_cons. split; [|exact Hnd].
    intros Hin. apply list_elem_of_fmap in Hin as (e & Heq & He).
    unfold queue_in_bounds in Hb. simpl in Hb.
    rewrite Forall_forall in Hb. apply Hb in He. lia.
Qed.

(** ** Runs *)

Lemma run_cons pf o ops d :
  run pf (o :: ops) d =
  match step pf o d with
  | Returned _ calls1 d1 => prepend calls1 (run pf ops d1)
  | Raised calls1 d1 => Raised calls1 d1
  | Undefined => Undefined
  end.
Proof. reflexivity. Qed.

Lemma step_queue_ok pf o d :
  queue_ok d ->
  exists calls d',
    step pf o d = Returned tt calls d' /\ queue_ok d' /\
    exists l, converters_ d' = converters_ d ++ l.
Proof.
  intros Hok. destruct o as [env|conv env]; simpl.
  - destruct (rosIteration_queue_ok pf env d Hok) as (calls & d' & Heq & Hok' & Hcs).
    exists calls, d'. split; [exact Heq|]. split; [exact Hok'|].
    exists []. by rewrite app_nil_r.
  - destruct (registerConverter_queue_ok conv env d Hok) as (d' & Heq & Hok' & Hcs & _).
    exists [], d'. split; [exact Heq|]. split; [exact Hok'|]. by exists [conv].
Qed.

(** From a state with the queue invariant, every run of ticks and
    registrations returns, in a state with the queue invariant. *)
Lemma run_queue_ok pf ops :
  forall d, queue_ok d ->
  exists calls d',
    run pf ops d = Returned tt calls d' /\ queue_ok d' /\
    exists l, converters_ d' = converters_ d ++ l.
Proof.
  induction ops as [|o ops IH]; intros d Hok.
  - exists [], d. split; [reflexivity|]. split; [exact Hok|].
    exists []. by rewrite app_nil_r.
  - destruct (step_queue_ok pf o d Hok) as (calls1 & d1 & Heq1 & Hok1 & l1 & Hcs1).
    destruct (IH d1 Hok1) as (calls2 & d2 & Heq2 & Hok2 & l2 & Hcs2).
    rewrite run_cons, Heq1, Heq2.
    eexists _, _. split; [reflexivity|]. split; [exact Hok2|].
    exists (l1 ++ l2). rewrite Hcs2, Hcs1. by rewrite app_assoc.
Qed.









(** The stamps of the 10 Hz converter over the ten ticks. *)
Example stamps_of_camera :
  stamps_of 0 (dispatches sample_platform ten_ticks driver_three)
  = [0; 100000001; 200000002; 300000003; 400000004; 500000005; 600000006;
     700000007].
Proof. vm_compute. reflexivity. Qed.


Lemma entries_of_cons_other i e l :
  conv_index_ e <> i -> entries_of i (e :: l) = entries_of i l.
Proof. intros He. unfold entries_of. by rewrite filter_cons_False. Qed.

Lemma entries_of_tick_queue_other pf i top conv q :
  priority_queue.top q = Some top -> conv_index_ top <> i ->
  entries_of i (tick_queue pf top conv q) ≡ₚ entries_of i (priority_queue.pop q).
Proof.
  intros Htop Hi. unfold entries_of.
  rewrite (tick_queue_Permutation pf top conv q Htop), filter_app.
  destruct (float_neq_zero (frequency conv)); [|reflexivity].
  by rewrite filter_cons_False.
Qed.






(** ** Dumps *)

Lemma set_recorder_same d : set_recorder_ (recorder_ d) d = d.
Proof. by destruct d. Qed.

Lemma set_recorder_twice g1 g2 d :
  set_recorder_ g2 (set_recorder_ g1 d) = set_recorder_ g2 d.
Proof. by destruct d. Qed.

Lemma recorder_set_recorder g d : recorder_ (set_recorder_ g d) = g.
Proof. by destruct d. Qed.

Lemma flushed_from_refl g : flushed_from g g.
Proof. split; [reflexivity|]. intros c0 H. by exists c0. Qed.

Lemma flushed_from_trans g0 g1 g2 :
  flushed_from g0 g1 -> flushed_from g1 g2 -> flushed_from g0 g2.
Proof.
  intros [Hc1 Ho1] [Hc2 Ho2]. split; [congruence|].
  intros c0 H0. destruct (Ho1 c0 H0) as (c1 & H1 & Hp1).
  destruct (Ho2 c1 H1) as (c2 & H2 & Hp2). exists c2. split; [done|congruence].
Qed.

Lemma flushed_from_flush_into s time g : flushed_from g (flush_into s time g).
Proof.
  unfold flushed_from, flush_into. destruct (open_bag g) as [c|] eqn:Hc; simpl.
  - split; [reflexivity|]. intros c0 [= <-]. eexists. split; reflexivity.
  - rewrite Hc. split; [reflexivity|]. discriminate.
Qed.

Lemma when_stopRecording d :
  when (record_enabled_ d) (stopRecording >> ret tt) d = Returned tt [] (before_dump d).
Proof.
  unfold before_dump, state_after. destruct d as [pe re le kl g bd cs q pm rm em ss].
  destruct re; [|reflexivity]. destruct g as [[c|] cl]; reflexivity.
Qed.

(** A flush loop changes nothing but [recorder_] and sends no call out; it
    returns unless the [writeDump] of one of its sinks fails. *)
Lemma flush_loop_cases env time (mk : string -> SinkRef) keys :
  forall d,
    (exists g, for_each keys (fun key => writeDump env (mk key) time) d
               = Returned tt [] (set_recorder_ g d)
               /\ flushed_from (recorder_ d) g)
    \/ (exists g, for_each keys (fun key => writeDump env (mk key) time) d
                  = Raised [] (set_recorder_ g d)
                  /\ exists s, writeDump_throws env s = true).
Proof.
  induction keys as [|key keys IH]; intros d.
  - left. exists (recorder_ d). rewrite set_recorder_same.
    split; [reflexivity|apply flushed_from_refl].
  - cbn [for_each]. unfold writeDump at 1 3.
    destruct (writeDump_throws env (mk key)) eqn:Hthrows.
    + right. exists (recorder_ d). rewrite set_recorder_same.
      split; [reflexivity|by exists (mk key)].
    + run_step.
      destruct (IH (set_recorder_ (flush_into (mk key) time (recorder_ d)) d))
        as [(g & Hg & Hfl)|(g & Hg & Hs)]; rewrite Hg, set_recorder_twice;
        [left|right]; exists g; (split; [reflexivity|]); [|exact Hs].
      rewrite recorder_set_recorder in Hfl.
      eapply flushed_from_trans; [apply flushed_from_flush_into|exact Hfl].
Qed.

Lemma flush_block_cases env time (mk : string -> SinkRef)
  (keys_of : Driver -> list string) d :
  (exists g, (do d0 <- get;
              for_each (keys_of d0) (fun key => writeDump env (mk key) time)) d
             = Returned tt [] (set_recorder_ g d)
             /\ flushed_from (recorder_ d) g)
  \/ (exists g, (do d0 <- get;
                 for_each (keys_of d0) (fun key => writeDump env (mk key) time)) d
                = Raised [] (set_recorder_ g d)
                /\ exists s, writeDump_throws env s = true).
Proof. rewrite bind_get. apply flush_loop_cases. Qed.

Lemma startRecord_open pfx g0 :
  exists c0, open_bag (startRecord pfx g0) = Some c0 /\
             closed_bags (startRecord pfx g0) = closed_bags g0 /\
             (open_bag g0 = None -> prefix c0 = pfx).
Proof.
  unfold startRecord. destruct (open_bag g0) as [c|] eqn:Hc.
  - exists c. rewrite Hc. split; [reflexivity|]. split; [reflexivity|discriminate].
  - eexists. simpl. split; [reflexivity|]. split; reflexivity.
Qed.

Lemma stopRecord_open ip g c :
  open_bag g = Some c ->
  stopRecord ip g = (container_id c, {| open_bag := None; closed_bags := c :: closed_bags g |}).
Proof. intros H. unfold stopRecord. by rewrite H. Qed.

(** What [stopRecord] makes of a recorder in which a dump opened a container
    and flushed sinks. *)
Lemma stopRecord_after_flush ip pfx g0 g :
  flushed_from (startRecord pfx g0) g ->
  exists c,
    stopRecord ip g
    = (container_id c, {| open_bag := None; closed_bags := c :: closed_bags g0 |})
    /\ (open_bag g0 = None -> prefix c = pfx).
Proof.
  intros [Hcl Hop].
  destruct (startRecord_open pfx g0) as (c0 & Hc0 & Hcl0 & Hp0).
  destruct (Hop c0 Hc0) as (c & Hc & Hp).
  exists c. rewrite (stopRecord_open ip g c Hc), Hcl, Hcl0.
  split; [reflexivity|]. intros Hn. rewrite Hp. by apply Hp0.
Qed.

Ltac flush_block env time mk keys_of :=
  match goal with
  | |- context [bind (bind get _) _ ?D] =>
      let H := fresh "Hflush" in
      let Hg := fresh "Hfrom" in
      let g := fresh "g" in
      destruct (flush_block_cases env time mk keys_of D) as [(g & H & Hg)|(g & H & Hg)];
      cbv beta in H;
      [rewrite (bind_Returned _ _ _ _ _ _ H), ?prepend_nil
      |rewrite (bind_Raised _ _ _ _ _ H)]
  end.

(** A dump over the whole set, past its two checks: either the [writeDump] of
    some sink fails and the exception leaves [minidump] while the driver is
    in its dumping state, or the container is finalized, its identity returned
    and buffering restored. *)
Lemma minidump_cases pf pfx env d :
  log_enabled_ d = true ->
  files_size env <= folderMaximumSize pf ->
  (exists g, minidump pf pfx env d = Raised [] (dumping_state g d)
             /\ exists s, writeDump_throws env s = true)
  \/ (exists c,
        minidump pf pfx env d
        = Returned (container_id c) []
            (restored_state
               {| open_bag := None;
                  closed_bags := c :: closed_bags (recorder_ (before_dump d)) |} d)
        /\ (open_bag (recorder_ (before_dump d)) = None -> prefix c = pfx)).
Proof.
  intros Hlog Hsize.
  unfold minidump. rewrite bind_get, Hlog. cbn [negb].
  replace (folderMaximumSize pf <? files_size env) with false
    by (symmetry; apply Z.ltb_ge; lia).
  rewrite (bind_Returned _ _ _ _ _ _ (when_stopRecording d)), prepend_nil.
  do 3 run_step.
  unfold dumping_state, restored_state.
  destruct (before_dump d) as [pe re le kl g0 bd cs q pm rm em ss].
  cbn [set_log_enabled_ set_event_map_ set_recorder_ event_map_ recorder_
       publish_enabled_ record_enabled_ log_enabled_ keep_looping buffer_duration_
       converters_ conv_queue_ pub_map_ rec_map_ subscribers_].
  flush_block env (now env) EventSink (fun d0 : Driver => map_keys (event_map_ d0)).
  2:{ left. exists g. split; [reflexivity|exact Hfrom]. }
  flush_block env (now env) RecSink (fun d0 : Driver => map_keys (rec_map_ d0)).
  2:{ left. exists g1. split; [reflexivity|exact Hfrom0]. }
  right. do 2 run_step. rewrite bind_get.
  cbn [recorder_ set_recorder_] in Hfrom, Hfrom0 |- *.
  destruct (stopRecord_after_flush (ros_ip env) pfx g0 g1) as (c & Hstop & Hpfx).
  { eapply flushed_from_trans; [exact Hfrom|exact Hfrom0]. }
  cbn [set_log_enabled_ set_event_map_ set_recorder_ event_map_ recorder_
       publish_enabled_ record_enabled_ log_enabled_ keep_looping buffer_duration_
       converters_ conv_queue_ pub_map_ rec_map_ subscribers_].
  rewrite Hstop. exists c. split; [reflexivity|exact Hpfx].
Qed.

(** One matching name of [minidumpConverters]: the container is opened if it
    is not yet, then the sink is flushed. *)
Lemma flush_one_cases env pfx time s (is_started : bool) d :
  (writeDump_throws env s = false /\
   (when (negb is_started)
      (modify (fun d => set_recorder_ (startRecord pfx (recorder_ d)) d)) >>
    writeDump env s time >> ret true) d
   = Returned true []
       (set_recorder_
          (flush_into s time
             (if is_started then recorder_ d else startRecord pfx (recorder_ d))) d))
  \/ (writeDump_throws env s = true /\
      (when (negb is_started)
         (modify (fun d => set_recorder_ (startRecord pfx (recorder_ d)) d)) >>
       writeDump env s time >> ret true) d
      = Raised []
          (set_recorder_
             (if is_started then recorder_ d else startRecord pfx (recorder_ d)) d)).
Proof.
  destruct (writeDump_throws env s) eqn:Hthrows; [right|left];
    (split; [reflexivity|]);
    destruct is_started; unfold when, bind, modify, writeDump, negb;
    rewrite ?Hthrows; destruct d; cbn; rewrite ?Hthrows; reflexivity.
Qed.

Lemma has_sink_rec d name rec :
  rec_map_ d !! name = Some rec -> has_sink d name = true.
Proof. intros H. unfold has_sink. by rewrite H. Qed.

Lemma has_sink_event d name ev :
  event_map_ d !! name = Some ev -> has_sink d name = true.
Proof. intros H. unfold has_sink. rewrite H. by destruct (rec_map_ d !! name). Qed.

Lemma has_sink_none d name :
  rec_map_ d !! name = None -> event_map_ d !! name = None -> has_sink d name = false.
Proof. intros H1 H2. unfold has_sink. by rewrite H1, H2. Qed.

(** The loop of [minidumpConverters]: it opens a container at the first name
    that has a sink, and not at all when no name has one. *)
Lemma dump_names_cases env pfx time names :
  forall (is_started : bool) d,
    (exists g,
        dump_names env pfx time names is_started d
        = Returned (is_started || existsb (has_sink d) names) [] (set_recorder_ g d)
        /\ (if is_started then flushed_from (recorder_ d) g
            else if existsb (has_sink d) names
                 then flushed_from (startRecord pfx (recorder_ d)) g
                 else g = recorder_ d))
    \/ (exists g,
           dump_names env pfx time names is_started d = Raised [] (set_recorder_ g d)
           /\ exists s, writeDump_throws env s = true).
Proof.
  induction names as [|name names IH]; intros is_started d.
  - left. exists (recorder_ d). rewrite set_recorder_same, orb_false_r.
    split; [reflexivity|]. destruct is_started; [apply flushed_from_refl|reflexivity].
  - cbn [dump_names existsb]. rewrite bind_get.
    assert (Hstep : forall s,
      has_sink d name = true ->
      (exists g,
          (do is_started' <-
             (when (negb is_started)
                (modify (fun d => set_recorder_ (startRecord pfx (recorder_ d)) d)) >>
              writeDump env s time >> ret true);
           dump_names env pfx time names is_started') d
          = Returned (is_started || (has_sink d name || existsb (has_sink d) names)) []
              (set_recorder_ g d)
          /\ (if is_started then flushed_from (recorder_ d) g
              else if has_sink d name || existsb (has_sink d) names
                   then flushed_from (startRecord pfx (recorder_ d)) g
                   else g = recorder_ d))
      \/ (exists g,
             (do is_started' <-
                (when (negb is_started)
                   (modify (fun d => set_recorder_ (startRecord pfx (recorder_ d)) d)) >>
                 writeDump env s time >> ret true);
              dump_names env pfx time names is_started') d
             = Raised [] (set_recorder_ g d)
             /\ exists s, writeDump_throws env s = true)).
    { intros s Hsink. rewrite Hsink, orb_true_l, orb_true_r.
      destruct (flush_one_cases env pfx time s is_started d) as [[Hth H1]|[Hth H1]].
      - rewrite (bind_Returned _ _ _ _ _ _ H1), prepend_nil.
        destruct (IH true (set_recorder_
                   (flush_into s time
                      (if is_started then recorder_ d else startRecord pfx (recorder_ d))) d))
          as [(g & Hg & Hfl)|(g & Hg & Hs)]; rewrite Hg, set_recorder_twice.
        + left. exists g. split; [reflexivity|].
          rewrite recorder_set_recorder in Hfl.
          destruct is_started;
            (eapply flushed_from_trans; [apply flushed_from_flush_into|exact Hfl]).
        + right. exists g. split; [reflexivity|exact Hs].
      - rewrite (bind_Raised _ _ _ _ _ H1). right. eexists. split; [reflexivity|].
        by exists s. }
    destruct (rec_map_ d !! name) as [rec|] eqn:Hrec.
    { apply Hstep. by eapply has_sink_rec. }
    destruct (event_map_ d !! name) as [ev|] eqn:Hev.
    { apply Hstep. by eapply has_sink_event. }
    rewrite (has_sink_none d name Hrec Hev), orb_false_l.
    run_step. apply IH.
Qed.

Lemma fold_alter_lookup_None {V : Type} (f : V -> V) (l : list Converter)
  (m : gmap string V) k :
  fold_left (fun m (conv : Converter) => alter f (converter.name conv) m) l m !! k = None
  <-> m !! k = None.
Proof.
  revert m. induction l as [|c l IH]; intros m; simpl; [reflexivity|].
  rewrite IH. apply lookup_alter_None.
Qed.

Lemma before_dump_rec_None d k :
  rec_map_ (before_dump d) !! k = None <-> rec_map_ d !! k = None.
Proof.
  unfold before_dump, state_after.
  destruct d as [pe re le kl g bd cs q pm rm em ss]. destruct re; [|reflexivity].
  destruct g as [[c|] cl]; cbn; apply fold_alter_lookup_None.
Qed.

Lemma before_dump_event_None d k :
  event_map_ (before_dump d) !! k = None <-> event_map_ d !! k = None.
Proof.
  unfold before_dump, state_after.
  destruct d as [pe re le kl g bd cs q pm rm em ss]. destruct re; [|reflexivity].
  destruct g as [[c|] cl]; cbn; rewrite lookup_fmap; apply fmap_None.
Qed.

Lemma has_sink_ext d d' :
  (forall k, rec_map_ d' !! k = None <-> rec_map_ d !! k = None) ->
  (forall k, event_map_ d' !! k = None <-> event_map_ d !! k = None) ->
  forall name, has_sink d' name = has_sink d name.
Proof.
  intros Hrec Hev name. unfold has_sink.
  specialize (Hrec name). specialize (Hev name).
  destruct (rec_map_ d' !! name), (rec_map_ d !! name),
    (event_map_ d' !! name), (event_map_ d !! name); try reflexivity;
    repeat match goal with
           | H : _ <-> _ |- _ => destruct H
           end; exfalso;
    repeat match goal with
           | H : None = None -> Some _ = None |- _ => specialize (H eq_refl)
           end; discriminate.
Qed.

(** The names that have a sink while the dump flushes are those that had one
    when it was called. *)
Lemma has_sink_while_dumping d names :
  existsb
    (has_sink
       (set_event_map_ (isDumping true <$> event_map_ (before_dump d))
          (set_log_enabled_ false (before_dump d)))) names
  = existsb (has_sink d) names.
Proof.
  induction names as [|name names IH]; [reflexivity|]. simpl. f_equal; [|exact IH].
  apply has_sink_ext; intros k.
  - rewrite <- (before_dump_rec_None d k). by destruct (before_dump d).
  - rewrite <- (before_dump_event_None d k).
    destruct (before_dump d); cbn. rewrite lookup_fmap. apply fmap_None.
Qed.

(** A dump over selected names, past its two checks. *)
Lemma minidumpConverters_cases pf pfx names env d :
  log_enabled_ d = true ->
  files_size env <= folderMaximumSize pf ->
  (exists g, minidumpConverters pf pfx names env d = Raised [] (dumping_state g d)
             /\ exists s, writeDump_throws env s = true)
  \/ (existsb (has_sink d) names = true /\
      exists c,
        minidumpConverters pf pfx names env d
        = Returned (container_id c) []
            (restored_state
               {| open_bag := None;
                  closed_bags := c :: closed_bags (recorder_ (before_dump d)) |} d)
        /\ (open_bag (recorder_ (before_dump d)) = None -> prefix c = pfx))
  \/ (existsb (has_sink d) names = false /\
      minidumpConverters pf pfx names env d
      = Returned err_no_topic [] (restored_state (recorder_ (before_dump d)) d)).
Proof.
  intros Hlog Hsize.
  unfold minidumpConverters. rewrite bind_get, Hlog. cbn [negb].
  replace (folderMaximumSize pf <? files_size env) with false
    by (symmetry; apply Z.ltb_ge; lia).
  rewrite (bind_Returned _ _ _ _ _ _ (when_stopRecording d)), prepend_nil.
  do 2 run_step.
  unfold dumping_state, restored_state.
  match goal with
  | |- context [bind (dump_names _ _ _ _ _) _ ?D] =>
      destruct (dump_names_cases env pfx (now env) names false D)
        as [(g & Hg & Hfrom)|(g & Hg & Hs)];
      assert (Hex : existsb (has_sink D) names = existsb (has_sink d) names)
        by apply has_sink_while_dumping
  end.
  2:{ left. rewrite (bind_Raised _ _ _ _ _ Hg). exists g.
      split; [|exact Hs]. by destruct (before_dump d). }
  right. cbn [orb] in Hg. rewrite Hex in Hg, Hfrom.
  rewrite (bind_Returned _ _ _ _ _ _ Hg), prepend_nil.
  do 2 run_step.
  destruct (existsb (has_sink d) names).
  - left. split; [reflexivity|]. cbv beta iota. rewrite bind_get.
    destruct (before_dump d) as [pe re le kl g0 bd cs q pm rm em ss].
    cbn [set_log_enabled_ set_event_map_ set_recorder_ event_map_ recorder_
         publish_enabled_ record_enabled_ log_enabled_ keep_looping buffer_duration_
         converters_ conv_queue_ pub_map_ rec_map_ subscribers_] in Hfrom |- *.
    destruct (stopRecord_after_flush (ros_ip env) pfx g0 g Hfrom) as (c & Hstop & Hpfx).
    rewrite Hstop. exists c. split; [reflexivity|exact Hpfx].
  - right. split; [reflexivity|]. subst g.
    destruct (before_dump d) as [pe re le kl g0 bd cs q pm rm em ss]. reflexivity.
Qed.

Lemma restored_state_flags g d :
  log_enabled_ (restored_state g d) = true /\
  forall key ev, event_map_ (restored_state g d) !! key = Some ev -> dumping ev = false.
Proof.
  unfold restored_state. destruct (before_dump d) as [pe re le kl g0 bd cs q pm rm em ss].
  cbn. split; [reflexivity|]. intros key ev. rewrite !lookup_fmap.
  destruct (em !! key); simpl; [|discriminate]. intros [= <-]. reflexivity.
Qed.

(** C1, as the code has it. A dump that gets past the buffering and storage
    checks and returns has restored buffering: [log_enabled_] is true and the
    [dumping] flag of every event is false in the state it returns in. It
    does return whenever no [writeDump] fails with an exception. This holds
    for [minidump] and for [minidumpConverters]. *)
Theorem dump_restores_buffering pf pfx names env d :
  log_enabled_ d = true ->
  files_size env <= folderMaximumSize pf ->
  (forall id calls d',
      minidump pf pfx env d = Returned id calls d' ->
      log_enabled_ d' = true /\
      forall key ev, event_map_ d' !! key = Some ev -> dumping ev = false) /\
  (forall id calls d',
      minidumpConverters pf pfx names env d = Returned id calls d' ->
      log_enabled_ d' = true /\
      forall key ev, event_map_ d' !! key = Some ev -> dumping ev = false) /\
  ((forall s, writeDump_throws env s = false) ->
   (exists id calls d', minidump pf pfx env d = Returned id calls d') /\
   (exists id calls d', minidumpConverters pf pfx names env d = Returned id calls d')).
Proof.
  intros Hlog Hsize.
  pose proof (minidump_cases pf pfx env d Hlog Hsize) as Hdump.
  pose proof (minidumpConverters_cases pf pfx names env d Hlog Hsize) as Hconv.
  split; [|split].
  - intros id calls d' Heq.
    destruct Hdump as [(g & Hg & _)|(c & Hc & _)]; [congruence|].
    rewrite Hc in Heq. injection Heq as _ _ <-. apply restored_state_flags.
  - intros id calls d' Heq.
    destruct Hconv as [(g & Hg & _)|[(_ & c & Hc & _)|(_ & Hc)]]; [congruence| |];
      rewrite Hc in Heq; injection Heq as _ _ <-; apply restored_state_flags.
  - intros Hquiet. split.
    + destruct Hdump as [(g & _ & s & Hs)|(c & Hc & _)].
      * rewrite Hquiet in Hs. discriminate.
      * eexists _, _, _. exact Hc.
    + destruct Hconv as [(g & _ & s & Hs)|[(_ & c & Hc & _)|(_ & Hc)]].
      * rewrite Hquiet in Hs. discriminate.
      * eexists _, _, _. exact Hc.
      * eexists _, _, _. exact Hc.
Qed.

Lemma dump_restores_buffering_witness :
  log_enabled_ driver_three = true /\
  files_size (quiet_env 5) <= folderMaximumSize sample_platform /\
  (forall id calls d',
      minidump sample_platform "dump" (quiet_env 5) driver_three = Returned id calls d' ->
      log_enabled_ d' = true /\
      forall key ev, event_map_ d' !! key = Some ev -> dumping ev = false) /\
  (forall id calls d',
      minidumpConverters sample_platform "dump" ["camera"; "touch"; "nothing"]
        (quiet_env 5) driver_three = Returned id calls d' ->
      log_enabled_ d' = true /\
      forall key ev, event_map_ d' !! key = Some ev -> dumping ev = false) /\
  ((forall s, writeDump_throws (quiet_env 5) s = false) ->
   (exists id calls d',
       minidump sample_platform "dump" (quiet_env 5) driver_three = Returned id calls d') /\
   (exists id calls d',
       minidumpConverters sample_platform "dump" ["camera"; "touch"; "nothing"]
         (quiet_env 5) driver_three = Returned id calls d')).
Proof.
  split; [vm_compute; reflexivity|].
  split; [vm_compute; discriminate|].
  apply (dump_restores_buffering sample_platform "dump" ["camera"; "touch"; "nothing"]
           (quiet_env 5) driver_three).
  - vm_compute; reflexivity.
  - vm_compute; discriminate.
Defined.

(** C1 as stated does not hold: with three recorders and one event, when the
    [writeDump] of recorder ["imu"] fails after the event and recorder
    ["camera"] were flushed, the exception leaves the dump with [log_enabled_]
    false and the event still marked as dumping. *)
Lemma dump_interrupted_not_restored :
  log_enabled_ driver_three = true /\
  files_size (failing_env 5) <= folderMaximumSize sample_platform /\
  (exists d',
      minidump sample_platform "dump" (failing_env 5) driver_three = Raised [] d' /\
      log_enabled_ d' = false /\
      dumping <$> event_map_ d' !! "touch" = Some true /\
      flushed <$> open_bag (recorder_ d')
      = Some [(EventSink "touch", 5); (RecSink "camera", 5)]) /\
  (exists d',
      minidumpConverters sample_platform "dump" ["camera"; "imu"; "info"]
        (failing_env 5) driver_three = Raised [] d' /\
      log_enabled_ d' = false /\
      dumping <$> event_map_ d' !! "touch" = Some true).
Proof.
  split; [vm_compute; reflexivity|].
  split; [vm_compute; discriminate|].
  split; eexists; (split; [vm_compute; reflexivity|]); vm_compute; repeat split.
Qed.





(** ** Registration *)

Lemma map_insert_present {V : Type} (k : string) (v : V) (m : gmap string V) :
  is_Some (m !! k) -> map_insert k v m = m.
Proof. intros [old H]. unfold map_insert. by rewrite H. Qed.

Lemma registerPublisher_eq conv_name pub d :
  registerPublisher conv_name pub d =
  Returned tt []
    (set_pub_map_
       (map_insert conv_name (if publish_enabled_ d then publisher.reset pub else pub)
          (pub_map_ d)) d).
Proof. by destruct d. Qed.

Lemma registerRecorder_eq conv_name rec freq d :
  registerRecorder conv_name rec freq d =
  Returned tt []
    (set_rec_map_ (map_insert conv_name (recorder.reset freq rec) (rec_map_ d)) d).
Proof. by destruct d. Qed.

Lemma registerConverter3_eq conv pub rec env d :
  registerConverter3 conv pub rec env d =
  Returned tt []
    (set_rec_map_
       (map_insert (converter.name conv) (recorder.reset (frequency conv) rec) (rec_map_ d))
       (set_pub_map_
          (map_insert (converter.name conv)
             (if publish_enabled_ d then publisher.reset pub else pub) (pub_map_ d))
          (set_conv_queue_
             (priority_queue.push
                {| schedule_ := now env; conv_index_ := length (converters_ d) |}
                (conv_queue_ d))
             (set_converters_ (converters_ d ++ [conv]) d)))).
Proof. by destruct d. Qed.




(** ** Stop *)

Lemma for_each_call {A : Type} (f : A -> Call) (l : list A) d :
  for_each l (fun x => call (f x)) d = Returned tt (f <$> l) d.
Proof.
  induction l as [|x l IH]; [reflexivity|].
  cbn [for_each]. erewrite bind_Returned by reflexivity. rewrite IH. reflexivity.
Qed.

Lemma elem_of_map_keys {V : Type} (m : gmap string V) k :
  k ∈ map_keys m <-> is_Some (m !! k).
Proof.
  unfold map_keys. rewrite merge_sort_Permutation, list_elem_of_fmap. split.
  - intros ([k' v] & -> & Hin). apply elem_of_map_to_list in Hin. by exists v.
  - intros [v Hv]. exists (k, v). split; [reflexivity|]. by apply elem_of_map_to_list.
Qed.

Lemma stop_eq d :
  stop d =
  Returned tt
    ((StopProcess <$> map_keys (event_map_ d)) ++ [SpinSome])
    (set_event_map_ ∅ (set_subscribers_ [] (set_converters_ [] (set_keep_looping false d)))).
Proof.
  unfold stop. run_step.
  erewrite bind_Returned
    by (rewrite bind_get; apply (for_each_call StopProcess)).
  do 3 run_step. cbn [prepend call].
  destruct d. reflexivity.
Qed.

(** C8, as the code has it. [stop()] returns; it has called [stopProcess] on
    every event of [event_map_] and on nothing else, has set [keep_looping] to
    false and has emptied [converters_], [subscribers_] and [event_map_]. The
    publishers of [pub_map_] and the recorders of [rec_map_] stay registered. *)
Theorem stop_clears_converters_and_events d :
  exists calls d',
    stop d = Returned tt calls d' /\
    (forall key, StopProcess key ∈ calls <-> is_Some (event_map_ d !! key)) /\
    keep_looping d' = false /\
    converters_ d' = [] /\
    subscribers_ d' = [] /\
    event_map_ d' = ∅ /\
    pub_map_ d' = pub_map_ d /\
    rec_map_ d' = rec_map_ d.
Proof.
  rewrite stop_eq. eexists _, _. split; [reflexivity|]. split.
  - intros key. rewrite <- elem_of_map_keys, elem_of_app, list_elem_of_fmap. split.
    + intros [(k & [= ->] & Hk)|Hspin]; [exact Hk|].
      apply list_elem_of_singleton in Hspin. discriminate.
    + intros Hk. left. by exists key.
  - by destruct d.
Qed.

(** C8 as stated does not hold: after [stop()] on a driver with three
    registered publishers and recorders, [pub_map_] and [rec_map_] still hold
    them. *)
Lemma stop_keeps_publishers_and_recorders :
  exists calls d',
    stop driver_three = Returned tt calls d' /\
    calls = [StopProcess "touch"; SpinSome] /\
    map_keys (pub_map_ d') = ["camera"; "imu"; "info"] /\
    map_keys (rec_map_ d') = ["camera"; "imu"; "info"] /\
    pub_map_ d' <> ∅ /\
    rec_map_ d' <> ∅.
Proof.
  eexists _, _. split; [vm_compute; reflexivity|].
  split; [reflexivity|].
  split; [vm_compute; reflexivity|].
  split; [vm_compute; reflexivity|].
  split; vm_compute; discriminate.
Qed.

(** ** The queue invariant and [stop] *)

(** C9 fails after [stop()]: register one converter on a fresh driver, then
    stop. [converters_] is empty, the queue still holds the entry with index
    0, and the next tick reads [converters_[0]] out of bounds. *)
Theorem stop_leaves_stale_queue_entry :
  exists d1 calls d2,
    registerConverter conv_camera (quiet_env 0) (make_Driver sample_platform)
    = Returned tt [] d1 /\
    queue_in_bounds d1 /\
    stop d1 = Returned tt calls d2 /\
    conv_queue_ d2 = [{| schedule_ := 0; conv_index_ := 0 |}] /\
    converters_ d2 = [] /\
    ~ queue_in_bounds d2 /\
    rosIteration sample_platform (quiet_env 1) d2 = Undefined.
Proof.
  eexists _, _, _. split; [reflexivity|].
  split; [apply (bool_decide_unpack _); vm_compute; exact I|].
  split; [vm_compute; reflexivity|].
  split; [reflexivity|]. split; [reflexivity|]. split; [|reflexivity].
  unfold queue_in_bounds. simpl. intros H. apply Forall_cons in H as [H _].
  simpl in H. lia.
Qed.

(** Without [stop], the invariant of C9 holds: every run of ticks and
    registrations from the fresh driver returns, and leaves every queue entry
    within [converters_]. *)
Lemma queue_in_bounds_without_stop pf ops :
  exists calls d,
    run pf ops (make_Driver pf) = Returned tt calls d /\ queue_in_bounds d.
Proof.
  destruct (run_queue_ok pf ops (make_Driver pf)) as (calls & d & Heq & [Hb _] & _).
  - split; [unfold queue_in_bounds|]; simpl; constructor.
  - by exists calls, d.
Qed.

(** * Further properties *)

(** ** More about the tick *)

Lemma in_actions (b1 b2 b3 : bool) a :
  a ∈ ((if b1 then [PUBLISH] else []) ++ (if b2 then [RECORD] else [])
       ++ (if b3 then [LOG] else []))
  <-> (a = PUBLISH /\ b1 = true) \/ (a = RECORD /\ b2 = true) \/ (a = LOG /\ b3 = true).
Proof.
  rewrite !elem_of_app.
  destruct b1, b2, b3; rewrite ?list_elem_of_singleton, ?elem_of_nil;
    intuition congruence.
Qed.

Lemma lookup_test_true {V : Type} (m : gmap string V) k (test : V -> bool) :
  match m !! k with Some v => test v | None => false end = true
  <-> exists v, m !! k = Some v /\ test v = true.
Proof.
  destruct (m !! k) as [v|]; split.
  - intros H. by exists v.
  - intros (v' & [= <-] & H). exact H.
  - discriminate.
  - intros (v' & Hv & _). discriminate.
Qed.

Lemma in_tick_actions env conv d a :
  a ∈ tick_actions env conv d <->
  (a = PUBLISH /\ publish_enabled_ d = true /\
   exists pub, pub_map_ d !! converter.name conv = Some pub
               /\ publisher.isSubscribed pub = true)
  \/ (a = RECORD /\ try_lock_record env = true /\ record_enabled_ d = true /\
      exists rec, rec_map_ d !! converter.name conv = Some rec
                  /\ recorder.isSubscribed rec = true)
  \/ (a = LOG /\ log_enabled_ d = true /\
      is_Some (rec_map_ d !! converter.name conv) /\
      float_neq_zero (frequency conv) = true).
Proof.
  unfold tick_actions. rewrite in_actions, !andb_true_iff, !lookup_test_true.
  assert (Hsome : (exists v : Recorder,
                      rec_map_ d !! converter.name conv = Some v /\ true = true)
                  <-> is_Some (rec_map_ d !! converter.name conv)).
  { split; [intros (v & Hv & _); by exists v|intros [v Hv]; by exists v]. }
  rewrite Hsome. tauto.
Qed.

(** An action reaches [callAll] in a tick exactly when the tick put it into
    its action vector. *)
Lemma selected_iff_in_tick_actions env d top conv a :
  (exists actions, CallAll (conv_index_ top) actions ∈ tick_calls env d top conv
                   /\ a ∈ actions)
  <-> a ∈ tick_actions env conv d.
Proof.
  split.
  - intros (actions & Hcall & Ha).
    apply CallAll_in_tick_calls in Hcall as [-> _]. exact Ha.
  - intros Ha. exists (tick_actions env conv d). split; [|exact Ha].
    apply CallAll_in_tick_calls. split; [reflexivity|].
    intros Hnil. rewrite Hnil in Ha. by apply elem_of_nil in Ha.
Qed.

(** X1. A tick that dispatches a converter passes RECORD to [callAll] if and
    only if the attempt to lock [mutex_record_] succeeded, [record_enabled_]
    is set, the converter's name is a key of [rec_map_] and the recorder found
    there is subscribed. When the lock is taken elsewhere the tick still
    returns, without RECORD. *)
Theorem record_selected_iff pf env d top conv :
  priority_queue.top (conv_queue_ d) = Some top ->
  converters_ d !! conv_index_ top = Some conv ->
  exists calls d',
    rosIteration pf env d = Returned tt calls d' /\
    ((exists actions, CallAll (conv_index_ top) actions ∈ calls /\ RECORD ∈ actions)
     <->
     (try_lock_record env = true /\ record_enabled_ d = true /\
      exists rec, rec_map_ d !! converter.name conv = Some rec
                  /\ recorder.isSubscribed rec = true)).
Proof.
  intros Htop Hconv.
  rewrite (rosIteration_dispatch pf env d top conv Htop Hconv).
  eexists _, _. split; [reflexivity|].
  rewrite selected_iff_in_tick_actions, in_tick_actions. split.
  - intros [(Heq & _)|[(_ & H)|(Heq & _)]]; [discriminate|exact H|discriminate].
  - intros H. right. left. by split.
Qed.

Lemma record_selected_iff_witness :
  priority_queue.top (conv_queue_ driver_three)
    = Some {| schedule_ := 0; conv_index_ := 0 |} /\
  converters_ driver_three !! 0%nat = Some conv_camera /\
  exists calls d',
    rosIteration sample_platform (quiet_env 3) driver_three = Returned tt calls d' /\
    ((exists actions, CallAll 0 actions ∈ calls /\ RECORD ∈ actions)
     <->
     (try_lock_record (quiet_env 3) = true /\ record_enabled_ driver_three = true /\
      exists rec, rec_map_ driver_three !! "camera" = Some rec
                  /\ recorder.isSubscribed rec = true)).
Proof.
  split; [vm_compute; reflexivity|].
  split; [vm_compute; reflexivity|].
  apply (record_selected_iff sample_platform (quiet_env 3) driver_three
           {| schedule_ := 0; conv_index_ := 0 |} conv_camera);
    vm_compute; reflexivity.
Defined.

(** X2. A tick that dispatches a converter passes LOG to [callAll] if and only
    if [log_enabled_] is set, the converter's name is a key of [rec_map_] and
    the converter's frequency is not 0. *)
Theorem log_selected_iff pf env d top conv :
  priority_queue.top (conv_queue_ d) = Some top ->
  converters_ d !! conv_index_ top = Some conv ->
  exists calls d',
    rosIteration pf env d = Returned tt calls d' /\
    ((exists actions, CallAll (conv_index_ top) actions ∈ calls /\ LOG ∈ actions)
     <->
     (log_enabled_ d = true /\
      is_Some (rec_map_ d !! converter.name conv) /\
      float_neq_zero (frequency conv) = true)).
Proof.
  intros Htop Hconv.
  rewrite (rosIteration_dispatch pf env d top conv Htop Hconv).
  eexists _, _. split; [reflexivity|].
  rewrite selected_iff_in_tick_actions, in_tick_actions. split.
  - intros [(Heq & _)|[(Heq & _)|(_ & H)]]; [discriminate|discriminate|exact H].
  - intros H. right. right. by split.
Qed.

Lemma log_selected_iff_witness :
  priority_queue.top (conv_queue_ driver_three)
    = Some {| schedule_ := 0; conv_index_ := 0 |} /\
  converters_ driver_three !! 0%nat = Some conv_camera /\
  exists calls d',
    rosIteration sample_platform (quiet_env 3) driver_three = Returned tt calls d' /\
    ((exists actions, CallAll 0 actions ∈ calls /\ LOG ∈ actions)
     <->
     (log_enabled_ driver_three = true /\
      is_Some (rec_map_ driver_three !! "camera") /\
      float_neq_zero (frequency conv_camera) = true)).
Proof.
  split; [vm_compute; reflexivity|].
  split; [vm_compute; reflexivity|].
  apply (log_selected_iff sample_platform (quiet_env 3) driver_three
           {| schedule_ := 0; conv_index_ := 0 |} conv_camera);
    vm_compute; reflexivity.
Defined.

Lemma tick_actions_sublist env conv d :
  tick_actions env conv d `sublist_of` [PUBLISH; RECORD; LOG].
Proof.
  unfold tick_actions.
  repeat match goal with
         | |- context [if ?b then _ else _] => destruct b
         end; simpl;
    repeat (first [apply sublist_nil | apply sublist_skip | apply sublist_cons]).
Qed.

Lemma in_tick_calls env d top conv c :
  c ∈ tick_calls env d top conv ->
  (c = CallAll (conv_index_ top) (tick_actions env conv d)
   /\ tick_actions env conv d <> [])
  \/ (c = SleepFor (schedule_ top - now env) /\ 0 < schedule_ top - now env)
  \/ (c = SpinSome /\ publish_enabled_ d = true).
Proof.
  unfold tick_calls. rewrite !elem_of_app. intros [H|[H|H]].
  - destruct (tick_actions env conv d) as [|a l]; simpl in H.
    + by apply elem_of_nil in H.
    + apply list_elem_of_singleton in H. left. by split.
  - destruct (0 <? schedule_ top - now env) eqn:Hlt.
    + apply list_elem_of_singleton in H. right. left. split; [exact H|lia].
    + by apply elem_of_nil in H.
  - destruct (publish_enabled_ d).
    + apply list_elem_of_singleton in H. right. right. by split.
    + by apply elem_of_nil in H.
Qed.

(** X3. Whatever a tick passes to [callAll], it passes for the converter that
    was on top of the queue, and the action list is not empty and lists each
    action at most once, PUBLISH before RECORD before LOG. A tick sleeps only
    when the entry's stamp lies in the future, and then for exactly the time
    that is left. *)
Theorem tick_calls_are_well_formed pf env d top conv :
  priority_queue.top (conv_queue_ d) = Some top ->
  converters_ d !! conv_index_ top = Some conv ->
  exists calls d',
    rosIteration pf env d = Returned tt calls d' /\
    (forall i actions,
        CallAll i actions ∈ calls ->
        i = conv_index_ top /\ actions <> [] /\
        actions `sublist_of` [PUBLISH; RECORD; LOG]) /\
    (forall t, SleepFor t ∈ calls -> t = schedule_ top - now env /\ 0 < t) /\
    (forall key, (StartProcess key ∉ calls) /\ (StopProcess key ∉ calls)).
Proof.
  intros Htop Hconv.
  rewrite (rosIteration_dispatch pf env d top conv Htop Hconv).
  eexists _, _. split; [reflexivity|]. split; [|split].
  - intros i actions Hin.
    apply in_tick_calls in Hin as [[[= -> ->] Hne]|[[? _]|[? _]]]; try discriminate.
    split; [reflexivity|]. split; [exact Hne|apply tick_actions_sublist].
  - intros t Hin.
    apply in_tick_calls in Hin as [[? _]|[[[= ->] Hlt]|[? _]]]; try discriminate.
    by split.
  - intros key. split; intros Hin;
      apply in_tick_calls in Hin as [[? _]|[[? _]|[? _]]]; discriminate.
Qed.

Lemma tick_calls_are_well_formed_witness :
  priority_queue.top (conv_queue_ driver_publishing)
    = Some {| schedule_ := 0; conv_index_ := 0 |} /\
  converters_ driver_publishing !! 0%nat = Some conv_camera /\
  exists calls d',
    rosIteration sample_platform (quiet_env (-7)) driver_publishing
    = Returned tt calls d' /\
    (forall i actions,
        CallAll i actions ∈ calls ->
        i = 0%nat /\ actions <> [] /\
        actions `sublist_of` [PUBLISH; RECORD; LOG]) /\
    (forall t, SleepFor t ∈ calls -> t = 0 - now (quiet_env (-7)) /\ 0 < t) /\
    (forall key, (StartProcess key ∉ calls) /\ (StopProcess key ∉ calls)).
Proof.
  split; [vm_compute; reflexivity|].
  split; [vm_compute; reflexivity|].
  apply (tick_calls_are_well_formed sample_platform (quiet_env (-7)) driver_publishing
           {| schedule_ := 0; conv_index_ := 0 |} conv_camera);
    vm_compute; reflexivity.
Defined.

(** X4. A converter of frequency 0 that is dispatched while publishing and
    recording are both disabled is taken off the queue without [callAll] ever
    being invoked for it, even when buffering is enabled and it has a
    recorder: LOG is never selected for it. *)
Theorem one_shot_dropped_without_call pf env d top conv :
  priority_queue.top (conv_queue_ d) = Some top ->
  converters_ d !! conv_index_ top = Some conv ->
  float_neq_zero (frequency conv) = false ->
  publish_enabled_ d = false ->
  record_enabled_ d = false ->
  exists calls d',
    rosIteration pf env d = Returned tt calls d' /\
    (forall i actions, CallAll i actions ∉ calls) /\
    conv_queue_ d' = priority_queue.pop (conv_queue_ d) /\
    converters_ d' = converters_ d.
Proof.
  intros Htop Hconv Hz Hpub Hrec.
  rewrite (rosIteration_dispatch pf env d top conv Htop Hconv).
  eexists _, _. split; [reflexivity|]. split; [|split].
  - intros i actions Hin.
    apply in_tick_calls in Hin as [[_ Hne]|[[? _]|[? _]]]; try discriminate.
    apply Hne. unfold tick_actions. rewrite Hpub, Hrec, Hz, !andb_false_r. reflexivity.
  - rewrite conv_queue_set_conv_queue. unfold tick_queue. by rewrite Hz.
  - apply converters_set_conv_queue.
Qed.

Lemma one_shot_dropped_without_call_witness :
  priority_queue.top (conv_queue_ driver_info_on_top)
  = Some {| schedule_ := 0; conv_index_ := 1 |} /\
  converters_ driver_info_on_top !! 1%nat = Some conv_info /\
  float_neq_zero (frequency conv_info) = false /\
  publish_enabled_ driver_info_on_top = false /\
  record_enabled_ driver_info_on_top = false /\
  log_enabled_ driver_info_on_top = true /\
  is_Some (rec_map_ driver_info_on_top !! "info") /\
  exists calls d',
    rosIteration sample_platform (quiet_env 2) driver_info_on_top
    = Returned tt calls d' /\
    (forall i actions, CallAll i actions ∉ calls) /\
    conv_queue_ d' = priority_queue.pop (conv_queue_ driver_info_on_top) /\
    converters_ d' = converters_ driver_info_on_top.
Proof.
  split; [vm_compute; reflexivity|].
  split; [vm_compute; reflexivity|].
  split; [reflexivity|].
  split; [vm_compute; reflexivity|].
  split; [vm_compute; reflexivity|].
  split; [vm_compute; reflexivity|].
  split; [vm_compute; eauto|].
  apply (one_shot_dropped_without_call sample_platform (quiet_env 2) driver_info_on_top
           {| schedule_ := 0; conv_index_ := 1 |} conv_info);
    vm_compute; reflexivity.
Defined.

(** X5. A tick leaves the entries of all other converters in the queue as
    they are, and never makes the queue longer: the queue keeps its length
    when the dispatched converter has a nonzero frequency and loses one entry
    when its frequency is 0. *)
Theorem tick_keeps_other_entries pf env d top conv :
  priority_queue.top (conv_queue_ d) = Some top ->
  converters_ d !! conv_index_ top = Some conv ->
  exists calls d',
    rosIteration pf env d = Returned tt calls d' /\
    (forall i, i <> conv_index_ top ->
               entries_of i (conv_queue_ d') ≡ₚ entries_of i (conv_queue_ d)) /\
    length (conv_queue_ d')
    = (if float_neq_zero (frequency conv) then length (conv_queue_ d)
       else pred (length (conv_queue_ d))).
Proof.
  intros Htop Hconv.
  rewrite (rosIteration_dispatch pf env d top conv Htop Hconv).
  eexists _, _. split; [reflexivity|].
  rewrite conv_queue_set_conv_queue.
  pose proof (top_pop _ _ Htop) as Hq. split.
  - intros i Hi.
    rewrite (entries_of_tick_queue_other pf i top conv _ Htop) by congruence.
    rewrite Hq at 2. by rewrite entries_of_cons_other by congruence.
  - rewrite (tick_queue_Permutation pf top conv _ Htop), length_app.
    assert (Hlen : length (conv_queue_ d)
                   = S (length (priority_queue.pop (conv_queue_ d))))
      by (rewrite Hq at 1; reflexivity).
    rewrite Hlen. destruct (float_neq_zero (frequency conv)); reflexivity.
Qed.

Lemma tick_keeps_other_entries_witness :
  priority_queue.top (conv_queue_ driver_three)
    = Some {| schedule_ := 0; conv_index_ := 0 |} /\
  converters_ driver_three !! 0%nat = Some conv_camera /\
  exists calls d',
    rosIteration sample_platform (quiet_env 3) driver_three = Returned tt calls d' /\
    (forall i, i <> 0%nat ->
               entries_of i (conv_queue_ d') ≡ₚ entries_of i (conv_queue_ driver_three)) /\
    length (conv_queue_ d')
    = (if float_neq_zero (frequency conv_camera) then length (conv_queue_ driver_three)
       else pred (length (conv_queue_ driver_three))).
Proof.
  split; [vm_compute; reflexivity|].
  split; [vm_compute; reflexivity|].
  apply (tick_keeps_other_entries sample_platform (quiet_env 3) driver_three
           {| schedule_ := 0; conv_index_ := 0 |} conv_camera);
    vm_compute; reflexivity.
Defined.

Lemma NoDup_bounded_length (l : list nat) (n : nat) :
  NoDup l -> Forall (fun i => (i < n)%nat) l -> (length l <= n)%nat.
Proof.
  intros Hnd Hb.
  assert (Hle : (length l <= length (seq 0 n))%nat).
  { apply submseteq_length, NoDup_submseteq; [exact Hnd|].
    intros i Hi. rewrite Forall_forall in Hb. apply Hb in Hi.
    apply elem_of_seq. lia. }
  by rewrite length_seq in Hle.
Qed.

(** X6. From a freshly constructed driver, every sequence of converter
    registrations and ticks returns: no tick ever indexes [converters_] out of
    bounds. In the state reached every queue entry points into [converters_],
    no converter has two entries, and the queue is not longer than
    [converters_]. *)
Theorem fresh_runs_stay_in_bounds pf ops :
  exists calls d,
    run pf ops (make_Driver pf) = Returned tt calls d /\
    queue_in_bounds d /\
    NoDup (conv_index_ <$> conv_queue_ d) /\
    (length (conv_queue_ d) <= length (converters_ d))%nat.
Proof.
  destruct (run_queue_ok pf ops (make_Driver pf)) as (calls & d & Heq & [Hb Hnd] & _).
  - split; [unfold queue_in_bounds|]; simpl; constructor.
  - exists calls, d. split; [exact Heq|]. split; [exact Hb|]. split; [exact Hnd|].
    rewrite <- (length_fmap conv_index_).
    apply NoDup_bounded_length; [exact Hnd|].
    apply Forall_fmap. exact Hb.
Qed.

(** ** Recording *)

Lemma subscribe_idemp b r : subscribe b (subscribe b r) = subscribe b r.
Proof. reflexivity. Qed.

(** [alter] along a list of keys, for a function that does nothing the second
    time. *)
Lemma fold_alter_lookup {V : Type} (f : V -> V) (keys : list string)
  (m : gmap string V) k :
  (forall v, f (f v) = f v) ->
  fold_left (fun m key => alter f key m) keys m !! k
  = if bool_decide (k ∈ keys) then f <$> m !! k else m !! k.
Proof.
  intros Hf. revert m. induction keys as [|key keys IH]; intros m; simpl.
  - reflexivity.
  - rewrite IH. rewrite lookup_alter.
    destruct (decide (key = k)) as [->|Hne].
    + rewrite (bool_decide_eq_true_2 (k ∈ k :: keys)) by (apply elem_of_cons; by left).
      destruct (bool_decide (k ∈ keys)); [|reflexivity].
      destruct (m !! k); simpl; by rewrite ?Hf.
    + destruct (bool_decide (k ∈ keys)) eqn:Hin.
      * apply bool_decide_eq_true in Hin.
        rewrite bool_decide_eq_true_2; [reflexivity|]. apply elem_of_cons. by right.
      * apply bool_decide_eq_false in Hin.
        rewrite bool_decide_eq_false_2; [reflexivity|].
        intros [?|?]%elem_of_cons; congruence.
Qed.

Lemma fold_alter_converters {V : Type} (f : V -> V) (l : list Converter)
  (m : gmap string V) :
  fold_left (fun m (conv : Converter) => alter f (converter.name conv) m) l m
  = fold_left (fun m key => alter f key m) (converter.name <$> l) m.
Proof. revert m. induction l as [|c l IH]; intros m; simpl; [reflexivity|apply IH]. Qed.

Lemma stopRecording_eq d :
  stopRecording d =
  Returned (stopRecord "" (recorder_ d)).1 []
    (set_recorder_ (stopRecord "" (recorder_ d)).2
       (set_event_map_ (isRecording false <$> event_map_ d)
          (set_rec_map_
             (fold_left
                (fun m (conv : Converter) => alter (subscribe false) (converter.name conv) m)
                (converters_ d) (rec_map_ d))
             (set_record_enabled_ false d)))).
Proof.
  destruct d as [pe re le kl g bd cs q pm rm em ss].
  destruct g as [[c|] cl]; reflexivity.
Qed.

(** X7. [stopRecording()] returns with [record_enabled_] false, every event
    set to not recording and no container open. It unsubscribes exactly the
    recorders that carry the name of a converter in [converters_]: a recorder
    under any other key is left as it was, subscribed or not. Converters,
    queue and publishers are not touched. *)
Theorem stopRecording_effect d :
  exists id d',
    stopRecording d = Returned id [] d' /\
    record_enabled_ d' = false /\
    open_bag (recorder_ d') = None /\
    (forall key ev, event_map_ d' !! key = Some ev -> recording ev = false) /\
    (forall key rec,
        key ∈ converter.name <$> converters_ d ->
        rec_map_ d' !! key = Some rec -> recorder.isSubscribed rec = false) /\
    (forall key,
        key ∉ converter.name <$> converters_ d ->
        rec_map_ d' !! key = rec_map_ d !! key) /\
    converters_ d' = converters_ d /\
    conv_queue_ d' = conv_queue_ d /\
    pub_map_ d' = pub_map_ d.
Proof.
  rewrite stopRecording_eq. eexists _, _. split; [reflexivity|].
  destruct d as [pe re le kl g bd cs q pm rm em ss]. cbn.
  split; [reflexivity|]. split.
  { unfold stopRecord. by destruct (open_bag g) eqn:Hg; simpl. }
  split.
  { intros key ev. rewrite lookup_fmap.
    destruct (em !! key); simpl; [|discriminate]. by intros [= <-]. }
  split.
  { intros key rec Hin. rewrite fold_alter_converters, fold_alter_lookup by reflexivity.
    rewrite bool_decide_eq_true_2 by exact Hin.
    destruct (rm !! key); simpl; [|discriminate]. by intros [= <-]. }
  split; [|done].
  intros key Hin. rewrite fold_alter_converters, fold_alter_lookup by reflexivity.
  by rewrite bool_decide_eq_false_2 by exact Hin.
Qed.

Lemma startRecording_eq default_prefix d :
  startRecording default_prefix d =
  Returned tt []
    (set_record_enabled_ true
       (set_event_map_ (isRecording true <$> event_map_ d)
          (set_rec_map_
             (fold_left
                (fun m (conv : Converter) => alter (subscribe true) (converter.name conv) m)
                (converters_ d) (rec_map_ d))
             (set_recorder_ (startRecord default_prefix (recorder_ d)) d)))).
Proof. by destruct d. Qed.

Lemma subscribe_false_true r :
  recorder.isSubscribed r = false -> subscribe false (subscribe true r) = r.
Proof. destruct r as [s bd f i]. simpl. by intros ->. Qed.

Lemma isRecording_false_true e :
  recording e = false -> isRecording false (isRecording true e) = e.
Proof. destruct e as [p r dm bd h]. simpl. by intros ->. Qed.

(** X8. On a driver that is not recording (no container open, no recorder
    subscribed, no event recording), [startRecording()] followed by
    [stopRecording()] returns the identity of a new, empty container with the
    default prefix, adds that container to the finalized ones, and puts every
    other member of the driver back to what it was. *)
Theorem start_stop_recording_round_trip default_prefix d :
  record_enabled_ d = false ->
  open_bag (recorder_ d) = None ->
  (forall key rec, rec_map_ d !! key = Some rec -> recorder.isSubscribed rec = false) ->
  (forall key ev, event_map_ d !! key = Some ev -> recording ev = false) ->
  (startRecording default_prefix >> stopRecording) d
  = Returned (container_id {| prefix := default_prefix; flushed := [] |}) []
      (set_recorder_
         {| open_bag := None;
            closed_bags := {| prefix := default_prefix; flushed := [] |}
                           :: closed_bags (recorder_ d) |} d).
Proof.
  intros Hrec Hopen Hsub Hev.
  erewrite bind_Returned by apply startRecording_eq. rewrite prepend_nil.
  rewrite stopRecording_eq.
  destruct d as [pe re le kl g bd cs q pm rm em ss]. cbn in *. subst re.
  unfold startRecord. rewrite Hopen. cbn.
  f_equal. unfold set_recorder_. cbn. f_equal.
  - apply map_eq. intros key.
    rewrite !fold_alter_converters, !fold_alter_lookup by reflexivity.
    destruct (bool_decide (key ∈ converter.name <$> cs)); [|reflexivity].
    destruct (rm !! key) as [r|] eqn:Hr; simpl; [|reflexivity].
    f_equal. apply subscribe_false_true. by eapply Hsub.
  - apply map_eq. intros key. rewrite !lookup_fmap.
    destruct (em !! key) as [e|] eqn:He; simpl; [|reflexivity].
    f_equal. apply isRecording_false_true. by eapply Hev.
Qed.

Lemma start_stop_recording_round_trip_witness :
  record_enabled_ driver_three = false /\
  open_bag (recorder_ driver_three) = None /\
  (forall key rec, rec_map_ driver_three !! key = Some rec ->
                   recorder.isSubscribed rec = false) /\
  (forall key ev, event_map_ driver_three !! key = Some ev -> recording ev = false) /\
  (startRecording "rec" >> stopRecording) driver_three
  = Returned (container_id {| prefix := "rec"; flushed := [] |}) []
      (set_recorder_
         {| open_bag := None;
            closed_bags := {| prefix := "rec"; flushed := [] |}
                           :: closed_bags (recorder_ driver_three) |} driver_three).
Proof.
  assert (Hsub : forall key rec, rec_map_ driver_three !! key = Some rec ->
                                 recorder.isSubscribed rec = false).
  { intros key rec Hk.
    assert (Hall : map_Forall (fun _ r => recorder.isSubscribed r = false)
                     (rec_map_ driver_three))
      by (apply (bool_decide_unpack _); vm_compute; exact I).
    exact (Hall key rec Hk). }
  assert (Hev : forall key ev, event_map_ driver_three !! key = Some ev ->
                               recording ev = false).
  { intros key ev Hk.
    assert (Hall : map_Forall (fun _ e => recording e = false) (event_map_ driver_three))
      by (apply (bool_decide_unpack _); vm_compute; exact I).
    exact (Hall key ev Hk). }
  split; [vm_compute; reflexivity|].
  split; [vm_compute; reflexivity|].
  split; [exact Hsub|]. split; [exact Hev|].
  apply (start_stop_recording_round_trip "rec" driver_three);
    [vm_compute; reflexivity|vm_compute; reflexivity|exact Hsub|exact Hev].
Defined.

Lemma events_after_ext rm rm' names em :
  (forall k, rm' !! k = None <-> rm !! k = None) ->
  events_after rm' names em = events_after rm names em.
Proof.
  intros Hdom. revert em. induction names as [|name names IH]; intros em; simpl.
  - reflexivity.
  - specialize (Hdom name) as Hn.
    destruct (rm' !! name), (rm !! name); try apply IH;
      destruct Hn as [H1 H2]; exfalso;
      (specialize (H1 eq_refl) || specialize (H2 eq_refl)); discriminate.
Qed.

Lemma alter_absent {V : Type} (f : V -> V) k (m : gmap string V) :
  m !! k = None -> alter f k m = m.
Proof.
  intros Hk. apply map_eq. intros j. rewrite lookup_alter.
  destruct (decide (k = j)) as [->|]; [|reflexivity]. by rewrite Hk.
Qed.

(** The loop of [startRecordingConverters], in closed form. *)
Lemma record_names_eq default_prefix names :
  forall (is_started : bool) d,
    record_names default_prefix names is_started d =
    Returned (is_started || existsb (has_sink d) names) []
      (set_recorder_
         (if is_started then recorder_ d
          else if existsb (has_sink d) names
               then startRecord default_prefix (recorder_ d)
               else recorder_ d)
         (set_event_map_ (events_after (rec_map_ d) names (event_map_ d))
            (set_rec_map_ (recorders_after names (rec_map_ d)) d))).
Proof.
  induction names as [|name names IH]; intros is_started d.
  - cbn. rewrite orb_false_r. destruct d, is_started; reflexivity.
  - cbn [record_names existsb]. rewrite bind_get.
    destruct (rec_map_ d !! name) as [rec|] eqn:Hrec.
    + rewrite (has_sink_rec d name rec Hrec), orb_true_l, orb_true_r.
      erewrite bind_Returned; cycle 1.
      { instantiate (1 := set_rec_map_ (alter (subscribe true) name (rec_map_ d))
                            (set_recorder_
                               (if is_started then recorder_ d
                                else startRecord default_prefix (recorder_ d)) d)).
        instantiate (1 := []). instantiate (1 := true).
        destruct d, is_started; reflexivity. }
      rewrite prepend_nil, IH. cbn [orb]. f_equal.
      unfold events_after at 2. cbn [fold_left]. rewrite Hrec.
      fold (events_after (rec_map_ d) names (event_map_ d)).
      rewrite <- (events_after_ext (rec_map_ d) (alter (subscribe true) name (rec_map_ d)))
        by (intros k; apply lookup_alter_None).
      destruct d, is_started; reflexivity.
    + destruct (event_map_ d !! name) as [ev|] eqn:Hev.
      * rewrite (has_sink_event d name ev Hev), orb_true_l, orb_true_r.
        erewrite bind_Returned; cycle 1.
        { instantiate (1 := set_event_map_ (alter (isRecording true) name (event_map_ d))
                              (set_recorder_
                                 (if is_started then recorder_ d
                                  else startRecord default_prefix (recorder_ d)) d)).
          instantiate (1 := []). instantiate (1 := true).
          destruct d, is_started; reflexivity. }
        rewrite prepend_nil, IH. cbn [orb]. f_equal.
        unfold events_after at 2, recorders_after at 2. cbn [fold_left]. rewrite Hrec.
        rewrite (alter_absent _ _ _ Hrec).
        fold (recorders_after names (rec_map_ d)).
        fold (events_after (rec_map_ d) names
                (alter (isRecording true) name (event_map_ d))).
        destruct d, is_started; reflexivity.
      * rewrite (has_sink_none d name Hrec Hev), orb_false_l.
        run_step. rewrite IH. f_equal.
        unfold events_after at 2, recorders_after at 2. cbn [fold_left]. rewrite Hrec.
        rewrite (alter_absent _ _ _ Hrec), (alter_absent _ _ _ Hev). reflexivity.
Qed.

Lemma bool_decide_elem_of_cons_ne (k name : string) names :
  name <> k -> bool_decide (k ∈ name :: names) = bool_decide (k ∈ names).
Proof.
  intros Hne. apply bool_decide_ext. rewrite elem_of_cons.
  split; [intros [Heq|Hin]; [congruence|exact Hin]|intros Hin; by right].
Qed.

Lemma bool_decide_elem_of_cons_eq (k : string) names :
  bool_decide (k ∈ k :: names) = true.
Proof. apply bool_decide_eq_true_2, elem_of_cons. by left. Qed.

Lemma events_after_lookup rm names em k :
  events_after rm names em !! k
  = if bool_decide (k ∈ names) && bool_decide (rm !! k = None)
    then isRecording true <$> em !! k else em !! k.
Proof.
  revert em. induction names as [|name names IH]; intros em.
  - reflexivity.
  - unfold events_after. cbn [fold_left].
    fold (events_after rm names
            match rm !! name with
            | Some _ => em
            | None => alter (isRecording true) name em
            end).
    rewrite IH. destruct (decide (name = k)) as [->|Hne].
    + rewrite bool_decide_elem_of_cons_eq.
      destruct (rm !! k) as [r|] eqn:Hr.
      * rewrite (bool_decide_eq_false_2 (Some r = None)) by discriminate.
        by rewrite andb_false_r.
      * rewrite (bool_decide_eq_true_2 (None = None)) by reflexivity.
        rewrite andb_true_r, lookup_alter, decide_True by reflexivity.
        destruct (bool_decide (k ∈ names)); [|reflexivity].
        by destruct (em !! k).
    + rewrite (bool_decide_elem_of_cons_ne k name names Hne).
      destruct (rm !! name); [reflexivity|].
      by rewrite lookup_alter, decide_False by exact Hne.
Qed.

Lemma recorders_after_absent names rm :
  (forall name, name ∈ names -> rm !! name = None) -> recorders_after names rm = rm.
Proof.
  intros Habs. apply map_eq. intros k. unfold recorders_after.
  rewrite fold_alter_lookup by reflexivity.
  destruct (bool_decide (k ∈ names)) eqn:Hin; [|reflexivity].
  apply bool_decide_eq_true in Hin. by rewrite (Habs k Hin).
Qed.

Lemma events_after_absent rm names em :
  (forall name, name ∈ names -> em !! name = None) -> events_after rm names em = em.
Proof.
  intros Habs. apply map_eq. intros k. rewrite events_after_lookup.
  destruct (bool_decide (k ∈ names)) eqn:Hin; [|reflexivity].
  apply bool_decide_eq_true in Hin. rewrite (Habs k Hin).
  by destruct (bool_decide (rm !! k = None)).
Qed.

Lemma has_sink_false d name :
  has_sink d name = false -> rec_map_ d !! name = None /\ event_map_ d !! name = None.
Proof.
  unfold has_sink.
  destruct (rec_map_ d !! name); [discriminate|].
  destruct (event_map_ d !! name); [discriminate|]. by split.
Qed.

Lemma existsb_has_sink_false d names :
  existsb (has_sink d) names = false ->
  forall name, name ∈ names ->
               rec_map_ d !! name = None /\ event_map_ d !! name = None.
Proof.
  induction names as [|n names IH]; simpl; intros Hex name Hin.
  - by apply elem_of_nil in Hin.
  - apply orb_false_iff in Hex as [Hn Hex].
    apply elem_of_cons in Hin as [->|Hin]; [by apply has_sink_false|by apply IH].
Qed.

(** X9. [startRecordingConverters(names)] with no name that is a key of
    [rec_map_] or [event_map_] (the empty list included) changes nothing: no
    container is opened, nothing is subscribed, and [record_enabled_] keeps
    its value. *)
Theorem startRecordingConverters_no_match default_prefix names d :
  existsb (has_sink d) names = false ->
  startRecordingConverters default_prefix names d = Returned tt [] d.
Proof.
  intros Hex. unfold startRecordingConverters.
  erewrite bind_Returned by apply record_names_eq.
  rewrite prepend_nil, Hex. cbn [orb when ret].
  pose proof (existsb_has_sink_false d names Hex) as Habs.
  rewrite recorders_after_absent by (intros name Hin; by apply Habs).
  rewrite events_after_absent by (intros name Hin; by apply Habs).
  by destruct d.
Qed.

Lemma startRecordingConverters_no_match_witness :
  existsb (has_sink driver_three) ["lidar"; "nothing"] = false /\
  startRecordingConverters "rec" ["lidar"; "nothing"] driver_three
  = Returned tt [] driver_three.
Proof.
  split; [vm_compute; reflexivity|].
  apply (startRecordingConverters_no_match "rec" ["lidar"; "nothing"] driver_three).
  vm_compute; reflexivity.
Defined.

(** X10. [startRecordingConverters(names)] always returns. It sets
    [record_enabled_] and opens a container exactly when some name is a key of
    [rec_map_] or [event_map_]; it subscribes the recorders under the given
    names and leaves the others as they were; it sets an event under a given
    name to recording only when no recorder has that name. *)
Theorem startRecordingConverters_effect default_prefix names d :
  exists d',
    startRecordingConverters default_prefix names d = Returned tt [] d' /\
    record_enabled_ d' = record_enabled_ d || existsb (has_sink d) names /\
    recorder_ d'
    = (if existsb (has_sink d) names then startRecord default_prefix (recorder_ d)
       else recorder_ d) /\
    (forall key,
        rec_map_ d' !! key
        = if bool_decide (key ∈ names) then subscribe true <$> rec_map_ d !! key
          else rec_map_ d !! key) /\
    (forall key,
        event_map_ d' !! key
        = if bool_decide (key ∈ names) && bool_decide (rec_map_ d !! key = None)
          then isRecording true <$> event_map_ d !! key
          else event_map_ d !! key) /\
    converters_ d' = converters_ d /\
    conv_queue_ d' = conv_queue_ d.
Proof.
  unfold startRecordingConverters.
  erewrite bind_Returned by apply record_names_eq.
  rewrite prepend_nil. cbn [orb].
  destruct (existsb (has_sink d) names); cbn [when ret modify];
    eexists; (split; [reflexivity|]);
    destruct d as [pe re le kl g bd cs q pm rm em ss]; cbn;
    rewrite ?orb_true_r, ?orb_false_r;
    (split; [reflexivity|]); (split; [reflexivity|]);
    (split; [intros key; unfold recorders_after;
             by rewrite fold_alter_lookup by reflexivity|]);
    (split; [intros key; apply events_after_lookup|]); by split.
Qed.

(** ** The order of the keys of a [std::map] *)

Lemma string_compare_refl s : String.compare s s = Eq.
Proof.
  induction s as [|a s IH]; simpl; [reflexivity|].
  unfold Ascii.compare. by rewrite N.compare_refl.
Qed.

Lemma string_compare_Lt_trans s1 :
  forall s2 s3,
    String.compare s1 s2 = Lt -> String.compare s2 s3 = Lt ->
    String.compare s1 s3 = Lt.
Proof.
  induction s1 as [|a1 s1 IH]; intros [|a2 s2] [|a3 s3]; simpl; try congruence.
  unfold Ascii.compare.
  destruct (N.compare_spec (Ascii.N_of_ascii a1) (Ascii.N_of_ascii a2)) as [H12|H12|H12];
    destruct (N.compare_spec (Ascii.N_of_ascii a2) (Ascii.N_of_ascii a3)) as [H23|H23|H23];
    destruct (N.compare_spec (Ascii.N_of_ascii a1) (Ascii.N_of_ascii a3)) as [H13|H13|H13];
    try congruence; try lia.
  apply IH.
Qed.

Lemma string_leb_trans s1 s2 s3 :
  String.leb s1 s2 = true -> String.leb s2 s3 = true -> String.leb s1 s3 = true.
Proof.
  unfold String.leb.
  destruct (String.compare s1 s2) eqn:H12; [|  |discriminate];
    destruct (String.compare s2 s3) eqn:H23; try discriminate; intros _ _.
  - apply String.compare_eq_iff in H12, H23. subst. by rewrite string_compare_refl.
  - apply String.compare_eq_iff in H12. subst. by rewrite H23.
  - apply String.compare_eq_iff in H23. subst. by rewrite H12.
  - by rewrite (string_compare_Lt_trans _ _ _ H12 H23).
Qed.

#[local] Instance string_leb_transitive :
  Transitive (fun a b : string => Is_true (String.leb a b)).
Proof.
  intros a b c Hab Hbc. apply Is_true_true. apply Is_true_true in Hab, Hbc.
  by eapply string_leb_trans.
Qed.

#[local] Instance string_leb_antisym :
  AntiSymm (=) (fun a b : string => Is_true (String.leb a b)).
Proof.
  intros a b Hab Hba. apply Is_true_true in Hab, Hba. by apply String.leb_antisym.
Qed.

#[local] Instance string_leb_total :
  Total (fun a b : string => Is_true (String.leb a b)).
Proof.
  intros a b. destruct (String.leb_total a b) as [H|H]; [left|right];
    by apply Is_true_true.
Qed.

(** The keys come out in ascending order, each once. *)
Lemma map_keys_sorted {V : Type} (m : gmap string V) :
  Sorted (fun a b : string => Is_true (String.leb a b)) (map_keys m)
  /\ NoDup (map_keys m).
Proof.
  unfold map_keys. split; [apply (Sorted_merge_sort _)|].
  rewrite merge_sort_Permutation. apply NoDup_fst_map_to_list.
Qed.

(** The order of the keys does not depend on the values. *)
Lemma map_keys_same_domain {V W : Type} (m : gmap string V) (m' : gmap string W) :
  (forall k, m' !! k = None <-> m !! k = None) -> map_keys m' = map_keys m.
Proof.
  intros Hdom.
  destruct (map_keys_sorted m) as [Hs Hn], (map_keys_sorted m') as [Hs' Hn'].
  apply (Sorted_unique (fun a b : string => Is_true (String.leb a b))); [done|done|].
  apply NoDup_Permutation; [done|done|].
  intros k. rewrite !elem_of_map_keys, <- !not_eq_None_Some. by rewrite Hdom.
Qed.

Lemma map_keys_fmap {V W : Type} (f : V -> W) (m : gmap string V) :
  map_keys (f <$> m) = map_keys m.
Proof.
  apply map_keys_same_domain. intros k. rewrite lookup_fmap. apply fmap_None.
Qed.

(** ** More about dumps *)

(** X11. A dump called while buffering is enabled but the folder holds more
    than [folderMaximumSize] returns the "No more space" message and leaves
    the driver as it was; in particular a recording in progress is not
    stopped and no container is opened. *)
Theorem dump_refused_when_storage_full pf pfx names env d :
  log_enabled_ d = true ->
  folderMaximumSize pf < files_size env ->
  minidump pf pfx env d = Returned err_no_space [] d /\
  minidumpConverters pf pfx names env d = Returned err_no_space [] d.
Proof.
  intros Hlog Hsize. unfold minidump, minidumpConverters.
  rewrite !bind_get, Hlog. cbn [negb].
  replace (folderMaximumSize pf <? files_size env) with true
    by (symmetry; apply Z.ltb_lt; lia).
  by split.
Qed.

Lemma dump_refused_when_storage_full_witness :
  log_enabled_ driver_three = true /\
  folderMaximumSize sample_platform
  < files_size {| now := 5; files_size := 3000000000; ros_ip := "10.0.0.2";
                  try_lock_record := true; writeDump_throws := fun _ => false;
                  getData := fun _ => None |} /\
  minidump sample_platform "dump"
    {| now := 5; files_size := 3000000000; ros_ip := "10.0.0.2";
       try_lock_record := true; writeDump_throws := fun _ => false;
       getData := fun _ => None |} driver_three
  = Returned err_no_space [] driver_three /\
  minidumpConverters sample_platform "dump" ["camera"]
    {| now := 5; files_size := 3000000000; ros_ip := "10.0.0.2";
       try_lock_record := true; writeDump_throws := fun _ => false;
       getData := fun _ => None |} driver_three
  = Returned err_no_space [] driver_three.
Proof.
  split; [vm_compute; reflexivity|].
  split; [vm_compute; reflexivity|].
  apply (dump_refused_when_storage_full sample_platform "dump" ["camera"]
           {| now := 5; files_size := 3000000000; ros_ip := "10.0.0.2";
              try_lock_record := true; writeDump_throws := fun _ => false;
              getData := fun _ => None |} driver_three);
    vm_compute; reflexivity.
Defined.

Lemma record_enabled_before_dump d : record_enabled_ (before_dump d) = false.
Proof.
  unfold before_dump. destruct (record_enabled_ d) eqn:Hre; [|exact Hre].
  unfold state_after. rewrite stopRecording_eq. by destruct d.
Qed.

(** X12. However a dump ends once it is past its two checks, by returning or
    by the exception of a [writeDump], it has ended a recording in progress
    and has not resumed it: [record_enabled_] is false afterwards. *)
Theorem dump_ends_recording pf pfx names env d :
  log_enabled_ d = true ->
  files_size env <= folderMaximumSize pf ->
  record_enabled_ (state_after (minidump pf pfx env) d) = false /\
  record_enabled_ (state_after (minidumpConverters pf pfx names env) d) = false.
Proof.
  intros Hlog Hsize. unfold state_after. split.
  - destruct (minidump_cases pf pfx env d Hlog Hsize) as [(g & -> & _)|(c & -> & _)];
      unfold dumping_state, restored_state;
      pose proof (record_enabled_before_dump d) as H;
      destruct (before_dump d); exact H.
  - destruct (minidumpConverters_cases pf pfx names env d Hlog Hsize)
      as [(g & -> & _)|[(_ & c & -> & _)|(_ & ->)]];
      unfold dumping_state, restored_state;
      pose proof (record_enabled_before_dump d) as H;
      destruct (before_dump d); exact H.
Qed.

Lemma dump_ends_recording_witness :
  log_enabled_ (state_after (startRecording "rec") driver_three) = true /\
  files_size (quiet_env 5) <= folderMaximumSize sample_platform /\
  record_enabled_ (state_after (startRecording "rec") driver_three) = true /\
  record_enabled_
    (state_after (minidump sample_platform "dump" (quiet_env 5))
       (state_after (startRecording "rec") driver_three)) = false /\
  record_enabled_
    (state_after (minidumpConverters sample_platform "dump" ["camera"] (quiet_env 5))
       (state_after (startRecording "rec") driver_three)) = false.
Proof.
  split; [vm_compute; reflexivity|].
  split; [vm_compute; discriminate|].
  split; [vm_compute; reflexivity|].
  apply (dump_ends_recording sample_platform "dump" ["camera"] (quiet_env 5)
           (state_after (startRecording "rec") driver_three)).
  - vm_compute; reflexivity.
  - vm_compute; discriminate.
Defined.

Lemma for_each_writeDump_quiet env time (mk : string -> SinkRef) keys :
  (forall s, writeDump_throws env s = false) ->
  forall d,
    for_each keys (fun key => writeDump env (mk key) time) d
    = Returned tt []
        (set_recorder_
           (fold_left (fun g key => flush_into (mk key) time g) keys (recorder_ d)) d).
Proof.
  intros Hquiet. induction keys as [|key keys IH]; intros d.
  - cbn. by rewrite set_recorder_same.
  - cbn [for_each fold_left]. unfold writeDump at 1. rewrite Hquiet.
    run_step. rewrite IH, recorder_set_recorder, set_recorder_twice. reflexivity.
Qed.

Lemma fold_flush_open {K : Type} (mk : K -> SinkRef) time (keys : list K) :
  forall g c,
    open_bag g = Some c ->
    fold_left (fun g key => flush_into (mk key) time g) keys g
    = {| open_bag :=
           Some {| prefix := prefix c;
                   flushed := flushed c ++ ((fun key => (mk key, time)) <$> keys) |};
         closed_bags := closed_bags g |}.
Proof.
  induction keys as [|key keys IH]; intros g c Hc.
  - cbn. rewrite app_nil_r. destruct g as [o cl], c as [p f]. cbn in *. by subst.
  - cbn [fold_left]. erewrite IH; cycle 1.
    { unfold flush_into. rewrite Hc. reflexivity. }
    cbn. rewrite <- app_assoc.
    unfold flush_into. rewrite Hc. reflexivity.
Qed.

(** X13. On a driver that is not recording and has no container open, a dump
    over the whole set in which no [writeDump] fails returns the identity of
    one new container with the given prefix. Into it went, all with the one
    stamp read at the start of the dump, first every event of [event_map_]
    and then every recorder of [rec_map_], each exactly once and in ascending
    order of the keys. *)
Theorem minidump_flushes_every_sink pf pfx env d :
  log_enabled_ d = true ->
  files_size env <= folderMaximumSize pf ->
  (forall s, writeDump_throws env s = false) ->
  record_enabled_ d = false ->
  open_bag (recorder_ d) = None ->
  exists d',
    minidump pf pfx env d = Returned pfx [] d' /\
    recorder_ d'
    = {| open_bag := None;
         closed_bags :=
           {| prefix := pfx;
              flushed :=
                ((fun key => (EventSink key, now env)) <$> map_keys (event_map_ d))
                ++ ((fun key => (RecSink key, now env)) <$> map_keys (rec_map_ d)) |}
           :: closed_bags (recorder_ d) |}.
Proof.
  intros Hlog Hsize Hquiet Hrec Hopen.
  unfold minidump. rewrite bind_get, Hlog. cbn [negb].
  replace (folderMaximumSize pf <? files_size env) with false
    by (symmetry; apply Z.ltb_ge; lia).
  rewrite Hrec. cbn [when]. do 4 run_step.
  rewrite (bind_Returned _ _ _ _ _ _
             (eq_trans (bind_get _ _) (for_each_writeDump_quiet env (now env) EventSink _ Hquiet _))).
  rewrite prepend_nil.
  rewrite (bind_Returned _ _ _ _ _ _
             (eq_trans (bind_get _ _) (for_each_writeDump_quiet env (now env) RecSink _ Hquiet _))).
  rewrite prepend_nil. do 2 run_step. rewrite bind_get.
  destruct d as [pe re le kl g bd cs q pm rm em ss]. cbn in *.
  rewrite map_keys_fmap.
  unfold startRecord. rewrite Hopen.
  erewrite (fold_flush_open EventSink) by reflexivity.
  erewrite (fold_flush_open RecSink) by reflexivity.
  cbn. eexists. split; reflexivity.
Qed.

Lemma minidump_flushes_every_sink_witness :
  log_enabled_ driver_three = true /\
  files_size (quiet_env 5) <= folderMaximumSize sample_platform /\
  (forall s, writeDump_throws (quiet_env 5) s = false) /\
  record_enabled_ driver_three = false /\
  open_bag (recorder_ driver_three) = None /\
  map_keys (event_map_ driver_three) = ["touch"] /\
  map_keys (rec_map_ driver_three) = ["camera"; "imu"; "info"] /\
  exists d',
    minidump sample_platform "dump" (quiet_env 5) driver_three = Returned "dump" [] d' /\
    recorder_ d'
    = {| open_bag := None;
         closed_bags :=
           {| prefix := "dump";
              flushed :=
                ((fun key => (EventSink key, now (quiet_env 5)))
                   <$> map_keys (event_map_ driver_three))
                ++ ((fun key => (RecSink key, now (quiet_env 5)))
                      <$> map_keys (rec_map_ driver_three)) |}
           :: closed_bags (recorder_ driver_three) |}.
Proof.
  split; [vm_compute; reflexivity|].
  split; [vm_compute; discriminate|].
  split; [reflexivity|].
  split; [vm_compute; reflexivity|].
  split; [vm_compute; reflexivity|].
  split; [vm_compute; reflexivity|].
  split; [vm_compute; reflexivity|].
  apply (minidump_flushes_every_sink sample_platform "dump" (quiet_env 5) driver_three).
  - vm_compute; reflexivity.
  - vm_compute; discriminate.
  - reflexivity.
  - vm_compute; reflexivity.
  - vm_compute; reflexivity.
Defined.

Lemma dump_names_quiet env pfx time names :
  (forall s, writeDump_throws env s = false) ->
  forall (is_started : bool) d,
    dump_names env pfx time names is_started d
    = Returned (is_started || existsb (has_sink d) names) []
        (set_recorder_
           (fold_left (fun g s => flush_into s time g) (omap (sink_of d) names)
              (if is_started then recorder_ d
               else if existsb (has_sink d) names then startRecord pfx (recorder_ d)
                    else recorder_ d)) d).
Proof.
  intros Hquiet. induction names as [|name names IH]; intros is_started d.
  - cbn. rewrite orb_false_r. destruct is_started; by rewrite set_recorder_same.
  - cbn [dump_names existsb omap list_omap]. rewrite bind_get.
    unfold sink_of at 1.
    assert (Hstep : forall s,
      has_sink d name = true ->
      (do is_started' <-
         (when (negb is_started)
            (modify (fun d => set_recorder_ (startRecord pfx (recorder_ d)) d)) >>
          writeDump env s time >> ret true);
       dump_names env pfx time names is_started') d
      = Returned (is_started || (has_sink d name || existsb (has_sink d) names)) []
          (set_recorder_
             (fold_left (fun g s => flush_into s time g) (s :: omap (sink_of d) names)
                (if is_started then recorder_ d
                 else if has_sink d name || existsb (has_sink d) names
                      then startRecord pfx (recorder_ d) else recorder_ d)) d)).
    { intros s Hsink. rewrite Hsink, orb_true_l, orb_true_r.
      destruct (flush_one_cases env pfx time s is_started d) as [[_ H1]|[Hth _]];
        [|by rewrite Hquiet in Hth].
      rewrite (bind_Returned _ _ _ _ _ _ H1), prepend_nil, IH.
      cbn [orb fold_left]. rewrite recorder_set_recorder, set_recorder_twice.
      by destruct d, is_started. }
    destruct (rec_map_ d !! name) as [rec|] eqn:Hrec.
    { apply Hstep. by eapply has_sink_rec. }
    destruct (event_map_ d !! name) as [ev|] eqn:Hev.
    { apply Hstep. by eapply has_sink_event. }
    rewrite (has_sink_none d name Hrec Hev), orb_false_l.
    run_step. apply IH.
Qed.

Lemma omap_sink_of_ext d d' (names : list string) :
  (forall k, rec_map_ d' !! k = None <-> rec_map_ d !! k = None) ->
  (forall k, event_map_ d' !! k = None <-> event_map_ d !! k = None) ->
  omap (sink_of d') names = omap (sink_of d) names.
Proof.
  intros Hrec Hev. induction names as [|name names IH]; [reflexivity|].
  cbn [omap list_omap]. rewrite IH.
  replace (sink_of d' name) with (sink_of d name); [reflexivity|].
  unfold sink_of. specialize (Hrec name). specialize (Hev name).
  destruct (rec_map_ d' !! name), (rec_map_ d !! name),
    (event_map_ d' !! name), (event_map_ d !! name); try reflexivity;
    repeat match goal with
           | H : _ <-> _ |- _ => destruct H
           end; exfalso;
    repeat match goal with
           | H : None = None -> Some _ = None |- _ => specialize (H eq_refl)
           end; discriminate.
Qed.

(** X14. On a driver that is not recording and has no container open, a dump
    over selected names, of which at least one has a sink and in which no
    [writeDump] fails, returns the identity of one new container with the
    given prefix. Into it went one flush per name that has a sink, in the
    order of the names and all with the one stamp: the recorder under the
    name if there is one, and the event under the name only if there is no
    such recorder. Names without a sink are skipped; a name given twice is
    flushed twice. *)
Theorem minidumpConverters_flushes_named_sinks pf pfx names env d :
  log_enabled_ d = true ->
  files_size env <= folderMaximumSize pf ->
  (forall s, writeDump_throws env s = false) ->
  record_enabled_ d = false ->
  open_bag (recorder_ d) = None ->
  existsb (has_sink d) names = true ->
  exists d',
    minidumpConverters pf pfx names env d = Returned pfx [] d' /\
    recorder_ d'
    = {| open_bag := None;
         closed_bags :=
           {| prefix := pfx;
              flushed := (fun s => (s, now env)) <$> omap (sink_of d) names |}
           :: closed_bags (recorder_ d) |}.
Proof.
  intros Hlog Hsize Hquiet Hrec Hopen Hex.
  unfold minidumpConverters. rewrite bind_get, Hlog. cbn [negb].
  replace (folderMaximumSize pf <? files_size env) with false
    by (symmetry; apply Z.ltb_ge; lia).
  rewrite Hrec. cbn [when]. do 3 run_step.
  erewrite bind_Returned by apply (dump_names_quiet env pfx (now env) names Hquiet).
  rewrite prepend_nil. cbn [orb].
  assert (Hdom_rec : forall k,
             rec_map_ (set_event_map_ (isDumping true <$> event_map_ (set_log_enabled_ false d))
                         (set_log_enabled_ false d)) !! k = None
             <-> rec_map_ d !! k = None) by (intros k; by destruct d).
  assert (Hdom_ev : forall k,
             event_map_ (set_event_map_ (isDumping true <$> event_map_ (set_log_enabled_ false d))
                           (set_log_enabled_ false d)) !! k = None
             <-> event_map_ d !! k = None).
  { intros k. destruct d; cbn. rewrite lookup_fmap. apply fmap_None. }
  rewrite (omap_sink_of_ext d _ names Hdom_rec Hdom_ev).
  replace (existsb (has_sink (set_event_map_
                                (isDumping true <$> event_map_ (set_log_enabled_ false d))
                                (set_log_enabled_ false d))) names)
    with (existsb (has_sink d) names).
  2:{ clear Hex. induction names as [|name names IH]; [reflexivity|].
      simpl. f_equal; [|exact IH]. symmetry. by apply has_sink_ext. }
  rewrite Hex. do 2 run_step. cbv beta iota. rewrite bind_get.
  destruct d as [pe re le kl g bd cs q pm rm em ss]. cbn in *.
  unfold startRecord. rewrite Hopen.
  erewrite (fold_flush_open (fun s : SinkRef => s)) by reflexivity.
  cbn. eexists. split; reflexivity.
Qed.

Lemma minidumpConverters_flushes_named_sinks_witness :
  log_enabled_ driver_three = true /\
  files_size (quiet_env 5) <= folderMaximumSize sample_platform /\
  (forall s, writeDump_throws (quiet_env 5) s = false) /\
  record_enabled_ driver_three = false /\
  open_bag (recorder_ driver_three) = None /\
  existsb (has_sink driver_three) ["touch"; "nothing"; "camera"; "touch"] = true /\
  omap (sink_of driver_three) ["touch"; "nothing"; "camera"; "touch"]
  = [EventSink "touch"; RecSink "camera"; EventSink "touch"] /\
  exists d',
    minidumpConverters sample_platform "dump" ["touch"; "nothing"; "camera"; "touch"]
      (quiet_env 5) driver_three = Returned "dump" [] d' /\
    recorder_ d'
    = {| open_bag := None;
         closed_bags :=
           {| prefix := "dump";
              flushed := (fun s => (s, now (quiet_env 5)))
                           <$> omap (sink_of driver_three)
                                 ["touch"; "nothing"; "camera"; "touch"] |}
           :: closed_bags (recorder_ driver_three) |}.
Proof.
  split; [vm_compute; reflexivity|].
  split; [vm_compute; discriminate|].
  split; [reflexivity|].
  split; [vm_compute; reflexivity|].
  split; [vm_compute; reflexivity|].
  split; [vm_compute; reflexivity|].
  split; [vm_compute; reflexivity|].
  apply (minidumpConverters_flushes_named_sinks sample_platform "dump"
           ["touch"; "nothing"; "camera"; "touch"] (quiet_env 5) driver_three).
  - vm_compute; reflexivity.
  - vm_compute; discriminate.
  - reflexivity.
  - vm_compute; reflexivity.
  - vm_compute; reflexivity.
  - vm_compute; reflexivity.
Defined.

Lemma isDumping_false_true e :
  dumping e = false -> isDumping false (isDumping true e) = e.
Proof. destruct e as [p r dm bd h]. simpl. by intros ->. Qed.

Lemma restored_state_neutral g d :
  log_enabled_ d = true ->
  record_enabled_ d = false ->
  (forall key ev, event_map_ d !! key = Some ev -> dumping ev = false) ->
  restored_state g d = set_recorder_ g d.
Proof.
  intros Hlog Hrec Hdump. unfold restored_state, before_dump. rewrite Hrec.
  destruct d as [pe re le kl g0 bd cs q pm rm em ss]. cbn in *. subst le.
  unfold set_recorder_. cbn. f_equal.
  apply map_eq. intros key. rewrite !lookup_fmap.
  destruct (em !! key) as [e|] eqn:He; simpl; [|reflexivity].
  f_equal. apply isDumping_false_true. by eapply Hdump.
Qed.

(** X15. On a driver that is not recording and in which no event is marked as
    dumping, a dump in which no [writeDump] fails changes nothing but
    [recorder_]: flags, converters, queue, publishers, recorders and events
    are afterwards exactly what they were, and no call went out. *)
Theorem dump_changes_only_the_recorder pf pfx names env d :
  log_enabled_ d = true ->
  files_size env <= folderMaximumSize pf ->
  (forall s, writeDump_throws env s = false) ->
  record_enabled_ d = false ->
  (forall key ev, event_map_ d !! key = Some ev -> dumping ev = false) ->
  (exists id g, minidump pf pfx env d = Returned id [] (set_recorder_ g d)) /\
  (exists id g, minidumpConverters pf pfx names env d = Returned id [] (set_recorder_ g d)).
Proof.
  intros Hlog Hsize Hquiet Hrec Hdump. split.
  - destruct (minidump_cases pf pfx env d Hlog Hsize) as [(g & _ & s & Hs)|(c & Hc & _)].
    + by rewrite Hquiet in Hs.
    + rewrite Hc, (restored_state_neutral _ d Hlog Hrec Hdump). by eexists _, _.
  - destruct (minidumpConverters_cases pf pfx names env d Hlog Hsize)
      as [(g & _ & s & Hs)|[(_ & c & Hc & _)|(_ & Hc)]].
    + by rewrite Hquiet in Hs.
    + rewrite Hc, (restored_state_neutral _ d Hlog Hrec Hdump). by eexists _, _.
    + rewrite Hc, (restored_state_neutral _ d Hlog Hrec Hdump). by eexists _, _.
Qed.

Lemma dump_changes_only_the_recorder_witness :
  log_enabled_ driver_three = true /\
  files_size (quiet_env 5) <= folderMaximumSize sample_platform /\
  (forall s, writeDump_throws (quiet_env 5) s = false) /\
  record_enabled_ driver_three = false /\
  (forall key ev, event_map_ driver_three !! key = Some ev -> dumping ev = false) /\
  (exists id g,
      minidump sample_platform "dump" (quiet_env 5) driver_three
      = Returned id [] (set_recorder_ g driver_three)) /\
  (exists id g,
      minidumpConverters sample_platform "dump" ["imu"] (quiet_env 5) driver_three
      = Returned id [] (set_recorder_ g driver_three)).
Proof.
  assert (Hdump : forall key ev, event_map_ driver_three !! key = Some ev ->
                                 dumping ev = false).
  { intros key ev Hk.
    assert (Hall : map_Forall (fun _ e => dumping e = false) (event_map_ driver_three))
      by (apply (bool_decide_unpack _); vm_compute; exact I).
    exact (Hall key ev Hk). }
  split; [vm_compute; reflexivity|].
  split; [vm_compute; discriminate|].
  split; [reflexivity|].
  split; [vm_compute; reflexivity|].
  split; [exact Hdump|].
  apply (dump_changes_only_the_recorder sample_platform "dump" ["imu"] (quiet_env 5)
           driver_three);
    [vm_compute; reflexivity|vm_compute; discriminate|reflexivity
    |vm_compute; reflexivity|exact Hdump].
Defined.

(** ** Switching publishing and buffering off *)

(** Every tick either has no defined behaviour, or dispatches the entry on
    top, or finds the queue empty. *)
Lemma rosIteration_cases pf env d :
  rosIteration pf env d = Undefined
  \/ (exists top conv,
         priority_queue.top (conv_queue_ d) = Some top /\
         converters_ d !! conv_index_ top = Some conv /\
         rosIteration pf env d
         = Returned tt (tick_calls env d top conv)
             (set_conv_queue_ (tick_queue pf top conv (conv_queue_ d)) d))
  \/ (conv_queue_ d = [] /\
      rosIteration pf env d
      = Returned tt (SleepFor 1000000000 :: if publish_enabled_ d then [SpinSome] else []) d).
Proof.
  destruct (priority_queue.top (conv_queue_ d)) as [top|] eqn:Htop.
  - destruct (converters_ d !! conv_index_ top) as [conv|] eqn:Hconv.
    + right. left. exists top, conv. split; [done|]. split; [done|].
      by apply rosIteration_dispatch.
    + left. by eapply rosIteration_out_of_bounds.
  - right. right. destruct (conv_queue_ d) as [|y q] eqn:Hq; [|discriminate].
    split; [reflexivity|]. by apply rosIteration_idle.
Qed.

(** What a run sends out while a flag of the driver stays as it is: [P] holds
    of every call of every step. *)
Lemma run_calls_invariant pf (I : Driver -> Prop) (P : Call -> Prop) ops :
  (forall o d calls d', I d -> step pf o d = Returned tt calls d' ->
                        I d' /\ Forall P calls) ->
  forall d calls d',
    I d -> run pf ops d = Returned tt calls d' -> I d' /\ Forall P calls.
Proof.
  intros Hstep. induction ops as [|o ops IH]; intros d calls d' Hd Hrun.
  - injection Hrun as <- <-. by split.
  - rewrite run_cons in Hrun.
    destruct (step pf o d) as [[] calls1 d1| |] eqn:Hs; try discriminate.
    destruct (run pf ops d1) as [[] calls2 d2| |] eqn:Hr; try discriminate.
    injection Hrun as <- <-.
    destruct (Hstep o d calls1 d1 Hd Hs) as [Hd1 Hc1].
    destruct (IH d1 calls2 d2 Hd1 Hr) as [Hd2 Hc2].
    split; [exact Hd2|]. by apply Forall_app.
Qed.

Lemma step_without_publishing pf o d calls d' :
  publish_enabled_ d = false ->
  step pf o d = Returned tt calls d' ->
  publish_enabled_ d' = false /\ Forall no_publish calls.
Proof.
  intros Hpub Hstep. destruct o as [env|conv env]; cbn [step] in Hstep.
  - destruct (rosIteration_cases pf env d)
      as [Hu|[(top & conv & Htop & Hconv & Heq)|(Hq & Heq)]];
      rewrite Hstep in *; try discriminate; injection Heq as -> ->.
    + split; [by destruct d|]. apply Forall_forall. intros c Hc.
      apply in_tick_calls in Hc as [[-> _]|[[-> _]|[_ Hp]]]; [| |congruence].
      * split; [discriminate|]. intros i actions [= _ <-].
        rewrite in_tick_actions. intros [(_ & Hp & _)|[(? & _)|(? & _)]];
          congruence.
      * split; [discriminate|]. intros i actions ?. discriminate.
    + split; [exact Hpub|]. rewrite Hpub. repeat constructor; discriminate.
  - rewrite registerConverter_eq in Hstep. injection Hstep as <- <-.
    split; [by destruct d|constructor].
Qed.

(** X16. After [stopPublishing()] no event is set to publishing, and as long
    as only ticks and registrations of converters follow, nothing is
    published: no [callAll] gets PUBLISH and [spin_some] is never called,
    whichever publishers are subscribed. *)
Theorem nothing_published_after_stopPublishing pf ops d :
  exists d1,
    stopPublishing d = Returned tt [] d1 /\
    (forall key ev, event_map_ d1 !! key = Some ev -> publishing ev = false) /\
    (forall calls d2,
        run pf ops d1 = Returned tt calls d2 ->
        publish_enabled_ d2 = false /\ Forall no_publish calls).
Proof.
  exists (set_event_map_ (isPublishing false <$> event_map_ d)
            (set_publish_enabled_ false d)).
  split; [by destruct d|]. split.
  - destruct d as [pe re le kl g bd cs q pm rm em ss]; cbn.
    intros key ev. rewrite lookup_fmap.
    destruct (em !! key); simpl; [|discriminate]. by intros [= <-].
  - intros calls d2 Hrun.
    refine (run_calls_invariant pf (fun d => publish_enabled_ d = false) no_publish ops
              _ _ calls d2 _ Hrun); [|by destruct d].
    intros o d0 calls0 d0' Hd0 Hs. by eapply step_without_publishing.
Qed.

Lemma step_without_logging pf o d calls d' :
  log_enabled_ d = false ->
  step pf o d = Returned tt calls d' ->
  log_enabled_ d' = false /\ Forall no_log calls.
Proof.
  intros Hlog Hstep. destruct o as [env|conv env]; cbn [step] in Hstep.
  - destruct (rosIteration_cases pf env d)
      as [Hu|[(top & conv & Htop & Hconv & Heq)|(Hq & Heq)]];
      rewrite Hstep in *; try discriminate; injection Heq as -> ->.
    + split; [by destruct d|]. apply Forall_forall. intros c Hc.
      apply in_tick_calls in Hc as [[-> _]|[[-> _]|[-> _]]];
        intros i actions [= ]. subst.
      rewrite in_tick_actions. intros [(? & _)|[(? & _)|(_ & Hl & _)]]; congruence.
    + split; [exact Hlog|].
      destruct (publish_enabled_ d); repeat constructor; intros i actions [= ].
  - rewrite registerConverter_eq in Hstep. injection Hstep as <- <-.
    split; [by destruct d|constructor].
Qed.

(** X17. After [stopLogging()] both dumps are refused with the "Log is not
    enabled" message, and as long as only ticks and registrations of
    converters follow, no [callAll] gets LOG: nothing is buffered. *)
Theorem nothing_buffered_after_stopLogging pf pfx names env ops d :
  exists d1,
    stopLogging d = Returned tt [] d1 /\
    minidump pf pfx env d1 = Returned err_log_not_enabled [] d1 /\
    minidumpConverters pf pfx names env d1 = Returned err_log_not_enabled [] d1 /\
    (forall calls d2,
        run pf ops d1 = Returned tt calls d2 ->
        log_enabled_ d2 = false /\ Forall no_log calls).
Proof.
  eexists. split; [reflexivity|].
  assert (Hlog : log_enabled_ (set_log_enabled_ false d) = false) by by destruct d.
  split; [unfold minidump; by rewrite bind_get, Hlog|].
  split; [unfold minidumpConverters; by rewrite bind_get, Hlog|].
  intros calls d2 Hrun.
  refine (run_calls_invariant pf (fun d => log_enabled_ d = false) no_log ops
            _ _ calls d2 Hlog Hrun).
  intros o d0 calls0 d0' Hd0 Hs. by eapply step_without_logging.
Qed.

(** ** Queries *)

Lemma elem_of_map_items {V : Type} (m : gmap string V) k v :
  (k, v) ∈ map_items m <-> m !! k = Some v.
Proof.
  unfold map_items. rewrite merge_sort_Permutation. apply elem_of_map_to_list.
Qed.

Lemma length_map_items {V : Type} (m : gmap string V) :
  length (map_items m) = size m.
Proof.
  unfold map_items. rewrite merge_sort_Permutation. apply length_map_to_list.
Qed.

(** X18. [getSubscribedPublishers()] changes nothing and returns exactly the
    topics of the publishers of [pub_map_] that have a subscriber, at most
    one entry per publisher. Whenever a tick passes PUBLISH to [callAll] for
    a converter, the topic of that converter's publisher is in the list. *)
Theorem subscribed_publishers_listed d :
  exists topics,
    getSubscribedPublishers d = Returned topics [] d /\
    (forall t,
        t ∈ topics <->
        exists key pub, pub_map_ d !! key = Some pub
                        /\ publisher.isSubscribed pub = true /\ topic pub = t) /\
    (length topics <= size (pub_map_ d))%nat /\
    (forall pf env top conv calls d' actions,
        priority_queue.top (conv_queue_ d) = Some top ->
        converters_ d !! conv_index_ top = Some conv ->
        rosIteration pf env d = Returned tt calls d' ->
        CallAll (conv_index_ top) actions ∈ calls ->
        PUBLISH ∈ actions ->
        exists pub, pub_map_ d !! converter.name conv = Some pub /\ topic pub ∈ topics).
Proof.
  eexists. split; [unfold getSubscribedPublishers; by rewrite bind_get|].
  assert (Hin : forall t,
    t ∈ topic <$> filter (fun pub => publisher.isSubscribed pub = true)
                    (map_items (pub_map_ d)).*2
    <-> exists key pub, pub_map_ d !! key = Some pub
                        /\ publisher.isSubscribed pub = true /\ topic pub = t).
  { intros t. rewrite list_elem_of_fmap. split.
    - intros (pub & -> & Hpub). apply list_elem_of_filter in Hpub as [Hsub Hpub].
      apply list_elem_of_fmap in Hpub as ([key pub'] & -> & Hitem).
      apply elem_of_map_items in Hitem. by exists key, pub'.
    - intros (key & pub & Hk & Hsub & <-). exists pub. split; [reflexivity|].
      apply list_elem_of_filter. split; [exact Hsub|].
      apply list_elem_of_fmap. exists (key, pub). split; [reflexivity|].
      by apply elem_of_map_items. }
  split; [exact Hin|]. split.
  - rewrite length_fmap, <- length_map_items, <- (length_fmap snd).
    apply length_filter.
  - intros pf env top conv calls d' actions Htop Hconv Htick Hcall Hpub.
    rewrite (rosIteration_dispatch pf env d top conv Htop Hconv) in Htick.
    injection Htick as <- <-.
    apply CallAll_in_tick_calls in Hcall as [-> _].
    apply PUBLISH_in_tick_actions in Hpub as (_ & pub & Hk & Hsub).
    exists pub. split; [exact Hk|]. apply Hin. by exists (converter.name conv), pub.
Qed.

(** X22. [getAvailableConverters()] changes nothing and returns the names of
    the converters in the order of their registration, followed by the keys
    of the events in ascending order. Right after [stop()] the list is
    empty, although publishers and recorders are still registered. *)
Theorem available_converters_listed d :
  exists names,
    getAvailableConverters d = Returned names [] d /\
    names = (converter.name <$> converters_ d) ++ map_keys (event_map_ d) /\
    (forall name,
        name ∈ names <->
        (exists conv, conv ∈ converters_ d /\ converter.name conv = name)
        \/ is_Some (event_map_ d !! name)) /\
    (forall calls d', stop d = Returned tt calls d' ->
                      getAvailableConverters d' = Returned [] [] d').
Proof.
  eexists. split; [unfold getAvailableConverters; by rewrite bind_get|].
  split; [reflexivity|]. split.
  - intros name. rewrite elem_of_app, list_elem_of_fmap, elem_of_map_keys.
    split; (intros [Hc|He]; [left|by right]).
    + destruct Hc as (conv & -> & Hin). by exists conv.
    + destruct Hc as (conv & Hin & <-). by exists conv.
  - intros calls d'. rewrite stop_eq. intros [= <- <-]. by destruct d.
Qed.

(** ** More about registration *)

(** The [switch] on the data type: 1 to 4 register, everything else does not. *)
Lemma data_type_switch {A : Type} (data_type : Z) (a b : A) :
  match data_type with
  | 0 => b
  | 1 | 2 | 3 | 4 => a
  | _ => b
  end = if (1 <=? data_type) && (data_type <=? 4) then a else b.
Proof.
  destruct data_type as [|p|p]; [reflexivity| |reflexivity].
  destruct p as [[p|p|]|[p|[p|p|]|]|]; try reflexivity; by destruct p.
Qed.

(** The data type that a registration works with: the one passed, or the one
    inferred from the value in memory when [None] is passed; nothing when
    reading the memory or inferring the type fails. *)
Lemma registerMemoryConverter_eq key freq type env d :
  registerMemoryConverter key freq type env d =
  match getData env key with
  | Some value =>
      match (if type =? dataType.None then getDataType value else Some type) with
      | Some data_type =>
          if (1 <=? data_type) && (data_type <=? 4)
          then (_registerMemoryConverter key freq env >> ret true) d
          else Returned false [] d
      | None => Returned false [] d
      end
  | None => Returned false [] d
  end.
Proof.
  unfold registerMemoryConverter.
  destruct (getData env key) as [value|]; [|reflexivity].
  destruct (if type =? dataType.None then getDataType value else Some type)
    as [data_type|]; [|reflexivity].
  rewrite (data_type_switch data_type
             (_registerMemoryConverter key freq env >> ret true) (ret false)).
  by destruct ((1 <=? data_type) && (data_type <=? 4)).
Qed.

(** X19. [registerMemoryConverter] always returns. It returns true exactly
    when the key can be read from memory and the data type, passed or inferred
    when [None] is passed, is one of Float, Int, String, Bool; then one
    converter named after the key is appended with the given frequency and
    scheduled at the current time, and the key has a publisher and a
    recorder. Whenever it returns false the driver is exactly as it was. *)
Theorem registerMemoryConverter_result key freq type env d :
  exists (b : bool) d',
    registerMemoryConverter key freq type env d = Returned b [] d' /\
    (b = true <->
     exists value data_type,
       getData env key = Some value /\
       (if type =? dataType.None then getDataType value else Some type) = Some data_type /\
       1 <= data_type <= 4) /\
    (b = false -> d' = d) /\
    (b = true ->
     converters_ d' = converters_ d ++ [{| converter.name := key; frequency := freq |}] /\
     {| schedule_ := now env; conv_index_ := length (converters_ d) |} ∈ conv_queue_ d' /\
     is_Some (pub_map_ d' !! key) /\
     is_Some (rec_map_ d' !! key)).
Proof.
  rewrite registerMemoryConverter_eq.
  destruct (getData env key) as [value|] eqn:Hdata.
  2:{ exists false, d. split; [reflexivity|]. split; [|by split].
      split; [discriminate|]. intros (v & dt & Hv & _). discriminate. }
  destruct (if type =? dataType.None then getDataType value else Some type)
    as [data_type|] eqn:Htype.
  2:{ exists false, d. split; [reflexivity|]. split; [|by split].
      split; [discriminate|]. intros (v & dt & [= <-] & Hdt & _). congruence. }
  destruct ((1 <=? data_type) && (data_type <=? 4)) eqn:Hrange.
  - apply andb_true_iff in Hrange as [H1 H4]. apply Z.leb_le in H1, H4.
    unfold _registerMemoryConverter.
    erewrite bind_Returned by apply registerConverter3_eq.
    cbn [prepend ret app converter.name frequency].
    eexists true, _. split; [reflexivity|]. split; [|split; [discriminate|]].
    + split; [|reflexivity]. intros _. by exists value, data_type.
    + intros _. destruct d as [pe re le kl g bd cs q pm rm em ss]. cbn.
      split; [reflexivity|]. split; [apply elem_of_push; by left|].
      unfold map_insert. split.
      * destruct (pm !! key) eqn:Hk; [by rewrite Hk|by rewrite lookup_insert_eq].
      * destruct (rm !! key) eqn:Hk; [by rewrite Hk|by rewrite lookup_insert_eq].
  - exists false, d. split; [reflexivity|]. split; [|by split].
    split; [discriminate|]. intros (v & dt & [= <-] & Hdt & H1 & H4).
    rewrite Htype in Hdt. injection Hdt as <-.
    apply andb_false_iff in Hrange as [H|H]; apply Z.leb_gt in H; lia.
Qed.

Lemma registerEventConverter_eq key type env d :
  registerEventConverter key type env d =
  match getData env key with
  | Some value =>
      match (if type =? dataType.None then getDataType value else Some type) with
      | Some data_type =>
          if (1 <=? data_type) && (data_type <=? 4)
          then
            Returned true (if keep_looping d then [StartProcess key] else [])
              (set_event_map_
                 ((if publish_enabled_ d then alter (isPublishing true) key else id)
                    (map_insert key
                       (resetRecorder
                          {| publishing := false; recording := false; dumping := false;
                             event.buffer_duration := S754_zero false;
                             has_recorder := false |})
                       (event_map_ d))) d)
          else Returned false [] d
      | None => Returned false [] d
      end
  | None => Returned false [] d
  end.
Proof.
  unfold registerEventConverter.
  destruct (getData env key) as [value|]; [|reflexivity].
  destruct (if type =? dataType.None then getDataType value else Some type)
    as [data_type|]; [|reflexivity].
  destruct d as [pe re le kl g bd cs q pm rm em ss].
  destruct data_type as [|p|p]; [reflexivity| |reflexivity].
  destruct p as [[p|p|]|[p|[p|p|]|]|];
    try (by destruct p); by destruct kl, pe.
Qed.

(** X20. [registerEventConverter] always returns, true under the same
    condition as [registerMemoryConverter], and leaves the driver as it was,
    with no call sent, whenever it returns false. When it returns true the
    key is in [event_map_]; the event under the key was started exactly when
    [keep_looping] is set (so not after [stop()]), and is set to publishing
    when [publish_enabled_] is set; an event that was already registered
    under the key is kept rather than replaced; all other events, converters,
    and the queue are untouched. *)
Theorem registerEventConverter_result key type env d :
  exists (b : bool) calls d',
    registerEventConverter key type env d = Returned b calls d' /\
    (b = true <->
     exists value data_type,
       getData env key = Some value /\
       (if type =? dataType.None then getDataType value else Some type) = Some data_type /\
       1 <= data_type <= 4) /\
    (b = false -> d' = d /\ calls = []) /\
    (b = true ->
     calls = (if keep_looping d then [StartProcess key] else []) /\
     is_Some (event_map_ d' !! key) /\
     (publish_enabled_ d = true ->
      forall ev, event_map_ d' !! key = Some ev -> publishing ev = true) /\
     (forall old, event_map_ d !! key = Some old ->
                  event_map_ d' !! key
                  = Some (if publish_enabled_ d then isPublishing true old else old)) /\
     (forall k, k <> key -> event_map_ d' !! k = event_map_ d !! k) /\
     converters_ d' = converters_ d /\
     conv_queue_ d' = conv_queue_ d).
Proof.
  rewrite registerEventConverter_eq.
  destruct (getData env key) as [value|] eqn:Hdata.
  2:{ exists false, [], d. split; [reflexivity|]. split; [|by split].
      split; [discriminate|]. intros (v & dt & Hv & _). discriminate. }
  destruct (if type =? dataType.None then getDataType value else Some type)
    as [data_type|] eqn:Htype.
  2:{ exists false, [], d. split; [reflexivity|]. split; [|by split].
      split; [discriminate|]. intros (v & dt & [= <-] & Hdt & _). congruence. }
  destruct ((1 <=? data_type) && (data_type <=? 4)) eqn:Hrange.
  - apply andb_true_iff in Hrange as [H1 H4]. apply Z.leb_le in H1, H4.
    eexists true, _, _. split; [reflexivity|]. split; [|split; [discriminate|]].
    + split; [|reflexivity]. intros _. by exists value, data_type.
    + intros _. destruct d as [pe re le kl g bd cs q pm rm em ss]. cbn.
      split; [reflexivity|]. unfold map_insert.
      destruct (em !! key) as [old|] eqn:Hold; destruct pe; cbn;
        rewrite ?lookup_alter, ?decide_True, ?lookup_insert_eq, ?Hold by reflexivity;
        cbn; (split; [eauto|]); (split; [try discriminate; by intros _ ev [= <-]|]);
        (split; [try discriminate; by intros old' [= <-]|]);
        (split; [|done]); intros k Hk;
        rewrite ?lookup_alter, ?decide_False, ?lookup_insert_ne by congruence;
        reflexivity.
  - exists false, [], d. split; [reflexivity|]. split; [|by split].
    split; [discriminate|]. intros (v & dt & [= <-] & Hdt & H1 & H4).
    rewrite Htype in Hdt. injection Hdt as <-.
    apply andb_false_iff in Hrange as [H|H]; apply Z.leb_gt in H; lia.
Qed.

(** X21. A converter registered together with a publisher only, under a name
    that has no recorder, is never recorded nor buffered: whatever the flags
    and the lock, its ticks select neither RECORD nor LOG, and [rec_map_] is
    as before. Likewise one registered together with a recorder only, under a
    name that has no publisher, is never published. *)
Theorem one_sided_registration conv pub rec env d :
  (rec_map_ d !! converter.name conv = None ->
   exists d',
     registerPublisher2 conv pub env d = Returned tt [] d' /\
     rec_map_ d' = rec_map_ d /\
     converters_ d' = converters_ d ++ [conv] /\
     forall env' d'',
       rec_map_ d'' = rec_map_ d' ->
       (RECORD ∉ tick_actions env' conv d'') /\ (LOG ∉ tick_actions env' conv d'')) /\
  (pub_map_ d !! converter.name conv = None ->
   exists d',
     registerRecorder2 conv rec env d = Returned tt [] d' /\
     pub_map_ d' = pub_map_ d /\
     converters_ d' = converters_ d ++ [conv] /\
     forall env' d'',
       pub_map_ d'' = pub_map_ d' ->
       PUBLISH ∉ tick_actions env' conv d'').
Proof.
  split.
  - intros Hrec. unfold registerPublisher2.
    erewrite bind_Returned by apply registerConverter_eq.
    rewrite prepend_nil, registerPublisher_eq.
    eexists. split; [reflexivity|].
    split; [by destruct d|]. split; [by destruct d|].
    intros env' d'' Hmap.
    assert (Hnone : rec_map_ d'' !! converter.name conv = None).
    { rewrite Hmap. by destruct d. }
    split; rewrite in_tick_actions;
      intros [(Heq & _)|[(_ & _ & _ & r & Hr & _)|(_ & _ & [r Hr] & _)]];
      try discriminate; congruence.
  - intros Hpub. unfold registerRecorder2.
    erewrite bind_Returned by apply registerConverter_eq.
    rewrite prepend_nil, registerRecorder_eq.
    eexists. split; [reflexivity|].
    split; [by destruct d|]. split; [by destruct d|].
    intros env' d'' Hmap.
    assert (Hnone : pub_map_ d'' !! converter.name conv = None).
    { rewrite Hmap. by destruct d. }
    rewrite in_tick_actions.
    intros [(_ & _ & p & Hp & _)|[(Heq & _)|(Heq & _)]];
      try discriminate; congruence.
Qed.

Lemma one_sided_registration_witness :
  (exists d',
     registerPublisher2 conv_camera (sample_publisher "camera" true) (quiet_env 0)
       (make_Driver sample_platform) = Returned tt [] d' /\
     rec_map_ d' = rec_map_ (make_Driver sample_platform) /\
     converters_ d' = converters_ (make_Driver sample_platform) ++ [conv_camera] /\
     forall env' d'',
       rec_map_ d'' = rec_map_ d' ->
       (RECORD ∉ tick_actions env' conv_camera d'') /\
       (LOG ∉ tick_actions env' conv_camera d'')) /\
  (exists d',
     registerRecorder2 conv_camera sample_recorder (quiet_env 0)
       (make_Driver sample_platform) = Returned tt [] d' /\
     pub_map_ d' = pub_map_ (make_Driver sample_platform) /\
     converters_ d' = converters_ (make_Driver sample_platform) ++ [conv_camera] /\
     forall env' d'',
       pub_map_ d'' = pub_map_ d' ->
       PUBLISH ∉ tick_actions env' conv_camera d'').
Proof.
  destruct (one_sided_registration conv_camera (sample_publisher "camera" true)
              sample_recorder (quiet_env 0) (make_Driver sample_platform))
    as [Hpub Hrec].
  split; [apply Hpub|apply Hrec]; reflexivity.
Defined.

(** X23. [addMemoryConverters] registers nothing from a file that it can
    parse but that is incomplete: when the topic cannot be read, when the list
    of memory keys cannot be read, or when that list is empty, it returns
    normally and the driver is exactly as it was, whatever the frequency
    entry holds. *)
Theorem addMemoryConverters_rejects_incomplete_file pt env d :
  memory_topic pt = None \/ memory_keys pt = None \/ memory_keys pt = Some [] ->
  addMemoryConverters (Some pt) env d = Returned tt [] d.
Proof.
  intros H. unfold addMemoryConverters.
  destruct (memory_topic pt) as [topic_name|]; [|reflexivity].
  destruct H as [H|[H|H]]; [discriminate|by rewrite H|by rewrite H].
Qed.

Lemma addMemoryConverters_rejects_incomplete_file_witness :
  addMemoryConverters
    (Some {| memory_frequency := Got float_one; memory_topic := Some "memory";
             memory_keys := Some [] |})
    (quiet_env 0) driver_three
  = Returned tt [] driver_three.
Proof.
  apply addMemoryConverters_rejects_incomplete_file. right. right. reflexivity.
Defined.

(** X24. From a file with a topic and at least one memory key,
    [addMemoryConverters] registers exactly one converter, named after the
    topic and scheduled at the current time; its frequency is the one of the
    file, and 10 Hz when the frequency entry is missing or is not a number.
    The topic gets a publisher and a recorder unless it has them already, and
    the converters registered before are kept. *)
Theorem addMemoryConverters_registers_list_converter pt topic_name keys env d :
  memory_topic pt = Some topic_name ->
  memory_keys pt = Some keys ->
  keys <> [] ->
  exists d',
    addMemoryConverters (Some pt) env d = Returned tt [] d' /\
    converters_ d'
    = converters_ d ++
      [{| converter.name := topic_name;
          frequency := match memory_frequency pt with
                       | Got f => f
                       | BadData | BadPath => float_ten
                       end |}] /\
    {| schedule_ := now env; conv_index_ := length (converters_ d) |} ∈ conv_queue_ d' /\
    is_Some (pub_map_ d' !! topic_name) /\
    is_Some (rec_map_ d' !! topic_name) /\
    event_map_ d' = event_map_ d.
Proof.
  intros Htopic Hkeys Hne. unfold addMemoryConverters.
  rewrite Htopic, Hkeys, bool_decide_eq_false_2 by exact Hne.
  rewrite registerConverter3_eq. eexists. split; [reflexivity|].
  destruct d as [pe re le kl g bd cs q pm rm em ss]. cbn.
  split; [by destruct (memory_frequency pt)|].
  split; [apply elem_of_push; by left|].
  unfold map_insert. split; [|split; [|reflexivity]].
  - destruct (pm !! topic_name) eqn:Hk; [by rewrite Hk|by rewrite lookup_insert_eq].
  - destruct (rm !! topic_name) eqn:Hk; [by rewrite Hk|by rewrite lookup_insert_eq].
Qed.

Lemma addMemoryConverters_registers_list_converter_witness :
  exists d',
    addMemoryConverters
      (Some {| memory_frequency := BadPath; memory_topic := Some "memory";
               memory_keys := Some ["Device/Battery"] |})
      (quiet_env 5) driver_three
    = Returned tt [] d' /\
    converters_ d'
    = converters_ driver_three ++
      [{| converter.name := "memory"; frequency := float_ten |}] /\
    {| schedule_ := 5; conv_index_ := length (converters_ driver_three) |}
      ∈ conv_queue_ d' /\
    is_Some (pub_map_ d' !! "memory") /\
    is_Some (rec_map_ d' !! "memory") /\
    event_map_ d' = event_map_ driver_three.
Proof.
  apply (addMemoryConverters_registers_list_converter
           {| memory_frequency := BadPath; memory_topic := Some "memory";
              memory_keys := Some ["Device/Battery"] |}
           "memory" ["Device/Battery"] (quiet_env 5) driver_three);
    [reflexivity|reflexivity|discriminate].
Defined.

(** ** The default converters *)

Lemma registerPublisher2_eq conv pub env d :
  registerPublisher2 conv pub env d =
  Returned tt []
    (set_pub_map_
       (map_insert (converter.name conv)
          (if publish_enabled_ d then publisher.reset pub else pub) (pub_map_ d))
       (set_conv_queue_
          (priority_queue.push
             {| schedule_ := now env; conv_index_ := length (converters_ d) |}
             (conv_queue_ d))
          (set_converters_ (converters_ d ++ [conv]) d))).
Proof. by destruct d. Qed.

Lemma registerDefaultEvent_eq key d :
  registerDefaultEvent key d =
  Returned tt (if keep_looping d then [StartProcess key] else [])
    (set_event_map_
       ((if publish_enabled_ d then alter (isPublishing true) key else id)
          (map_insert key (resetRecorder EventRegister) (event_map_ d))) d).
Proof. destruct d as [pe re le kl g bd cs q pm rm em ss]. by destruct kl, pe. Qed.

Lemma register_eq env r d : register env r d = Returned tt [] (registered env d r).
Proof.
  unfold registered, state_after.
  destruct r; cbn [register].
  - by rewrite registerConverter3_eq.
  - by rewrite registerPublisher2_eq.
Qed.

Lemma when_registerConverter3 b conv pub rec env d :
  when b (registerConverter3 conv pub rec env) d =
  Returned tt [] (fold_left (registered env) (guarded b (WithRecorder conv pub rec)) d).
Proof. destruct b; [apply (register_eq env (WithRecorder conv pub rec))|reflexivity]. Qed.

Lemma when_registerPublisher2 b conv pub env d :
  when b (registerPublisher2 conv pub env) d =
  Returned tt [] (fold_left (registered env) (guarded b (PublisherOnly conv pub)) d).
Proof. destruct b; [apply (register_eq env (PublisherOnly conv pub))|reflexivity]. Qed.

Lemma when_registerDefaultEvent b key d :
  when b (registerDefaultEvent key) d =
  Returned tt (if keep_looping d then StartProcess <$> guarded b key else [])
    (fold_left event_registered (guarded b key) d).
Proof.
  destruct b; cbn [when guarded fold_left].
  - unfold event_registered, state_after. rewrite registerDefaultEvent_eq.
    by destruct (keep_looping d).
  - by destruct (keep_looping d).
Qed.

Lemma registered_WithRecorder env d conv pub rec :
  registered env d (WithRecorder conv pub rec) =
  set_rec_map_
    (map_insert (converter.name conv) (recorder.reset (frequency conv) rec) (rec_map_ d))
    (set_pub_map_
       (map_insert (converter.name conv)
          (if publish_enabled_ d then publisher.reset pub else pub) (pub_map_ d))
       (set_conv_queue_
          (priority_queue.push
             {| schedule_ := now env; conv_index_ := length (converters_ d) |}
             (conv_queue_ d))
          (set_converters_ (converters_ d ++ [conv]) d))).
Proof.
  unfold registered, state_after. cbn [register]. by rewrite registerConverter3_eq.
Qed.

Lemma registered_PublisherOnly env d conv pub :
  registered env d (PublisherOnly conv pub) =
  set_pub_map_
    (map_insert (converter.name conv)
       (if publish_enabled_ d then publisher.reset pub else pub) (pub_map_ d))
    (set_conv_queue_
       (priority_queue.push
          {| schedule_ := now env; conv_index_ := length (converters_ d) |}
          (conv_queue_ d))
       (set_converters_ (converters_ d ++ [conv]) d)).
Proof.
  unfold registered, state_after. cbn [register]. by rewrite registerPublisher2_eq.
Qed.

Lemma event_registered_eq d key :
  event_registered d key =
  set_event_map_
    ((if publish_enabled_ d then alter (isPublishing true) key else id)
       (map_insert key (resetRecorder EventRegister) (event_map_ d))) d.
Proof. unfold event_registered, state_after. by rewrite registerDefaultEvent_eq. Qed.

(** The publisher and the recorder that a registration puts into the maps. *)
Lemma registered_fields env d r :
  let conv := registered_converter r in
  converters_ (registered env d r) = converters_ d ++ [conv] /\
  conv_queue_ (registered env d r)
  = priority_queue.push
      {| schedule_ := now env; conv_index_ := length (converters_ d) |} (conv_queue_ d) /\
  pub_map_ (registered env d r)
  = map_insert (converter.name conv)
      (match r with
       | WithRecorder _ pub _ | PublisherOnly _ pub =>
           if publish_enabled_ d then publisher.reset pub else pub
       end) (pub_map_ d) /\
  rec_map_ (registered env d r)
  = match r with
    | WithRecorder _ _ rec =>
        map_insert (converter.name conv) (recorder.reset (frequency conv) rec) (rec_map_ d)
    | PublisherOnly _ _ => rec_map_ d
    end /\
  event_map_ (registered env d r) = event_map_ d /\
  keep_looping (registered env d r) = keep_looping d /\
  publish_enabled_ (registered env d r) = publish_enabled_ d.
Proof.
  destruct r; [rewrite registered_WithRecorder|rewrite registered_PublisherOnly];
    by destruct d.
Qed.

Lemma event_registered_fields d key :
  converters_ (event_registered d key) = converters_ d /\
  conv_queue_ (event_registered d key) = conv_queue_ d /\
  pub_map_ (event_registered d key) = pub_map_ d /\
  rec_map_ (event_registered d key) = rec_map_ d /\
  event_map_ (event_registered d key)
  = (if publish_enabled_ d then alter (isPublishing true) key else id)
      (map_insert key (resetRecorder EventRegister) (event_map_ d)) /\
  keep_looping (event_registered d key) = keep_looping d /\
  publish_enabled_ (event_registered d key) = publish_enabled_ d.
Proof. rewrite event_registered_eq. by destruct d. Qed.

Lemma keep_looping_registered env l d :
  keep_looping (fold_left (registered env) l d) = keep_looping d.
Proof.
  revert d. induction l as [|r l IH]; intros d; [reflexivity|].
  cbn [fold_left]. rewrite IH. apply registered_fields.
Qed.

Lemma keep_looping_event_registered l d :
  keep_looping (fold_left event_registered l d) = keep_looping d.
Proof.
  revert d. induction l as [|k l IH]; intros d; [reflexivity|].
  cbn [fold_left]. rewrite IH. apply event_registered_fields.
Qed.

(** Registering a converter and registering an event do not see each other. *)
Lemma registered_event_registered env d r key :
  registered env (event_registered d key) r = event_registered (registered env d r) key.
Proof.
  rewrite !event_registered_eq.
  destruct r; rewrite ?registered_WithRecorder, ?registered_PublisherOnly;
    by destruct d.
Qed.

Lemma registered_fold_event_registered env l d r :
  registered env (fold_left event_registered l d) r
  = fold_left event_registered l (registered env d r).
Proof.
  revert d. induction l as [|k l IH]; intros d; [reflexivity|].
  cbn [fold_left]. by rewrite IH, registered_event_registered.
Qed.

Lemma prepend_Returned {A : Type} calls1 (a : A) calls2 d :
  prepend calls1 (Returned a calls2 d) = Returned a (calls1 ++ calls2) d.
Proof. reflexivity. Qed.

Lemma bind_assoc {A B C : Type} (m : M A) (f : A -> M B) (k : B -> M C) d :
  bind (bind m f) k d = bind m (fun x => bind (f x) k) d.
Proof.
  unfold bind. destruct (m d) as [a calls1 d1| |]; try reflexivity.
  destruct (f a d1) as [b calls2 d2| |]; cbn; try reflexivity.
  destruct (k b d2); cbn; by rewrite ?app_assoc.
Qed.

Lemma when_true (m : M unit) : when true m = m.
Proof. reflexivity. Qed.

Lemma when_false (m : M unit) : when false m = ret tt.
Proof. reflexivity. Qed.

(** [registerDefaultConverter] in closed form: it returns, after the
    registrations of [default_registrations] and the events of
    [default_events], and starts these events while the driver loops. *)
Lemma registerDefaultConverter_eq SonarPublisher_topic session boot_config_ env d :
  registerDefaultConverter SonarPublisher_topic session boot_config_ env d =
  Returned tt
    (if keep_looping d then StartProcess <$> default_events boot_config_ else [])
    (fold_left event_registered (default_events boot_config_)
       (fold_left (registered env)
          (default_registrations SonarPublisher_topic session boot_config_) d)).
Proof.
  unfold registerDefaultConverter, default_registrations, default_events.
  cbv zeta.
  destruct (robot_is_PEPPER session); rewrite ?when_true, ?when_false;
    cbn [andb];
    repeat first
      [ erewrite bind_Returned by apply when_registerConverter3
      | erewrite bind_Returned by apply when_registerPublisher2
      | erewrite bind_Returned by apply when_registerDefaultEvent
      | erewrite bind_Returned by reflexivity
      | rewrite prepend_nil
      | rewrite bind_assoc ];
    rewrite when_registerConverter3, ?prepend_Returned;
    rewrite ?keep_looping_event_registered, ?keep_looping_registered;
    rewrite !fold_left_app, ?fmap_app;
    (destruct (get_bool boot_config_ "converters.odom.enabled" true);
     cbn [guarded fold_left];
     [rewrite <- !fold_left_app, registered_fold_event_registered, !fold_left_app|]);
    destruct (keep_looping d); rewrite ?app_nil_r, <- ?app_assoc; reflexivity.
Qed.

Lemma elem_of_guarded {A : Type} (b : bool) (x y : A) :
  y ∈ guarded b x <-> b = true /\ y = x.
Proof.
  destruct b; cbn.
  - rewrite list_elem_of_singleton. by intuition.
  - split; [by intros ?%elem_of_nil|by intros [? _]].
Qed.

Lemma fmap_guarded {A B : Type} (f : A -> B) (b : bool) (x : A) :
  f <$> guarded b x = guarded b (f x).
Proof. by destruct b. Qed.

Lemma Forall_guarded {A : Type} (P : A -> Prop) (b : bool) (x : A) :
  (b = true -> P x) -> Forall P (guarded b x).
Proof. destruct b; intros H; constructor; [by apply H|constructor]. Qed.

Lemma sublist_guarded_cons {A : Type} (b : bool) (x : A) l k :
  l `sublist_of` k -> (guarded b x ++ l) `sublist_of` (x :: k).
Proof. destruct b; intros H; cbn; by constructor. Qed.

(** The fields that a sequence of registrations and of events leaves. *)
Lemma fold_registered_fields env l d :
  converters_ (fold_left (registered env) l d)
  = converters_ d ++ (registered_converter <$> l) /\
  event_map_ (fold_left (registered env) l d) = event_map_ d /\
  publish_enabled_ (fold_left (registered env) l d) = publish_enabled_ d.
Proof.
  revert d. induction l as [|r l IH]; intros d.
  - cbn. by rewrite app_nil_r.
  - cbn [fold_left]. destruct (IH (registered env d r)) as (-> & -> & ->).
    destruct (registered_fields env d r) as (-> & _ & _ & _ & -> & _ & ->).
    by rewrite <- app_assoc.
Qed.

Lemma fold_event_registered_fields l d :
  converters_ (fold_left event_registered l d) = converters_ d /\
  conv_queue_ (fold_left event_registered l d) = conv_queue_ d /\
  pub_map_ (fold_left event_registered l d) = pub_map_ d /\
  rec_map_ (fold_left event_registered l d) = rec_map_ d /\
  publish_enabled_ (fold_left event_registered l d) = publish_enabled_ d.
Proof.
  revert d. induction l as [|k l IH]; intros d; [done|].
  cbn [fold_left]. destruct (IH (event_registered d k)) as (-> & -> & -> & -> & ->).
  by destruct (event_registered_fields d k) as (-> & -> & -> & -> & _ & _ & ->).
Qed.

(** The names of the default converters, in order, for every robot and every
    configuration. *)
Lemma default_registrations_names SonarPublisher_topic session boot_config_ :
  (converter.name <$>
     (registered_converter <$>
        default_registrations SonarPublisher_topic session boot_config_))
  `sublist_of` default_converter_names.
Proof.
  unfold default_registrations, default_converter_names. cbv zeta.
  rewrite <- (app_nil_r (guarded (get_bool boot_config_ "converters.odom.enabled" true) _)).
  rewrite !fmap_app, !fmap_guarded. cbn [registered_converter default_converter converter.name].
  repeat apply sublist_guarded_cons. constructor.
Qed.

Lemma NoDup_default_converter_names : NoDup default_converter_names.
Proof. apply (bool_decide_unpack _). vm_compute. exact I. Qed.

(** What holds of every default registration. *)
Lemma default_registrations_Forall SonarPublisher_topic session boot_config_ :
  Forall
    (fun r =>
       let conv := registered_converter r in
       (robot_is_PEPPER session = false ->
        converter.name conv
          ∉ ["imu_base"; "depth_camera"; "stereo_camera"; "infrared_camera"; "laser"]) /\
       (has_stereo session = true -> converter.name conv <> "infrared_camera") /\
       (has_stereo session = false -> converter.name conv <> "stereo_camera") /\
       (converter.name conv = "info" -> frequency conv = S754_zero false) /\
       (converter.name conv <> "log" -> exists pub rec, r = WithRecorder conv pub rec) /\
       (converter.name conv = "log" -> exists pub, r = PublisherOnly conv pub))
    (default_registrations SonarPublisher_topic session boot_config_).
Proof.
  unfold default_registrations. cbv zeta.
  destruct (robot_is_PEPPER session), (has_stereo session); cbn [andb];
    repeat (apply Forall_app; split);
    apply Forall_guarded; intros Hb; try discriminate Hb;
    cbn [registered_converter default_converter converter.name frequency];
    (repeat split; try discriminate; try reflexivity; try (by intros []);
     try (intros _; apply (bool_decide_unpack _); vm_compute; exact I);
     try (intros _; by eexists _, _);
     try (intros _; by eexists _)).
Qed.

(** [std::map::insert] never replaces: what a key maps to stays. *)
Lemma map_insert_lookup_Some {V : Type} (k k' : string) (v v' : V) (m : gmap string V) :
  m !! k = Some v -> map_insert k' v' m !! k = Some v.
Proof.
  intros Hk. unfold map_insert. destruct (m !! k') eqn:Hk'; [exact Hk|].
  rewrite lookup_insert_ne; [exact Hk|congruence].
Qed.

Lemma map_insert_lookup_ne {V : Type} (k k' : string) (v' : V) (m : gmap string V) :
  k' <> k -> map_insert k' v' m !! k = m !! k.
Proof.
  intros Hne. unfold map_insert. destruct (m !! k'); [reflexivity|].
  by rewrite lookup_insert_ne.
Qed.

Lemma map_insert_lookup_eq {V : Type} (k : string) (v : V) (m : gmap string V) :
  is_Some (map_insert k v m !! k).
Proof.
  unfold map_insert. destruct (m !! k) eqn:Hk; [by rewrite Hk|by rewrite lookup_insert_eq].
Qed.

Lemma registered_keeps_sinks env d r k :
  (is_Some (pub_map_ d !! k) -> is_Some (pub_map_ (registered env d r) !! k)) /\
  (is_Some (rec_map_ d !! k) -> is_Some (rec_map_ (registered env d r) !! k)).
Proof.
  destruct (registered_fields env d r) as (_ & _ & -> & -> & _).
  split; intros [v Hv].
  - eexists. by apply map_insert_lookup_Some.
  - destruct r; [|by exists v]. eexists. by apply map_insert_lookup_Some.
Qed.

Lemma fold_registered_keeps_sinks env l d k :
  (is_Some (pub_map_ d !! k) -> is_Some (pub_map_ (fold_left (registered env) l d) !! k)) /\
  (is_Some (rec_map_ d !! k) -> is_Some (rec_map_ (fold_left (registered env) l d) !! k)).
Proof.
  revert d. induction l as [|r l IH]; intros d; [done|].
  cbn [fold_left]. destruct (IH (registered env d r)) as [IHp IHr].
  destruct (registered_keeps_sinks env d r k) as [Hp Hr]. split; auto.
Qed.

(** Every converter of a sequence of registrations has its publisher, and its
    recorder when it was registered with one. *)
Lemma fold_registered_sinks env l d r :
  r ∈ l ->
  let key := converter.name (registered_converter r) in
  is_Some (pub_map_ (fold_left (registered env) l d) !! key) /\
  (forall conv pub rec, r = WithRecorder conv pub rec ->
     is_Some (rec_map_ (fold_left (registered env) l d) !! key)).
Proof.
  intros Hin key. revert d. induction l as [|r' l IH]; intros d.
  - by apply elem_of_nil in Hin.
  - cbn [fold_left]. apply elem_of_cons in Hin as [<-|Hin]; [|by apply IH].
    destruct (fold_registered_keeps_sinks env l (registered env d r) key) as [Hp Hr].
    destruct (registered_fields env d r) as (_ & _ & Hpub & Hrec & _).
    split.
    + apply Hp. rewrite Hpub. apply map_insert_lookup_eq.
    + intros conv pub rec ->. apply Hr. rewrite Hrec. apply map_insert_lookup_eq.
Qed.

(** A key that no registration with a recorder uses keeps what it had in
    [rec_map_]. *)
Lemma fold_registered_rec_other env l d k :
  Forall (fun r => forall conv pub rec,
                     r = WithRecorder conv pub rec -> converter.name conv <> k) l ->
  rec_map_ (fold_left (registered env) l d) !! k = rec_map_ d !! k.
Proof.
  intros Hall. revert d. induction Hall as [|r l Hr Hall IH]; intros d; [done|].
  cbn [fold_left]. rewrite IH.
  destruct (registered_fields env d r) as (_ & _ & _ & -> & _).
  destruct r as [conv pub rec|conv pub]; [|reflexivity].
  apply map_insert_lookup_ne. by eapply Hr.
Qed.

(** Registrations whose keys are all taken leave the two maps as they are. *)
Lemma fold_registered_again env l d :
  (forall r, r ∈ l ->
     is_Some (pub_map_ d !! converter.name (registered_converter r)) /\
     (forall conv pub rec, r = WithRecorder conv pub rec ->
        is_Some (rec_map_ d !! converter.name (registered_converter r)))) ->
  pub_map_ (fold_left (registered env) l d) = pub_map_ d /\
  rec_map_ (fold_left (registered env) l d) = rec_map_ d.
Proof.
  revert d. induction l as [|r l IH]; intros d Hall; [done|].
  cbn [fold_left].
  destruct (Hall r) as [Hp Hr]; [by left|].
  assert (Hsame : pub_map_ (registered env d r) = pub_map_ d /\
                  rec_map_ (registered env d r) = rec_map_ d).
  { destruct (registered_fields env d r) as (_ & _ & -> & -> & _). split.
    - by apply map_insert_present.
    - destruct r as [conv pub rec|conv pub]; [|reflexivity].
      apply map_insert_present. by eapply Hr. }
  destruct Hsame as [Hpub Hrec].
  destruct (IH (registered env d r)) as [-> ->]; [|done].
  intros r' Hin. rewrite Hpub, Hrec. apply Hall. by right.
Qed.

(** An event under [key] that a second registration would leave alone: it is
    there, and publishes when publishing is on. *)
Lemma event_registered_again d key ev :
  event_map_ d !! key = Some ev ->
  (publish_enabled_ d = true -> publishing ev = true) ->
  event_map_ (event_registered d key) = event_map_ d.
Proof.
  intros Hev Hpub.
  destruct (event_registered_fields d key) as (_ & _ & _ & _ & -> & _).
  rewrite map_insert_present by eauto.
  destruct (publish_enabled_ d); [|reflexivity].
  apply alter_id. intros ev' Hev'. rewrite Hev in Hev'. injection Hev' as <-.
  specialize (Hpub eq_refl). destruct ev. cbn in *. by subst.
Qed.

Lemma event_registered_lookup d key k :
  event_map_ (event_registered d key) !! k
  = if decide (k = key)
    then Some ((if publish_enabled_ d then isPublishing true else id)
                 (default (resetRecorder EventRegister) (event_map_ d !! key)))
    else event_map_ d !! k.
Proof.
  destruct (event_registered_fields d key) as (_ & _ & _ & _ & -> & _).
  unfold map_insert.
  destruct (decide (k = key)) as [->|Hne].
  - destruct (event_map_ d !! key) as [old|] eqn:Hold; destruct (publish_enabled_ d); cbn;
      rewrite ?lookup_alter_eq, ?lookup_insert_eq, ?Hold; reflexivity.
  - destruct (event_map_ d !! key) as [old|] eqn:Hold; destruct (publish_enabled_ d); cbn;
      rewrite ?lookup_alter_ne, ?lookup_insert_ne by congruence; reflexivity.
Qed.

(** What a sequence of default events leaves under a key. *)
Lemma fold_event_registered_lookup l d k :
  event_map_ (fold_left event_registered l d) !! k
  = if bool_decide (k ∈ l)
    then Some ((if publish_enabled_ d then isPublishing true else id)
                 (default (resetRecorder EventRegister) (event_map_ d !! k)))
    else event_map_ d !! k.
Proof.
  revert d. induction l as [|key l IH]; intros d.
  - rewrite bool_decide_eq_false_2; [reflexivity|apply not_elem_of_nil].
  - cbn [fold_left]. rewrite IH, event_registered_lookup.
    destruct (event_registered_fields d key) as (_ & _ & _ & _ & _ & _ & ->).
    destruct (decide (k = key)) as [->|Hne].
    + rewrite (bool_decide_eq_true_2 (key ∈ key :: l)) by (by left).
      destruct (bool_decide (key ∈ l)); destruct (publish_enabled_ d); cbn;
        try reflexivity;
        by destruct (default (resetRecorder EventRegister) (event_map_ d !! key)).
    + destruct (bool_decide (k ∈ l)) eqn:Hin.
      * apply bool_decide_eq_true_1 in Hin.
        by rewrite (bool_decide_eq_true_2 (k ∈ key :: l)) by (by right).
      * apply bool_decide_eq_false_1 in Hin.
        rewrite (bool_decide_eq_false_2 (k ∈ key :: l)); [reflexivity|].
        intros [->|H]%elem_of_cons; [by apply Hne|by apply Hin].
Qed.

Lemma default_events_sublist boot_config_ :
  default_events boot_config_ `sublist_of` default_event_names.
Proof.
  unfold default_events, default_event_names. cbv zeta.
  rewrite <- (app_nil_r (guarded (get_bool boot_config_ "converters.touch_head.enabled" true) _)).
  repeat apply sublist_guarded_cons. constructor.
Qed.

(** X25. Whatever the boot configuration says, [registerDefaultConverter]
    returns and appends converters whose names are distinct and come, in
    order, from the fourteen default names. On a robot other than Pepper none
    of them is the base IMU, the depth, stereo or infrared camera, or the
    laser; with a stereo depth camera there is no infrared camera, without one
    there is no stereo camera. The converter ["info"] has frequency 0 whatever
    ["converters.info.frequency"] holds, so a tick never selects LOG for it. *)
Theorem default_converters_follow_the_robot
    SonarPublisher_topic session boot_config_ env d :
  exists calls d' new,
    registerDefaultConverter SonarPublisher_topic session boot_config_ env d
    = Returned tt calls d' /\
    converters_ d' = converters_ d ++ new /\
    (converter.name <$> new) `sublist_of` default_converter_names /\
    NoDup (converter.name <$> new) /\
    forall conv, conv ∈ new ->
      (robot_is_PEPPER session = false ->
       converter.name conv
         ∉ ["imu_base"; "depth_camera"; "stereo_camera"; "infrared_camera"; "laser"]) /\
      (has_stereo session = true -> converter.name conv <> "infrared_camera") /\
      (has_stereo session = false -> converter.name conv <> "stereo_camera") /\
      (converter.name conv = "info" ->
       frequency conv = S754_zero false /\
       forall env' d'', LOG ∉ tick_actions env' conv d'').
Proof.
  rewrite registerDefaultConverter_eq.
  eexists _, _,
    (registered_converter <$>
       default_registrations SonarPublisher_topic session boot_config_).
  split; [reflexivity|].
  destruct (fold_event_registered_fields (default_events boot_config_)
              (fold_left (registered env)
                 (default_registrations SonarPublisher_topic session boot_config_) d))
    as (-> & _).
  destruct (fold_registered_fields env
              (default_registrations SonarPublisher_topic session boot_config_) d)
    as (-> & _).
  split; [reflexivity|].
  pose proof (default_registrations_names SonarPublisher_topic session boot_config_)
    as Hsub.
  split; [exact Hsub|].
  split; [exact (sublist_NoDup _ _ NoDup_default_converter_names Hsub)|].
  intros conv (r & -> & Hr)%list_elem_of_fmap.
  pose proof (default_registrations_Forall SonarPublisher_topic session boot_config_)
    as Hall.
  rewrite Forall_forall in Hall.
  destruct (Hall r Hr) as (Hpepper & Hir & Hstereo & Hinfo & _).
  repeat split; try done.
  - by apply Hinfo.
  - intros env' d''. rewrite in_tick_actions.
    intros [(Heq & _)|[(Heq & _)|(_ & _ & _ & Hfreq)]]; try discriminate.
    rewrite (Hinfo H) in Hfreq. discriminate.
Qed.

(** X26. After [registerDefaultConverter] every converter that it appended has
    a publisher under its name, and every one but ["log"] has a recorder
    under its name. ["log"] is registered with a publisher only: what
    [rec_map_] holds under ["log"] is what it held before, so that on a driver
    without such a recorder the log converter is never recorded nor
    buffered. *)
Theorem default_converters_have_their_sinks
    SonarPublisher_topic session boot_config_ env d :
  exists calls d' new,
    registerDefaultConverter SonarPublisher_topic session boot_config_ env d
    = Returned tt calls d' /\
    converters_ d' = converters_ d ++ new /\
    (forall conv, conv ∈ new ->
       is_Some (pub_map_ d' !! converter.name conv) /\
       (converter.name conv <> "log" -> is_Some (rec_map_ d' !! converter.name conv))) /\
    rec_map_ d' !! "log" = rec_map_ d !! "log" /\
    (rec_map_ d !! "log" = None ->
     forall conv env', converter.name conv = "log" ->
       (RECORD ∉ tick_actions env' conv d') /\ (LOG ∉ tick_actions env' conv d')).
Proof.
  rewrite registerDefaultConverter_eq.
  set (l := default_registrations SonarPublisher_topic session boot_config_).
  eexists _, _, (registered_converter <$> l).
  split; [reflexivity|].
  destruct (fold_event_registered_fields (default_events boot_config_)
              (fold_left (registered env) l d)) as (Hcs & _ & Hpm & Hrm & _).
  destruct (fold_registered_fields env l d) as (Hcs' & _).
  rewrite Hcs, Hcs', Hpm, Hrm.
  split; [reflexivity|].
  pose proof (default_registrations_Forall SonarPublisher_topic session boot_config_)
    as Hall.
  fold l in Hall.
  assert (Hlog : rec_map_ (fold_left (registered env) l d) !! "log" = rec_map_ d !! "log").
  { apply fold_registered_rec_other. eapply Forall_impl; [exact Hall|].
    intros r (_ & _ & _ & _ & _ & Hl) conv pub rec -> Hname.
    destruct (Hl Hname) as (pub' & Heq). discriminate. }
  split; [|split; [exact Hlog|]].
  - intros conv (r & -> & Hr)%list_elem_of_fmap.
    destruct (fold_registered_sinks env l d r Hr) as [Hp Hrec].
    split; [exact Hp|]. intros Hne.
    rewrite Forall_forall in Hall.
    destruct (Hall r Hr) as (_ & _ & _ & _ & Hwith & _).
    destruct (Hwith Hne) as (pub & rec & Heq). by eapply Hrec.
  - intros Hnone conv env' Hname. rewrite Hnone in Hlog.
    split; rewrite in_tick_actions, Hname, Hrm;
      intros [(Heq & _)|[(_ & _ & _ & r & Hr & _)|(_ & _ & [r Hr] & _)]];
      try discriminate; congruence.
Qed.

Lemma registered_queue_ok env d r :
  queue_ok d ->
  queue_ok (registered env d r) /\
  conv_queue_ (registered env d r)
  ≡ₚ {| schedule_ := now env; conv_index_ := length (converters_ d) |} :: conv_queue_ d.
Proof.
  intros Hok.
  destruct (registerConverter_queue_ok (registered_converter r) env d Hok)
    as (d' & Heq & Hok' & Hcs & Hq).
  rewrite registerConverter_eq in Heq. injection Heq as <-.
  destruct (registered_fields env d r) as (Hcs' & Hq' & _).
  split.
  - unfold queue_ok, queue_in_bounds in *. rewrite Hcs', Hq'.
    by destruct d.
  - rewrite Hq'. apply push_Permutation.
Qed.

Lemma fold_registered_queue env l d :
  queue_ok d ->
  queue_ok (fold_left (registered env) l d) /\
  length (conv_queue_ (fold_left (registered env) l d))
  = (length (conv_queue_ d) + length l)%nat /\
  forall e, e ∈ conv_queue_ (fold_left (registered env) l d) ->
    e ∈ conv_queue_ d \/
    (schedule_ e = now env /\ (length (converters_ d) <= conv_index_ e)%nat).
Proof.
  revert d. induction l as [|r l IH]; intros d Hok.
  - cbn. split; [exact Hok|]. split; [lia|]. by left.
  - cbn [fold_left length].
    destruct (registered_queue_ok env d r Hok) as [Hok1 Hq1].
    destruct (IH _ Hok1) as (Hok2 & Hlen & Hin).
    split; [exact Hok2|]. split.
    + rewrite Hlen, Hq1. cbn. lia.
    + intros e He. destruct (Hin e He) as [He1|[Hs Hi]].
      * rewrite Hq1 in He1. apply elem_of_cons in He1 as [->|He1]; [|by left].
        right. cbn. split; [reflexivity|lia].
      * right. split; [exact Hs|].
        destruct (registered_fields env d r) as (Hcs & _).
        rewrite Hcs, length_app in Hi. lia.
Qed.

(** X27. [registerDefaultConverter] keeps the queue invariant: on a driver
    whose queue entries are in bounds and distinct, the queue afterwards is
    again so. It holds one more entry for each converter appended, and each
    new entry is stamped with the current time and points at an appended
    converter. So every run of ticks and registrations that follows
    returns. *)
Theorem default_registration_keeps_the_queue
    SonarPublisher_topic session boot_config_ env d :
  queue_ok d ->
  exists calls d',
    registerDefaultConverter SonarPublisher_topic session boot_config_ env d
    = Returned tt calls d' /\
    queue_ok d' /\
    (length (conv_queue_ d') + length (converters_ d)
     = length (conv_queue_ d) + length (converters_ d'))%nat /\
    (forall e, e ∈ conv_queue_ d' ->
       e ∈ conv_queue_ d \/
       (schedule_ e = now env /\
        (length (converters_ d) <= conv_index_ e < length (converters_ d'))%nat)) /\
    forall pf ops, exists calls2 d2, run pf ops d' = Returned tt calls2 d2.
Proof.
  intros Hok. rewrite registerDefaultConverter_eq.
  set (l := default_registrations SonarPublisher_topic session boot_config_).
  set (evs := default_events boot_config_).
  eexists _, _. split; [reflexivity|].
  destruct (fold_event_registered_fields evs (fold_left (registered env) l d))
    as (Hcs & Hq & _).
  destruct (fold_registered_fields env l d) as (Hcs' & _).
  destruct (fold_registered_queue env l d Hok) as (Hok1 & Hlen & Hin).
  assert (Hok2 : queue_ok (fold_left event_registered evs (fold_left (registered env) l d))).
  { unfold queue_ok, queue_in_bounds in *. by rewrite Hcs, Hq. }
  split; [exact Hok2|]. rewrite Hq, Hcs, Hcs', Hlen, length_app, length_fmap.
  split; [lia|]. split.
  - intros e He. destruct (Hin e He) as [He1|[Hs Hi]]; [by left|right].
    split; [exact Hs|]. split; [exact Hi|].
    destruct Hok1 as [Hb _]. unfold queue_in_bounds in Hb.
    rewrite Forall_forall in Hb. specialize (Hb e He).
    rewrite Hcs', length_app, length_fmap in Hb. exact Hb.
  - intros pf ops.
    destruct (run_queue_ok pf ops _ Hok2) as (calls2 & d2 & Heq & _).
    by exists calls2, d2.
Qed.

Lemma default_registration_keeps_the_queue_witness :
  exists calls d',
    registerDefaultConverter sonar_topic pepper_session empty_config (quiet_env 0)
      (make_Driver sample_platform)
    = Returned tt calls d' /\
    queue_ok d' /\
    (length (conv_queue_ d') + length (converters_ (make_Driver sample_platform))
     = length (conv_queue_ (make_Driver sample_platform)) + length (converters_ d'))%nat /\
    (forall e, e ∈ conv_queue_ d' ->
       e ∈ conv_queue_ (make_Driver sample_platform) \/
       (schedule_ e = now (quiet_env 0) /\
        (length (converters_ (make_Driver sample_platform)) <= conv_index_ e
         < length (converters_ d'))%nat)) /\
    forall pf ops, exists calls2 d2, run pf ops d' = Returned tt calls2 d2.
Proof.
  apply default_registration_keeps_the_queue. split; constructor.
Defined.

(** X28. [registerDefaultConverter] inserts the events ["audio"], ["bumper"],
    ["hand_touch"] and ["head_touch"] that the boot configuration does not
    switch off, and sends nothing but the start of these events, in that
    order, and only while [keep_looping] is set: after [stop()] the events
    are inserted and not started. An event that was already registered under
    one of these names is kept, not replaced. When [publish_enabled_] is set
    the enabled events publish afterwards; all other events are untouched. *)
Theorem default_events_started_while_looping
    SonarPublisher_topic session boot_config_ env d :
  exists calls d' evs,
    registerDefaultConverter SonarPublisher_topic session boot_config_ env d
    = Returned tt calls d' /\
    evs `sublist_of` default_event_names /\
    (forall key, key ∈ evs <->
       (key = "audio" /\ get_bool boot_config_ "converters.audio.enabled" true = true) \/
       (key = "bumper" /\ get_bool boot_config_ "converters.bumper.enabled" true = true) \/
       (key = "hand_touch"
        /\ get_bool boot_config_ "converters.touch_hand.enabled" true = true) \/
       (key = "head_touch"
        /\ get_bool boot_config_ "converters.touch_head.enabled" true = true)) /\
    calls = (if keep_looping d then StartProcess <$> evs else []) /\
    (forall key, key ∈ evs ->
       exists ev,
         event_map_ d' !! key = Some ev /\
         (publish_enabled_ d = true -> publishing ev = true) /\
         (forall old, event_map_ d !! key = Some old ->
            ev = if publish_enabled_ d then isPublishing true old else old)) /\
    (forall key, key ∉ evs -> event_map_ d' !! key = event_map_ d !! key).
Proof.
  rewrite registerDefaultConverter_eq.
  set (l := default_registrations SonarPublisher_topic session boot_config_).
  eexists _, _, (default_events boot_config_).
  split; [reflexivity|].
  split; [apply default_events_sublist|].
  split; [|split; [reflexivity|]].
  - intros key. unfold default_events. cbv zeta.
    rewrite !elem_of_app, !elem_of_guarded. tauto.
  - assert (Hlookup : forall key,
      event_map_ (fold_left event_registered (default_events boot_config_)
                    (fold_left (registered env) l d)) !! key
      = if bool_decide (key ∈ default_events boot_config_)
        then Some ((if publish_enabled_ d then isPublishing true else id)
                     (default (resetRecorder EventRegister) (event_map_ d !! key)))
        else event_map_ d !! key).
    { intros key. rewrite fold_event_registered_lookup.
      by destruct (fold_registered_fields env l d) as (_ & -> & ->). }
    split.
    + intros key Hin. rewrite Hlookup, bool_decide_eq_true_2 by exact Hin.
      eexists. split; [reflexivity|]. split.
      * intros ->. by destruct (default _ _).
      * intros old ->. by destruct (publish_enabled_ d).
    + intros key Hin. by rewrite Hlookup, bool_decide_eq_false_2 by exact Hin.
Qed.

(** X29. A second [registerDefaultConverter] right after a first sends the
    same calls again and appends the same converters again, while [pub_map_],
    [rec_map_] and [event_map_] stay exactly as the first call left them. In
    particular, when the first call left no converter, the second leaves none
    either. *)
Theorem registerDefaultConverter_again
    SonarPublisher_topic session boot_config_ env env' d :
  exists calls new d1 d2,
    registerDefaultConverter SonarPublisher_topic session boot_config_ env d
    = Returned tt calls d1 /\
    registerDefaultConverter SonarPublisher_topic session boot_config_ env' d1
    = Returned tt calls d2 /\
    converters_ d1 = converters_ d ++ new /\
    converters_ d2 = converters_ d1 ++ new /\
    pub_map_ d2 = pub_map_ d1 /\
    rec_map_ d2 = rec_map_ d1 /\
    event_map_ d2 = event_map_ d1 /\
    (converters_ d1 = [] -> converters_ d2 = []).
Proof.
  pose (l := default_registrations SonarPublisher_topic session boot_config_).
  pose (evs := default_events boot_config_).
  pose (d1 := fold_left event_registered evs (fold_left (registered env) l d)).
  exists (if keep_looping d then StartProcess <$> evs else []),
         (registered_converter <$> l), d1,
         (fold_left event_registered evs (fold_left (registered env') l d1)).
  rewrite !registerDefaultConverter_eq. fold l evs. fold d1.
  destruct (fold_event_registered_fields evs (fold_left (registered env) l d))
    as (Hcs1 & _ & Hpm1 & Hrm1 & Hpe1).
  destruct (fold_registered_fields env l d) as (Hcs1' & Hem1' & Hpe1').
  destruct (fold_event_registered_fields evs (fold_left (registered env') l d1))
    as (Hcs2 & _ & Hpm2 & Hrm2 & Hpe2).
  destruct (fold_registered_fields env' l d1) as (Hcs2' & Hem2' & Hpe2').
  fold d1 in Hcs1, Hpm1, Hrm1, Hpe1.
  assert (Hcs : converters_ d1 = converters_ d ++ (registered_converter <$> l))
    by (by rewrite Hcs1, Hcs1').
  assert (Hcsd : converters_ (fold_left event_registered evs
                                (fold_left (registered env') l d1))
                 = converters_ d1 ++ (registered_converter <$> l))
    by (by rewrite Hcs2, Hcs2').
  split; [reflexivity|]. split.
  { f_equal. unfold d1.
    by rewrite keep_looping_event_registered, keep_looping_registered. }
  split; [exact Hcs|]. split; [exact Hcsd|].
  destruct (fold_registered_again env' l d1) as [Hpm Hrm].
  { intros r Hr. rewrite Hpm1, Hrm1. by apply fold_registered_sinks. }
  split; [by rewrite Hpm2, Hpm|]. split; [by rewrite Hrm2, Hrm|]. split.
  - assert (Hd1 : forall key,
              event_map_ d1 !! key
              = if bool_decide (key ∈ evs)
                then Some ((if publish_enabled_ d then isPublishing true else id)
                             (default (resetRecorder EventRegister) (event_map_ d !! key)))
                else event_map_ d !! key).
    { intros key. unfold d1. by rewrite fold_event_registered_lookup, Hem1', Hpe1'. }
    apply map_eq. intros key.
    rewrite fold_event_registered_lookup, Hem2', Hpe2', Hpe1, Hpe1'.
    destruct (bool_decide (key ∈ evs)) eqn:Hin; [|reflexivity].
    rewrite Hd1, Hin.
    destruct (publish_enabled_ d); cbn; [|reflexivity].
    by destruct (default (resetRecorder EventRegister) (event_map_ d !! key)).
  - intros Hnil. rewrite Hcsd, Hnil. cbn [app]. rewrite Hcs in Hnil.
    by apply app_eq_nil in Hnil as [_ ?].
Qed.
